(** * ExpenseFlow: causal reconciliation and time-travel replay

    A shallow embedding of
      - [src/services/consensusEngine.js]  (ConsensusEngine),
      - [src/services/replayEngine.js]     (ReplayEngine),
      - the StateDelta / AuditSnapshot schemas and [getReverseDelta]
        ([src/listeners/AuditListeners.js]),
      - [EnhancedAuditLogger.calculateFinancialImpact],
    together with the properties the specification states about them.

    Conventions of the embedding.
      - A JavaScript number that carries an amount is an IEEE 754 binary64
        value (a primitive [float]), with the operators of the language:
        [+], [-], [/], [*], [Math.abs], [>], and the truthiness that
        [if (x)] and [x || 0] test.  Decimal literals are read as JavaScript
        reads them, to the nearest binary64 value.
      - Counters of transactions and of conflicts are integers ([Z]);
        vector-clock counters are [nat].
      - Dates are milliseconds since the epoch ([Z]), inside the range of
        [Date]; the time zone of the host is a parameter.
      - A Mongoose document or a plain JS object used as a bag of paths is a
        [gmap string value]; object spread [{...a, ...b}] is [b ∪ a].
      - The persistent collections are explicit lists that the operations take
        and return. *)

From stdpp Require Import gmap strings list fin_maps.
From Stdlib Require Import ZArith Lia.
From Stdlib Require Import Sorted.
From Stdlib Require Import Floats.

Set Warnings "-inexact-float".

Open Scope Z_scope.

(** ** Shared value types *)

(** A vector clock: actor id to counter (the JSON form of the Mongoose Map). *)
Abbreviation clock := (gmap string nat).

(** Values stored under a path of a document; [VNaN] is the number NaN. *)
Inductive value : Type :=
  | VNull
  | VNum (z : Z)
  | VNaN
  | VStr (s : string)
  | VClock (c : clock).

#[global] Instance value_eq_dec : EqDecision value.
Proof. solve_decision. Defined.

(** A document / update payload: path to value. *)
Abbreviation doc := (gmap string value).

(** ** JavaScript numbers *)

Abbreviation number := float.

Module Number.

(** ToBoolean of a number: [+0], [-0] and NaN are falsy. *)
Definition truthy (x : number) : bool := (negb (x =? 0) && (x =? x))%float.

(** [x || 0] *)
Definition or0 (x : number) : number := if truthy x then x else 0%float.

End Number.

(** ** utils/vectorClockUtils.js *)

Module VectorClock.

(** Modelled from the spec: the outcome of [compare]
    ([utils/vectorClockUtils.js] is not part of the sources; §4.1). *)
Inductive relation : Type := equal | less | greater | concurrent.

#[global] Instance relation_eq_dec : EqDecision relation.
Proof. solve_decision. Defined.

(** Missing actors are implicitly 0. *)
Definition counter (c : clock) (actor : string) : nat :=
  default 0%nat (c !! actor).

(** The full actor-id set union of two clocks. *)
Definition actors (a b : clock) : list string :=
  elements (dom a ∪ dom b).

(** Modelled from the spec: [compare(a, b)] of the absent
    [utils/vectorClockUtils.js] (§4.1): [less] iff no counter of [a] is
    larger and at least one is strictly smaller; symmetric for [greater];
    [equal] iff all counters match; otherwise [concurrent]. *)
Definition compare (a b : clock) : relation :=
  let ks := actors a b in
  let isGreater := existsb (λ k, Nat.ltb (counter b k) (counter a k)) ks in
  let isSmaller := existsb (λ k, Nat.ltb (counter a k) (counter b k)) ks in
  if isGreater && isSmaller then concurrent
  else if isGreater then greater
  else if isSmaller then less
  else equal.

(** Modelled from the spec: [merge(a, b)] of the absent
    [utils/vectorClockUtils.js] (§4.1): pointwise maximum per actor, union
    of the actor sets. *)
Definition merge (a b : clock) : clock :=
  union_with (λ x y, Some (Nat.max x y)) a b.

(** Modelled from the spec: [increment(clock, actor)] of the absent
    [utils/vectorClockUtils.js] (§4.1): a copy with the actor's counter
    incremented by one, unknown actors starting at 0. *)
Definition increment (c : clock) (actor : string) : clock :=
  <[actor := S (counter c actor)]> c.

(** The string by which [reconcile] recognises each outcome.  The code
    tests the causally-behind outcome (the spec's [less]) against the
    literal ['smaller'] (consensusEngine.js, line 32). *)
Definition label (r : relation) : string :=
  match r with
  | equal => "equal"
  | less => "smaller"
  | greater => "greater"
  | concurrent => "concurrent"
  end.

End VectorClock.

(** ** services/consensusEngine.js *)

Module ConsensusEngine.

(** A row of the SyncConflict collection (the conflict graveyard), with
    the fields [reconcile] writes and [resolveConflict] updates. *)
Record SyncConflict : Type := {
  transactionId : option value;
  userId : option value;
  serverState : doc;
  clientState : doc;
  vectorClocks_server : clock;
  vectorClocks_client : clock;
  checksum : string;
  status : string;
  resolutionStrategy : option string;
  resolvedAt : option Z
}.

(** The two collections the engine works on: transactions by [_id], and
    the conflicts in creation order (a conflict id is its position). *)
Record Store : Type := {
  transactions : gmap string doc;
  conflicts : list SyncConflict
}.

(** What [reconcile] returns: [{ action, reason }] or [{ action, data }]. *)
Record result : Type := {
  action : string;
  reason : option string;
  data : option doc
}.

Inductive error : Type :=
  | Error (message : string)
  | TypeError
  | Rejected (why : string).

(** What the database answers to the two [save()] calls of
    [resolveConflict]: [None] when the write is accepted, the error the
    promise rejects with otherwise (validation, version, connection). *)
Record Saves : Type := {
  saveTransaction : doc → option error;
  saveConflict : SyncConflict → option error
}.

(** [transaction.vectorClock.toJSON()] *)
Definition vectorClock_of (transaction : doc) : clock :=
  match transaction !! "vectorClock" with
  | Some (VClock c) => c
  | _ => ∅
  end.

(** [x || 0] for a numeric path that may be missing. *)
Definition num_or_0 (v : option value) : Z :=
  match v with
  | Some (VNum n) => n
  | _ => 0
  end.

(** [Math.max(0, x - 1)] for the value [x] read at the counter path; no
    [|| 0] guards this read (line 115, unlike line 80): a missing counter
    is [undefined], [undefined - 1] is NaN and [Math.max(0, NaN)] is NaN,
    while [null - 1] is [-1].  The path is numeric; a string or a clock is
    not written there and is read as NaN. *)
Definition decremented (x : option value) : value :=
  match x with
  | Some (VNum n) => VNum (Z.max 0 (n - 1))
  | Some VNull => VNum 0
  | _ => VNaN
  end.

(** Modelled from the spec: [SyncConflict.create] of the absent
    [models/SyncConflict.js]: a pure insert of the fields the caller gives,
    the new entry starting [open] with no resolution recorded (§3,
    ConflictEntry). *)
Definition SyncConflict_create (st : Store) (transactionId userId : option value)
    (serverState clientState : doc) (server client : clock) (checksum : string)
    : Store :=
  {| transactions := transactions st;
     conflicts := conflicts st ++
       [ {| transactionId := transactionId;
            userId := userId;
            serverState := serverState;
            clientState := clientState;
            vectorClocks_server := server;
            vectorClocks_client := client;
            checksum := checksum;
            status := "open";
            resolutionStrategy := None;
            resolvedAt := None |} ] |}.

Section Reconcile.

(** [hashGenerator.generateTransactionHash] ([utils/hashGenerator.js]
    is not part of the sources): any deterministic content hash. *)
Variable generateTransactionHash : doc → string.

Definition ignore (why : string) : result :=
  {| action := "ignore"; reason := Some why; data := None |}.

(** The body of [reconcile] after [relation] has been computed. *)
Definition reconcile_relation (relation : string) (st : Store)
    (transaction clientUpdate : doc) (serverClock clientClock : clock)
    : Store * result :=
  if String.eqb relation "smaller" then
    (st, ignore "stale_update")
  else if String.eqb relation "greater" then
    let mergedClock :=
      VectorClock.increment (VectorClock.merge serverClock clientClock) "server" in
    (st, {| action := "update";
            reason := None;
            data := Some (<["syncMetadata.checksum" := VStr (generateTransactionHash clientUpdate)]>
                            (<["vectorClock" := VClock mergedClock]> clientUpdate)) |})
  else if String.eqb relation "concurrent" || String.eqb relation "equal" then
    let clientHash := generateTransactionHash clientUpdate in
    if String.eqb relation "equal"
       && bool_decide (transaction !! "syncMetadata.checksum" = Some (VStr clientHash))
    then (st, ignore "redundant_update")
    else
      let st' := SyncConflict_create st
        (transaction !! "_id") (transaction !! "user")
        transaction clientUpdate serverClock clientClock clientHash in
      (st', {| action := "conflict";
               reason := None;
               data := Some (<["syncMetadata.conflictsCount" :=
                                 VNum (num_or_0 (transaction !! "syncMetadata.conflictsCount") + 1)]>
                               {[ "syncMetadata.syncStatus" := VStr "conflict" ]}) |})
  else (st, ignore "unknown_relation").

(** [reconcile(transaction, clientUpdate, clientClock, deviceId)];
    [deviceId] is only logged. *)
Definition reconcile (st : Store) (transaction clientUpdate : doc)
    (clientClock : clock) (deviceId : string) : Store * result :=
  let serverClock := vectorClock_of transaction in
  let relation := VectorClock.label (VectorClock.compare clientClock serverClock) in
  reconcile_relation relation st transaction clientUpdate serverClock clientClock.

End Reconcile.

(** [SyncConflict.findById(id).populate('transactionId')]: the conflict
    and the transaction it references ([None] when the reference does not
    resolve). *)
Definition populate (st : Store) (conflict : SyncConflict) : option (string * doc) :=
  match transactionId conflict with
  | Some (VStr tid) => (λ tx, (tid, tx)) <$> transactions st !! tid
  | _ => None
  end.

(** Mongoose [tx.set(obj)]: every path of [obj] is assigned. *)
Definition doc_set (finalData tx : doc) : doc := finalData ∪ tx.

Definition mark_resolved (conflict : SyncConflict) (strategy : string) (now : Z)
    : SyncConflict :=
  {| transactionId := transactionId conflict;
     userId := userId conflict;
     serverState := serverState conflict;
     clientState := clientState conflict;
     vectorClocks_server := vectorClocks_server conflict;
     vectorClocks_client := vectorClocks_client conflict;
     checksum := checksum conflict;
     status := "resolved";
     resolutionStrategy := Some strategy;
     resolvedAt := Some now |}.

(** [resolveConflict(conflictId, strategy, resolvedData)]; [now] is the
    value of [new Date()] at the call and [saves] answers the two [save()]
    calls.  The result pairs the collections after the call with either
    the error thrown or the saved transaction of
    [{ success: true, transaction }].  A rejected [tx.save()] stores
    nothing; a rejected [conflict.save()] comes after the transaction has
    been stored. *)
Definition resolveConflict (saves : Saves) (now : Z) (st : Store) (conflictId : nat)
    (strategy : string) (resolvedData : doc) : Store * (error + doc) :=
  match conflicts st !! conflictId with
  | None => (st, inl (Error "Conflict record not found"))
  | Some conflict =>
    let finalData :=
      if String.eqb strategy "client_wins" then Some (clientState conflict)
      else if String.eqb strategy "server_wins" then Some (serverState conflict)
      else if String.eqb strategy "merge" then Some (resolvedData ∪ serverState conflict)
      else None in
    match finalData with
    | None => (st, inl (Error "Invalid resolution strategy"))
    | Some finalData =>
      match populate st conflict with
      | None => (st, inl TypeError)
      | Some (tid, tx) =>
        let tx1 := doc_set finalData tx in
        let tx2 := <["syncMetadata.syncStatus" := VStr "synced"]> tx1 in
        let tx3 := <["syncMetadata.conflictsCount" :=
                      decremented (tx2 !! "syncMetadata.conflictsCount")]> tx2 in
        let vc := vectorClock_of tx3 in
        let tx4 := <["vectorClock" :=
                      VClock (<["server" := (VectorClock.counter vc "server" + 1)%nat]> vc)]> tx3 in
        match saveTransaction saves tx4 with
        | Some e => (st, inl e)
        | None =>
          let resolved := mark_resolved conflict strategy now in
          match saveConflict saves resolved with
          | Some e =>
            ({| transactions := <[tid := tx4]> (transactions st);
                conflicts := conflicts st |},
             inl e)
          | None =>
            ({| transactions := <[tid := tx4]> (transactions st);
                conflicts := <[conflictId := resolved]> (conflicts st) |},
             inr tx4)
          end
        end
      end
    end
  end.

End ConsensusEngine.

(** ** models/StateDelta.js and models/AuditSnapshot.js *)

Module Ledger.

(** The fields of a [beforeState] / [afterState] (schema type Mixed) that
    the audit logger and the replay engine read. *)
Record EntityState : Type := {
  es_type : string;
  es_amount : number;
  es_category : string;
  es_budgetId : option string;
  es_goalId : option string;
  es_limit : number;
  es_spent : number;
  es_targetAmount : number;
  es_currentAmount : number
}.

Record ChangedField : Type := {
  field : string;
  oldValue : option value;
  newValue : option value
}.

Record FinancialImpact : Type := {
  balanceChange : number;
  affectedCategories : list string;
  affectedBudgets : list string;
  affectedGoals : list string
}.

(** The delta fields that [applyDelta] reads and [getReverseDelta]
    returns. *)
Record Delta : Type := {
  entityType : string;
  entityId : string;
  operation : string;
  beforeState : option EntityState;
  afterState : option EntityState;
  changedFields : list ChangedField;
  financialImpact : FinancialImpact
}.

(** A stored StateDelta document. *)
Record StateDelta : Type := {
  user : string;
  timestamp : Z;
  body :> Delta
}.

(** [stateDeltaSchema.methods.getReverseDelta] *)
Definition getReverseDelta (this : Delta) : Delta :=
  {| entityType := entityType this;
     entityId := entityId this;
     operation :=
       if String.eqb (operation this) "create" then "delete"
       else if String.eqb (operation this) "delete" then "create"
       else "update";
     beforeState := afterState this;
     afterState := beforeState this;
     changedFields :=
       map (λ f, {| field := field f; oldValue := newValue f; newValue := oldValue f |})
           (changedFields this);
     financialImpact :=
       {| balanceChange := (- balanceChange (financialImpact this))%float;
          affectedCategories := affectedCategories (financialImpact this);
          affectedBudgets := affectedBudgets (financialImpact this);
          affectedGoals := affectedGoals (financialImpact this) |} |}.

Record CategoryEntry : Type := {
  category : string;
  amount : number;
  cat_transactionCount : Z
}.

Record BudgetEntry : Type := {
  budgetId : string;
  limit : number;
  spent : number;
  remaining : number
}.

Record GoalEntry : Type := {
  goalId : string;
  targetAmount : number;
  currentAmount : number;
  progress : number
}.

Record AccountEntry : Type := {
  accountId : string;
  balance : number;
  acc_currency : string
}.

(** A row of the Expense collection, as far as [getTransactionsUpTo]
    looks at it. *)
Record Expense : Type := {
  exp_user : string;
  date : Z;
  exp_fields : doc
}.

(** The financial state held by a snapshot and rebuilt by replay;
    [transactions] is only present when replay attaches it. *)
Record State : Type := {
  totalBalance : number;
  totalIncome : number;
  totalExpenses : number;
  categoryBreakdown : list CategoryEntry;
  budgets : list BudgetEntry;
  goals : list GoalEntry;
  accounts : list AccountEntry;
  transactionCount : Z;
  currency : string;
  transactions : option (list Expense)
}.

(** A stored AuditSnapshot document. *)
Record AuditSnapshot : Type := {
  snap_user : string;
  snapshotDate : Z;
  snapshotType : string;
  state : State
}.

(** The three collections replay reads, each in insertion order. *)
Record Collections : Type := {
  deltas : list StateDelta;
  snapshots : list AuditSnapshot;
  expenses : list Expense
}.

(** [.sort({ key: 1 })]: ascending, ties in collection order. *)
Fixpoint insert_by {A : Type} (key : A → Z) (x : A) (l : list A) : list A :=
  match l with
  | [] => [x]
  | y :: ys => if key x <=? key y then x :: y :: ys else y :: insert_by key x ys
  end.

Definition sort_by {A : Type} (key : A → Z) (l : list A) : list A :=
  foldr (insert_by key) [] l.

(** [.sort({ key: -1 })] *)
Definition sort_by_desc {A : Type} (key : A → Z) (l : list A) : list A :=
  sort_by (λ x, - key x) l.

End Ledger.

(** ** EnhancedAuditLogger (audit capture) *)

Module EnhancedAuditLogger.
Import Ledger.

(** The signed amount of a transaction state: income counts positive,
    everything else negative. *)
Definition signedAmount (s : EntityState) : number :=
  if String.eqb (es_type s) "income" then es_amount s else (- es_amount s)%float.

(** [x?.budgetId] / [x?.goalId] *)
Definition opt_id (f : EntityState → option string) (s : option EntityState)
    : option string :=
  s ≫= f.

(** The [affectedBudgets] / [affectedGoals] part: the id before, then the
    id after when it differs. *)
Definition affectedIds (f : EntityState → option string)
    (beforeState afterState : option EntityState) : list string :=
  let b := opt_id f beforeState in
  let a := opt_id f afterState in
  (match b with Some i => [i] | None => [] end) ++
  (match a with
   | Some i => if bool_decide (a = b) then [] else [i]
   | None => []
   end).

(** [EnhancedAuditLogger.calculateFinancialImpact] *)
Definition calculateFinancialImpact (entityType operation : string)
    (beforeState afterState : option EntityState) : FinancialImpact :=
  let '(change, categories) :=
    if String.eqb entityType "expense" || String.eqb entityType "income"
       || String.eqb entityType "transfer" then
      match String.eqb operation "create", afterState with
      | true, Some a => (signedAmount a, [es_category a])
      | _, _ =>
        match String.eqb operation "delete", beforeState with
        | true, Some b =>
          ((if String.eqb (es_type b) "income" then (- es_amount b)%float else es_amount b),
           [es_category b])
        | _, _ =>
          match String.eqb operation "update", beforeState, afterState with
          | true, Some b, Some a =>
            ((signedAmount a - signedAmount b)%float,
             if String.eqb (es_category b) (es_category a)
             then [es_category b] else [es_category b; es_category a])
          | _, _, _ => (0%float, [])
          end
        end
      end
    else (0%float, []) in
  {| balanceChange := change;
     affectedCategories := categories;
     affectedBudgets := affectedIds es_budgetId beforeState afterState;
     affectedGoals := affectedIds es_goalId beforeState afterState |}.

(** The delta fields [logStateChange] hands to [StateDelta.createDelta];
    [changes] stands for the result of [calculateChangedFields]. *)
Definition loggedDelta (entityType entityId operation : string)
    (beforeState afterState : option EntityState) (changes : list ChangedField)
    : Delta :=
  {| Ledger.entityType := entityType;
     Ledger.entityId := entityId;
     Ledger.operation := operation;
     Ledger.beforeState := beforeState;
     Ledger.afterState := afterState;
     changedFields := changes;
     financialImpact :=
       calculateFinancialImpact entityType operation beforeState afterState |}.

End EnhancedAuditLogger.

(** ** services/replayEngine.js *)

Module ReplayEngine.
Import Ledger.

(** Field assignments on the state object. *)
Definition set_totals (s : State) (bal inc exp : number) : State :=
  {| totalBalance := bal; totalIncome := inc; totalExpenses := exp;
     categoryBreakdown := categoryBreakdown s; budgets := budgets s;
     goals := goals s; accounts := accounts s;
     transactionCount := transactionCount s; currency := currency s;
     transactions := transactions s |}.

Definition set_categoryBreakdown (s : State) (l : list CategoryEntry) : State :=
  {| totalBalance := totalBalance s; totalIncome := totalIncome s;
     totalExpenses := totalExpenses s;
     categoryBreakdown := l; budgets := budgets s;
     goals := goals s; accounts := accounts s;
     transactionCount := transactionCount s; currency := currency s;
     transactions := transactions s |}.

Definition set_transactionCount (s : State) (n : Z) : State :=
  {| totalBalance := totalBalance s; totalIncome := totalIncome s;
     totalExpenses := totalExpenses s;
     categoryBreakdown := categoryBreakdown s; budgets := budgets s;
     goals := goals s; accounts := accounts s;
     transactionCount := n; currency := currency s;
     transactions := transactions s |}.

Definition set_budgets (s : State) (l : list BudgetEntry) : State :=
  {| totalBalance := totalBalance s; totalIncome := totalIncome s;
     totalExpenses := totalExpenses s;
     categoryBreakdown := categoryBreakdown s; budgets := l;
     goals := goals s; accounts := accounts s;
     transactionCount := transactionCount s; currency := currency s;
     transactions := transactions s |}.

Definition set_goals (s : State) (l : list GoalEntry) : State :=
  {| totalBalance := totalBalance s; totalIncome := totalIncome s;
     totalExpenses := totalExpenses s;
     categoryBreakdown := categoryBreakdown s; budgets := budgets s;
     goals := l; accounts := accounts s;
     transactionCount := transactionCount s; currency := currency s;
     transactions := transactions s |}.

Definition set_transactions (s : State) (l : list Expense) : State :=
  {| totalBalance := totalBalance s; totalIncome := totalIncome s;
     totalExpenses := totalExpenses s;
     categoryBreakdown := categoryBreakdown s; budgets := budgets s;
     goals := goals s; accounts := accounts s;
     transactionCount := transactionCount s; currency := currency s;
     transactions := Some l |}.

(** [arr.findIndex(p)], [None] for -1. *)
Fixpoint findIndex {A : Type} (p : A → bool) (l : list A) : option nat :=
  match l with
  | [] => None
  | x :: xs => if p x then Some 0%nat else S <$> findIndex p xs
  end.

(** The "Update balance" block of [applyDelta]; a [balanceChange] of
    zero or NaN is falsy and skips it. *)
Definition updateBalance (s : State) (delta : Delta) : State :=
  let change := balanceChange (financialImpact delta) in
  if Number.truthy change then
    let balance := (Number.or0 (totalBalance s) + change)%float in
    if (0 <? change)%float then
      set_totals s balance (Number.or0 (totalIncome s) + change)%float (totalExpenses s)
    else
      set_totals s balance (totalIncome s) (Number.or0 (totalExpenses s) + abs change)%float
  else s.

(** The count adjustment of a category entry. *)
Definition countStep (operation : string) : Z :=
  if String.eqb operation "create" then 1
  else if String.eqb operation "delete" then -1
  else 0.

(** [breakdown.find(c => c.category === category)] followed by the
    in-place update of the entry found; [None] when there is none. *)
Fixpoint bumpEntry (name : string) (change : number) (operation : string)
    (l : list CategoryEntry) : option (list CategoryEntry) :=
  match l with
  | [] => None
  | c :: rest =>
    if String.eqb (category c) name then
      Some ({| category := category c;
               amount := (amount c + change)%float;
               cat_transactionCount := cat_transactionCount c + countStep operation |}
            :: rest)
    else (λ r, c :: r) <$> bumpEntry name change operation rest
  end.

(** The same in-place update with the two increments given directly, the
    list being returned as it is when no entry has the name; used to
    reason about [bumpEntry]. *)
Fixpoint adjustEntry (name : string) (da : number) (dc : Z) (l : list CategoryEntry)
    : list CategoryEntry :=
  match l with
  | [] => []
  | c :: rest =>
    if String.eqb (category c) name then
      {| category := category c;
         amount := (amount c + da)%float;
         cat_transactionCount := cat_transactionCount c + dc |} :: rest
    else c :: adjustEntry name da dc rest
  end.

(** The names and the transaction counts of a breakdown, and the count
    adjustment of [adjustEntry] on them; used to reason about what a round
    trip does to the counts apart from the amounts. *)
Definition countsOf (l : list CategoryEntry) : list (string * Z) :=
  map (λ c, (category c, cat_transactionCount c)) l.

Fixpoint adjustCount (name : string) (dc : Z) (l : list (string * Z))
    : list (string * Z) :=
  match l with
  | [] => []
  | c :: rest =>
    if String.eqb (fst c) name then (fst c, snd c + dc) :: rest
    else c :: adjustCount name dc rest
  end.

(** One iteration of the [affectedCategories.forEach] callback. *)
Definition touchCategory (change : number) (operation : string)
    (breakdown : list CategoryEntry) (name : string) : list CategoryEntry :=
  match bumpEntry name change operation breakdown with
  | Some l => l
  | None =>
    if String.eqb operation "create" then
      breakdown ++ [ {| category := name; amount := change; cat_transactionCount := 1 |} ]
    else breakdown
  end.

(** The "Update category breakdown" block. *)
Definition updateCategoryBreakdown (s : State) (delta : Delta) : State :=
  set_categoryBreakdown s
    (fold_left (touchCategory (balanceChange (financialImpact delta)) (operation delta))
               (affectedCategories (financialImpact delta))
               (categoryBreakdown s)).

(** The "Update transaction count" block. *)
Definition updateTransactionCount (s : State) (delta : Delta) : State :=
  if String.eqb (operation delta) "create" then
    set_transactionCount s (transactionCount s + 1)
  else if String.eqb (operation delta) "delete" then
    set_transactionCount s (Z.max 0 (transactionCount s - 1))
  else s.

(** The entry built from an after-state; [afterState.spent || 0]. *)
Definition budgetOf (id : string) (a : EntityState) : BudgetEntry :=
  {| budgetId := id; limit := es_limit a; spent := Number.or0 (es_spent a);
     remaining := (es_limit a - Number.or0 (es_spent a))%float |}.

(** [updateBudgetInState] *)
Definition updateBudgetInState (s : State) (delta : Delta) : State :=
  let budgetIndex :=
    findIndex (λ b, String.eqb (budgetId b) (entityId delta)) (budgets s) in
  match String.eqb (operation delta) "create", afterState delta with
  | true, Some a => set_budgets s (budgets s ++ [budgetOf (entityId delta) a])
  | _, _ =>
    match String.eqb (operation delta) "update", budgetIndex, afterState delta with
    | true, Some i, Some a => set_budgets s (<[i := budgetOf (entityId delta) a]> (budgets s))
    | _, _, _ =>
      match String.eqb (operation delta) "delete", budgetIndex with
      | true, Some i => set_budgets s (delete i (budgets s))
      | _, _ => s
      end
    end
  end.

(** The entry built from an after-state; [afterState.currentAmount || 0]
    and [(current / target) * 100]. *)
Definition goalOf (id : string) (a : EntityState) : GoalEntry :=
  {| goalId := id; targetAmount := es_targetAmount a;
     currentAmount := Number.or0 (es_currentAmount a);
     progress := (Number.or0 (es_currentAmount a) / es_targetAmount a * 100)%float |}.

(** [updateGoalInState] *)
Definition updateGoalInState (s : State) (delta : Delta) : State :=
  let goalIndex :=
    findIndex (λ g, String.eqb (goalId g) (entityId delta)) (goals s) in
  match String.eqb (operation delta) "create", afterState delta with
  | true, Some a => set_goals s (goals s ++ [goalOf (entityId delta) a])
  | _, _ =>
    match String.eqb (operation delta) "update", goalIndex, afterState delta with
    | true, Some i, Some a => set_goals s (<[i := goalOf (entityId delta) a]> (goals s))
    | _, _, _ =>
      match String.eqb (operation delta) "delete", goalIndex with
      | true, Some i => set_goals s (delete i (goals s))
      | _, _ => s
      end
    end
  end.

(** [applyDelta(state, delta)] *)
Definition applyDelta (s : State) (delta : Delta) : State :=
  let s1 := updateBalance s delta in
  let s2 := updateCategoryBreakdown s1 delta in
  let s3 := updateTransactionCount s2 delta in
  let s4 := if String.eqb (entityType delta) "budget"
            then updateBudgetInState s3 delta else s3 in
  let s5 := if String.eqb (entityType delta) "goal"
            then updateGoalInState s4 delta else s4 in
  s5.

(** [applyDeltas(state, deltas)] *)
Definition applyDeltas (s : State) (ds : list StateDelta) : State :=
  fold_left (λ st (d : StateDelta), applyDelta st d) ds s.

(** The zeroed state of [reconstructFromScratch]. *)
Definition emptyState : State :=
  {| totalBalance := 0%float; totalIncome := 0%float; totalExpenses := 0%float;
     categoryBreakdown := []; budgets := []; goals := []; accounts := [];
     transactionCount := 0; currency := "INR"; transactions := None |}.

(** [StateDelta.find({ user, timestamp: { $lte } }).sort({ timestamp: 1 })] *)
Definition deltasUpTo (db : Collections) (userId : string) (targetDate : Z)
    : list StateDelta :=
  sort_by timestamp
    (filter (λ d, user d = userId ∧ timestamp d ≤ targetDate) (deltas db)).

(** [StateDelta.find({ user, timestamp: { $gt, $lte } }).sort({ timestamp: 1 })] *)
Definition deltasBetween (db : Collections) (userId : string) (after targetDate : Z)
    : list StateDelta :=
  sort_by timestamp
    (filter (λ d, user d = userId ∧ after < timestamp d ∧ timestamp d ≤ targetDate)
            (deltas db)).

(** [reconstructFromScratch(userId, targetDate)] *)
Definition reconstructFromScratch (db : Collections) (userId : string)
    (targetDate : Z) : State :=
  applyDeltas emptyState (deltasUpTo db userId targetDate).

(** [findClosestSnapshot(userId, targetDate)] *)
Definition findClosestSnapshot (db : Collections) (userId : string)
    (targetDate : Z) : option AuditSnapshot :=
  head (sort_by_desc snapshotDate
          (filter (λ sn, snap_user sn = userId ∧ snapshotDate sn ≤ targetDate)
                  (snapshots db))).

(** [getTransactionsUpTo(userId, targetDate)] *)
Definition getTransactionsUpTo (db : Collections) (userId : string)
    (targetDate : Z) : list Expense :=
  take 100 (sort_by_desc date
              (filter (λ e, exp_user e = userId ∧ date e ≤ targetDate) (expenses db))).

Record Options : Type := {
  includeTransactions : bool;
  includeMetadata : bool
}.

(** [options = {}]: both flags default to true. *)
Definition defaultOptions : Options :=
  {| includeTransactions := true; includeMetadata := true |}.

(** The [metadata] of a replay result, without the wall-clock
    [reconstructionTime]. *)
Record Metadata : Type := {
  baseSnapshot : option (Z * string);
  deltasApplied : nat;
  reconstructionMethod : string
}.

Record ReplayResult : Type := {
  success : bool;
  targetDate : Z;
  rstate : State;
  metadata : option Metadata
}.

(** [replayToDate(userId, targetDate, options)];
    [JSON.parse(JSON.stringify(x))] copies the snapshot state. *)
Definition replayToDate (db : Collections) (userId : string) (target : Z)
    (options : Options) : ReplayResult :=
  let base := findClosestSnapshot db userId target in
  let '(st, deltaCount) :=
    match base with
    | Some sn =>
      let ds := deltasBetween db userId (snapshotDate sn) target in
      (applyDeltas (state sn) ds, length ds)
    | None => (reconstructFromScratch db userId target, 0%nat)
    end in
  let st' := if includeTransactions options
             then set_transactions st (getTransactionsUpTo db userId target)
             else st in
  {| success := true;
     targetDate := target;
     rstate := st';
     metadata :=
       if includeMetadata options then
         Some {| baseSnapshot := (λ sn, (snapshotDate sn, snapshotType sn)) <$> base;
                 deltasApplied := deltaCount;
                 reconstructionMethod :=
                   if base is Some _ then "snapshot+deltas" else "from-scratch" |}
       else None |}.

Record Sample : Type := {
  sample_date : Z;
  sample_balance : number;
  income : number;
  sample_expenses : number
}.

(** The options [getStateEvolution] replays with. *)
Definition bareOptions : Options :=
  {| includeTransactions := false; includeMetadata := false |}.

(** The object pushed for one sampled date. *)
Definition sampleOf (current : Z) (r : ReplayResult) : Sample :=
  {| sample_date := current;
     sample_balance := totalBalance (rstate r);
     income := totalIncome (rstate r);
     sample_expenses := totalExpenses (rstate r) |}.

(** The milliseconds of one day (msPerDay of ECMA-262). *)
Definition day : Z := 86400000.

Section Host.

(** [LocalTZA(t, isUTC)] of ECMA-262, the offset of the time zone of the
    host in milliseconds: the offset in effect at the instant [t] when
    [isUTC], and the one by which the local time value [t] is read
    otherwise. *)
Variable localTZA : Z → bool → Z.

(** [d.setMonth(d.getMonth() + 1)], calendar arithmetic of the host. *)
Variable addMonth : Z → Z.

(** [LocalTime(t)] and [UTC(t)] of ECMA-262. *)
Definition localTime (t : Z) : Z := t + localTZA t true.
Definition utc (t : Z) : Z := t - localTZA t false.

(** [d.setDate(d.getDate() + n)]: the local calendar date moves by [n]
    days and the local time of day stays ([MakeDay], [MakeDate] and [UTC]
    of ECMA-262). *)
Definition addDays (n : Z) (t : Z) : Z := utc (localTime t + n * day).

(** The host keeps the offset [off] from the instant [lo] to the instant
    [hi]: no clock change falls in between. *)
Definition fixedOffset (off lo hi : Z) : Prop :=
  ∀ (t : Z) (isUTC : bool),
    lo ≤ (if isUTC then t else t - off) ≤ hi → localTZA t isUTC = off.

(** The [while (current <= end)] loop of [getStateEvolution]; [None]
    when [fuel] iterations do not reach the end. *)
Fixpoint evolutionLoop (fuel : nat) (db : Collections) (userId : string)
    (current endDate : Z) (interval : string) (evolution : list Sample)
    : option (list Sample) :=
  match fuel with
  | O => None
  | S fuel' =>
    if current <=? endDate then
      let r := replayToDate db userId current bareOptions in
      let evolution' := evolution ++ [sampleOf current r] in
      let current' :=
        if String.eqb interval "daily" then addDays 1 current
        else if String.eqb interval "weekly" then addDays 7 current
        else if String.eqb interval "monthly" then addMonth current
        else current in
      evolutionLoop fuel' db userId current' endDate interval evolution'
    else Some evolution
  end.

(** [getStateEvolution(userId, startDate, endDate, interval)] *)
Definition getStateEvolution (fuel : nat) (db : Collections) (userId : string)
    (startDate endDate : Z) (interval : string) : option (list Sample) :=
  evolutionLoop fuel db userId startDate endDate interval [].

End Host.

End ReplayEngine.


(** ** Writers of the two ledgers *)

Module Writers.
Import Ledger.

(** [EnhancedAuditLogger.logStateChange]: the delta is stamped with
    [new Date()] (here [now]) and inserted. *)
Definition logStateChange (now : Z) (db : Collections) (userId : string)
    (entityType entityId operation : string)
    (beforeState afterState : option EntityState) (changes : list ChangedField)
    : Collections :=
  {| deltas := deltas db ++
       [ {| user := userId; timestamp := now;
            body := EnhancedAuditLogger.loggedDelta entityType entityId operation
                      beforeState afterState changes |} ];
     snapshots := snapshots db;
     expenses := expenses db |}.

(** [auditSnapshotSchema.statics.createSnapshot]: the snapshot is dated
    with [new Date()] (here [now]) and inserted. *)
Definition createSnapshot (now : Z) (db : Collections) (userId : string)
    (st : State) (type : string) : Collections :=
  {| deltas := deltas db;
     snapshots := snapshots db ++
       [ {| snap_user := userId; snapshotDate := now; snapshotType := type;
            state := st |} ];
     expenses := expenses db |}.


(** [SnapshotGenerator.generateWeeklySnapshot]: the state is replayed to
    the first [new Date()] ([replayedAt]); the snapshot is dated with the
    second one ([storedAt]). *)
Definition generateWeeklySnapshot (replayedAt storedAt : Z) (db : Collections)
    (userId : string) : Collections :=
  createSnapshot storedAt db userId
    (ReplayEngine.rstate
       (ReplayEngine.replayToDate db userId replayedAt ReplayEngine.bareOptions))
    "weekly".






End Writers.

(** ** models/StateDelta.js: range query *)

Module StateDeltaQueries.
Import Ledger.

(** [stateDeltaSchema.statics.getDeltasBetween]: both bounds inclusive. *)
Definition getDeltasBetween (db : Collections) (userId : string)
    (startDate endDate : Z) : list StateDelta :=
  sort_by timestamp
    (filter (λ d, user d = userId ∧ startDate ≤ timestamp d ∧ timestamp d ≤ endDate)
            (deltas db)).

End StateDeltaQueries.

(** ** services/replayEngine.js: comparing two dates *)

Module StateComparison.





End StateComparison.

(** ** jobs/snapshotGenerator.js *)

Module SnapshotGenerator.
Import Ledger.

(** [n * 24 * 60 * 60 * 1000] *)
Definition daysMs (n : Z) : Z := n * 24 * 60 * 60 * 1000.

(** [AuditSnapshot.deleteMany({ snapshotType, snapshotDate: { $lt } })] *)
Definition deleteMany (type : string) (before : Z) (l : list AuditSnapshot)
    : list AuditSnapshot :=
  filter (λ sn, ¬ (snapshotType sn = type ∧ snapshotDate sn < before)) l.

(** [cleanupOldSnapshots()], [now] being its [new Date()]. *)
Definition cleanupOldSnapshots (now : Z) (db : Collections) : Collections :=
  {| deltas := deltas db;
     snapshots :=
       deleteMany "monthly" (now - daysMs 365)
         (deleteMany "weekly" (now - daysMs 90)
            (deleteMany "daily" (now - daysMs 30) (snapshots db)));
     expenses := expenses db |}.

(** [generateUserSnapshot(userId)]: the state is replayed to the first
    [new Date()] ([replayedAt]); [today] is the local midnight the existing
    daily snapshot is looked for from; the snapshot is dated with the
    [new Date()] of [createSnapshot] ([storedAt]).  The generation metadata
    and the compression flags set afterwards are not part of the snapshot
    record kept here. *)
Definition generateUserSnapshot (replayedAt today storedAt : Z) (db : Collections)
    (userId : string) : Collections :=
  let currentState :=
    ReplayEngine.replayToDate db userId replayedAt ReplayEngine.bareOptions in
  if bool_decide (Exists (λ sn, snap_user sn = userId ∧ today ≤ snapshotDate sn
                                ∧ snapshotType sn = "daily") (snapshots db))
  then db
  else Writers.createSnapshot storedAt db userId (ReplayEngine.rstate currentState) "daily".

End SnapshotGenerator.

(** ** EnhancedAuditLogger.calculateChangedFields *)

Module ChangedFields.
Import Ledger.

(** A plain object: its own keys with their values, in key order. *)
Abbreviation obj := (list (string * value)).

(** [o[key]], undefined when the key is absent. *)
Definition get (o : obj) (key : string) : option value :=
  snd <$> find (λ kv, String.eqb (fst kv) key) o.

(** The iteration order of [new Set(keys)]: each key once, at its first
    occurrence. *)
Fixpoint uniq (seen keys : list string) : list string :=
  match keys with
  | [] => []
  | k :: rest =>
    if bool_decide (k ∈ seen) then uniq seen rest else k :: uniq (k :: seen) rest
  end.

Definition allKeys (beforeState afterState : obj) : list string :=
  uniq [] (map fst beforeState ++ map fst afterState).

(** The keys the loop skips: [key.startsWith('_') || key === '__v']. *)
Definition internalKey (key : string) : bool :=
  String.prefix "_" key || String.eqb key "__v".

Section Changes.

(** [JSON.stringify] of a field value ([None] for undefined). *)
Variable stringify : option value → option string.

(** [EnhancedAuditLogger.calculateChangedFields] *)
Definition calculateChangedFields (beforeState afterState : option obj)
    : list ChangedField :=
  match beforeState, afterState with
  | Some b, Some a =>
    flat_map
      (λ key,
         if internalKey key then []
         else
           let old := get b key in
           let new := get a key in
           if bool_decide (stringify old ≠ stringify new)
           then [ {| field := key; oldValue := old; newValue := new |} ]
           else [])
      (allKeys b a)
  | _, _ => []
  end.

End Changes.

End ChangedFields.

(** ** services/consensusEngine.js: the two halves of a resolution *)

Module Resolution.
Import ConsensusEngine.

(** The [switch (strategy)] of [resolveConflict]: the state to apply, or
    [None] for the [default] branch. *)
Definition finalDataOf (strategy : string) (conflict : SyncConflict)
    (resolvedData : doc) : option doc :=
  if String.eqb strategy "client_wins" then Some (clientState conflict)
  else if String.eqb strategy "server_wins" then Some (serverState conflict)
  else if String.eqb strategy "merge" then Some (resolvedData ∪ serverState conflict)
  else None.

(** The assignments made on the transaction: [tx.set(finalData)], the
    sync status, the conflict counter and the server counter. *)
Definition resolvedRecord (finalData tx : doc) : doc :=
  let tx1 := doc_set finalData tx in
  let tx2 := <["syncMetadata.syncStatus" := VStr "synced"]> tx1 in
  let tx3 := <["syncMetadata.conflictsCount" :=
                decremented (tx2 !! "syncMetadata.conflictsCount")]> tx2 in
  let vc := vectorClock_of tx3 in
  <["vectorClock" := VClock (<["server" := (VectorClock.counter vc "server" + 1)%nat]> vc)]> tx3.

(** The paths a resolution always writes itself. *)
Definition reservedPath (path : string) : Prop :=
  path = "syncMetadata.syncStatus" ∨ path = "syncMetadata.conflictsCount"
  ∨ path = "vectorClock".

End Resolution.

(** ** The order of events on the two ledgers *)

Module History.
Import Ledger Writers SnapshotGenerator.



End History.

(** ** Notions used to reason about binary64 numbers *)

Module Binary64.

(** The order of two positive binary64 numbers given by mantissa and
    exponent in canonical form: by exponent, then by mantissa. *)
Definition lexle (ma : positive) (ea : Z) (m : positive) (e : Z) : Prop :=
  ea < e ∨ (ea = e ∧ (ma <= m)%positive).

(** [r] is a positive number, or infinity, not below the positive number
    of mantissa [ma] and exponent [ea]. *)
Definition atLeast (ma : positive) (ea : Z) (r : spec_float) : Prop :=
  match r with
  | S754_finite false m e => lexle ma ea m e
  | S754_infinity false => True
  | _ => False
  end.

(** A key that orders the binary64 numbers other than NaN. *)
Definition key (f : spec_float) : Z * Z * Z :=
  match f with
  | S754_infinity true => (-2, 0, 0)
  | S754_finite true m e => (-1, - e, Zneg m)
  | S754_zero _ | S754_nan => (0, 0, 0)
  | S754_finite false m e => (1, e, Zpos m)
  | S754_infinity false => (2, 0, 0)
  end.

Definition keyle (a b : Z * Z * Z) : Prop :=
  a.1.1 < b.1.1 ∨ (a.1.1 = b.1.1 ∧ (a.1.2 < b.1.2 ∨ (a.1.2 = b.1.2 ∧ a.2 ≤ b.2))).

Definition isNumber (f : spec_float) : Prop := f ≠ S754_nan.

End Binary64.

(** ** Concrete data for the scenarios of the specification *)

Module Scenario.
Import ConsensusEngine.

(** A content hash that reads the amount of the payload. *)
Definition hash0 (d : doc) : string :=
  match d !! "amount" with
  | Some (VNum 500) => "amount-500"
  | Some (VNum 700) => "amount-700"
  | _ => "other"
  end.

(** The stored record: server clock [{server: 2}], checksum of amount 500. *)
Definition tx0 : doc :=
  <["_id" := VStr "t1"]> (<["user" := VStr "u1"]> (<["amount" := VNum 500]>
  (<["category" := VStr "food"]> (<["vectorClock" := VClock {[ "server" := 2%nat ]}]>
  (<["syncMetadata.checksum" := VStr "amount-500"]>
  (<["syncMetadata.syncStatus" := VStr "synced"]>
  (<["syncMetadata.conflictsCount" := VNum 0]> ∅))))))).

Definition clientEdit : doc := {[ "amount" := VNum 700 ]}.
Definition clientResend : doc := {[ "amount" := VNum 500 ]}.

Definition clockBehind : clock := {[ "server" := 1%nat ]}.
Definition clockEqual : clock := {[ "server" := 2%nat ]}.
Definition clockAhead : clock := <["C" := 1%nat]> {[ "server" := 3%nat ]}.
Definition clockConcurrent : clock := <["C" := 1%nat]> {[ "server" := 1%nat ]}.

Definition st0 : Store :=
  {| transactions := {[ "t1" := tx0 ]}; conflicts := [] |}.

(** The record after its conflict has been resolved once in favour of the
    client, and the store holding that conflict, resolved at time 1000. *)
Definition txResolved : doc :=
  <["vectorClock" := VClock {[ "server" := 3%nat ]}]>
    (<["syncMetadata.syncStatus" := VStr "synced"]>
       (<["syncMetadata.conflictsCount" := VNum 0]> (<["amount" := VNum 700]> tx0))).

Definition resolvedConflict : SyncConflict :=
  {| transactionId := Some (VStr "t1");
     userId := Some (VStr "u1");
     serverState := tx0;
     clientState := clientEdit;
     vectorClocks_server := {[ "server" := 2%nat ]};
     vectorClocks_client := clockConcurrent;
     checksum := "amount-700";
     status := "resolved";
     resolutionStrategy := Some "client_wins";
     resolvedAt := Some 1000 |}.

Definition stResolved : Store :=
  {| transactions := {[ "t1" := txResolved ]}; conflicts := [resolvedConflict] |}.

(** The same record with two conflicts counted, and the same record
    without a conflict counter. *)
Definition txTwice : doc := <["syncMetadata.conflictsCount" := VNum 2]> tx0.
Definition txUncounted : doc := delete "syncMetadata.conflictsCount" tx0.

(** A database that accepts every write, and one that accepts the
    transaction and rejects the conflict. *)
Definition acceptAll : Saves :=
  {| saveTransaction := λ _, None; saveConflict := λ _, None |}.

(** A month of 30 days. *)
Definition month30 (d : Z) : Z := d + 30 * ReplayEngine.day.

(** Two hosts: one in India (UTC+5:30 all year), one in New York in the
    autumn of 2026, where the clocks go back from UTC-4 to UTC-5 on
    1 November at 06:00 UTC; a local time that occurs twice is read with
    the earlier offset. *)
Definition hour : Z := 3600000.
Definition kolkata (t : Z) (isUTC : bool) : Z := 19800000.
Definition clocksGoBack : Z := 1793512800000.
Definition newYork (t : Z) (isUTC : bool) : Z :=
  if isUTC then (if t <? clocksGoBack then -4 * hour else -5 * hour)
  else (if t <? clocksGoBack - 4 * hour then -4 * hour else -5 * hour).

(** 31 October 2026, 16:00 UTC (noon in New York). *)
Definition halloweenNoon : Z := 1793462400000.

(** A 500 expense on food. *)
Definition expense500 : Ledger.EntityState :=
  {| Ledger.es_type := "expense"; Ledger.es_amount := 500%float;
     Ledger.es_category := "food"; Ledger.es_budgetId := None;
     Ledger.es_goalId := None; Ledger.es_limit := 0%float; Ledger.es_spent := 0%float;
     Ledger.es_targetAmount := 0%float; Ledger.es_currentAmount := 0%float |}.

(** An income of 1.01, an expense of 19.99, an income of 0.1 and one of
    0.2, an income of 2^53 and an expense of 1. *)
Definition entry (type : string) (amount : number) (category : string)
    : Ledger.EntityState :=
  {| Ledger.es_type := type; Ledger.es_amount := amount;
     Ledger.es_category := category; Ledger.es_budgetId := None;
     Ledger.es_goalId := None; Ledger.es_limit := 0%float; Ledger.es_spent := 0%float;
     Ledger.es_targetAmount := 0%float; Ledger.es_currentAmount := 0%float |}.

Definition created (id : string) (e : Ledger.EntityState) : Ledger.Delta :=
  EnhancedAuditLogger.loggedDelta (Ledger.es_type e) id "create" None (Some e) [].

Definition deleted (id : string) (e : Ledger.EntityState) : Ledger.Delta :=
  EnhancedAuditLogger.loggedDelta (Ledger.es_type e) id "delete" (Some e) None [].

Definition income101 := entry "income" 1.01%float "salary".
Definition expense1999 := entry "expense" 19.99%float "food".
Definition income01 := entry "income" 0.1%float "salary".
Definition income02 := entry "income" 0.2%float "salary".
Definition incomeHuge := entry "income" 9007199254740992%float "salary".
Definition expense1 := entry "expense" 1%float "food".

Definition created500 : Ledger.Delta :=
  EnhancedAuditLogger.loggedDelta "expense" "e1" "create" None (Some expense500) [].

Definition deleted500 : Ledger.Delta :=
  EnhancedAuditLogger.loggedDelta "expense" "e1" "delete" (Some expense500) None [].

(** A ledger built by the writers: the expense is created at time 100, a
    snapshot is generated at time 200, the expense is deleted at 300. *)
Definition emptyDb : Ledger.Collections :=
  {| Ledger.deltas := []; Ledger.snapshots := []; Ledger.expenses := [] |}.

Definition db1 : Ledger.Collections :=
  Writers.logStateChange 100 emptyDb "u1" "expense" "e1" "create"
    None (Some expense500) [].

Definition db2 : Ledger.Collections :=
  Writers.generateWeeklySnapshot 200 200 db1 "u1".

Definition db3 : Ledger.Collections :=
  Writers.logStateChange 300 db2 "u1" "expense" "e1" "delete"
    (Some expense500) None [].



End Scenario.


(** ** Further concrete data *)

Module Cases.

(** A budget of 1000 with 200 spent, and the deltas that create, update
    and delete it. *)
Definition budgetState : Ledger.EntityState :=
  {| Ledger.es_type := ""; Ledger.es_amount := 0%float; Ledger.es_category := "";
     Ledger.es_budgetId := None; Ledger.es_goalId := None;
     Ledger.es_limit := 1000%float; Ledger.es_spent := 200%float;
     Ledger.es_targetAmount := 0%float; Ledger.es_currentAmount := 0%float |}.

Definition budgetCreate : Ledger.Delta :=
  EnhancedAuditLogger.loggedDelta "budget" "b1" "create" None (Some budgetState) [].

Definition budgetUpdate : Ledger.Delta :=
  EnhancedAuditLogger.loggedDelta "budget" "b1" "update"
    (Some budgetState) (Some budgetState) [].

Definition budgetDelete : Ledger.Delta :=
  EnhancedAuditLogger.loggedDelta "budget" "b1" "delete" (Some budgetState) None [].

(** A second budget, and the state that holds both budgets. *)
Definition budgetCreate2 : Ledger.Delta :=
  EnhancedAuditLogger.loggedDelta "budget" "b2" "create" None (Some budgetState) [].

Definition twoBudgets : Ledger.State :=
  ReplayEngine.applyDelta (ReplayEngine.applyDelta ReplayEngine.emptyState budgetCreate)
    budgetCreate2.


End Cases.

(** * Properties *)

(** ** Vector clocks *)

Section ClockFacts.
Import VectorClock.

(** Searching the actors of both clocks finds a strictly larger counter
    exactly when some actor has one. *)
Lemma exists_larger (a b : clock) :
  existsb (λ k, Nat.ltb (counter b k) (counter a k)) (actors a b) = true
  ↔ ∃ k, (counter b k < counter a k)%nat.
Proof.
  rewrite existsb_exists. split.
  - intros (k & _ & Hk). exists k. by apply Nat.ltb_lt.
  - intros (k & Hk). exists k. split; [| by apply Nat.ltb_lt].
    apply list_elem_of_In, elem_of_elements, elem_of_union. left.
    apply elem_of_dom. unfold counter in Hk.
    destruct (a !! k); [by eexists | simpl in Hk; lia].
Qed.

Lemma compare_cases (a b : clock) :
  let gt := existsb (λ k, Nat.ltb (counter b k) (counter a k)) (actors a b) in
  let lt := existsb (λ k, Nat.ltb (counter a k) (counter b k)) (actors b a) in
  compare a b = if gt && lt then concurrent
                else if gt then greater else if lt then less else equal.
Proof.
  unfold compare, actors. by rewrite (union_comm_L (dom b) (dom a)).
Qed.

Lemma no_larger (a b : clock) :
  existsb (λ k, Nat.ltb (counter b k) (counter a k)) (actors a b) = false
  ↔ ∀ k, (counter a k ≤ counter b k)%nat.
Proof.
  rewrite <- not_true_iff_false, exists_larger. split.
  - intros H k. destruct (decide (counter a k ≤ counter b k)%nat); [done |].
    exfalso. apply H. exists k. lia.
  - intros H (k & Hk). specialize (H k). lia.
Qed.

(** [compare] says [less] exactly for a clock that is causally behind. *)
Lemma compare_less_iff (a b : clock) :
  compare a b = less
  ↔ (∀ k, (counter a k ≤ counter b k)%nat) ∧ ∃ k, (counter a k < counter b k)%nat.
Proof.
  rewrite compare_cases. cbv zeta.
  destruct (existsb _ (actors a b)) eqn:Eg, (existsb _ (actors b a)) eqn:El; simpl.
  - split; [discriminate |]. intros [H _].
    apply exists_larger in Eg as (k & Hk). specialize (H k). lia.
  - split; [discriminate |]. intros [H _].
    apply exists_larger in Eg as (k & Hk). specialize (H k). lia.
  - split; [intros _ | done]. split; [by apply no_larger | by apply exists_larger].
  - split; [discriminate |]. intros [_ (k & Hk)].
    pose proof (proj1 (no_larger b a) El k). lia.
Qed.

(** [compare] says [greater] exactly for a clock that strictly dominates. *)
Lemma compare_greater_iff (a b : clock) :
  compare a b = greater
  ↔ (∀ k, (counter b k ≤ counter a k)%nat) ∧ ∃ k, (counter b k < counter a k)%nat.
Proof.
  rewrite compare_cases. cbv zeta.
  destruct (existsb _ (actors a b)) eqn:Eg, (existsb _ (actors b a)) eqn:El; simpl.
  - split; [discriminate |]. intros [H _].
    apply exists_larger in El as (k & Hk). specialize (H k). lia.
  - split; [intros _ | done]. split; [by apply no_larger | by apply exists_larger].
  - split; [discriminate |]. intros [H _].
    apply exists_larger in El as (k & Hk). specialize (H k). lia.
  - split; [discriminate |]. intros [_ (k & Hk)].
    pose proof (proj1 (no_larger a b) Eg k). lia.
Qed.

Lemma compare_equal_iff (a b : clock) :
  compare a b = equal ↔ ∀ k, counter a k = counter b k.
Proof.
  rewrite compare_cases. cbv zeta.
  destruct (existsb _ (actors a b)) eqn:Eg, (existsb _ (actors b a)) eqn:El; simpl.
  - split; [discriminate |]. intros H.
    apply exists_larger in Eg as (k & Hk). specialize (H k). lia.
  - split; [discriminate |]. intros H.
    apply exists_larger in Eg as (k & Hk). specialize (H k). lia.
  - split; [discriminate |]. intros H.
    apply exists_larger in El as (k & Hk). specialize (H k). lia.
  - split; [intros _ | done]. intros k.
    pose proof (proj1 (no_larger a b) Eg k).
    pose proof (proj1 (no_larger b a) El k). lia.
Qed.

Lemma compare_concurrent_iff (a b : clock) :
  compare a b = concurrent
  ↔ (∃ k, (counter b k < counter a k)%nat) ∧ ∃ k, (counter a k < counter b k)%nat.
Proof.
  rewrite compare_cases. cbv zeta.
  destruct (existsb _ (actors a b)) eqn:Eg, (existsb _ (actors b a)) eqn:El; simpl.
  - split; [intros _ | done]. split; by apply exists_larger.
  - split; [discriminate |]. intros [_ H].
    apply exists_larger in H. congruence.
  - split; [discriminate |]. intros [H _].
    apply exists_larger in H. congruence.
  - split; [discriminate |]. intros [H _].
    apply exists_larger in H. congruence.
Qed.

End ClockFacts.

(** ** The consensus engine *)

Section ReconcileFacts.
Import VectorClock ConsensusEngine.

Variable hash : doc → string.

(** The dispatch of [reconcile] on the outcome of the clock comparison. *)
Lemma reconcile_unfold st tx cu cc dev :
  reconcile hash st tx cu cc dev =
  reconcile_relation hash (label (compare cc (vectorClock_of tx))) st tx cu
    (vectorClock_of tx) cc.
Proof. reflexivity. Qed.

(** A relation string outside the four known ones falls through to the
    defensive branch. *)
Lemma reconcile_relation_unknown r st tx cu sc cc :
  r ≠ "smaller" → r ≠ "greater" → r ≠ "concurrent" → r ≠ "equal" →
  reconcile_relation hash r st tx cu sc cc = (st, ignore "unknown_relation").
Proof.
  intros H1 H2 H3 H4. unfold reconcile_relation.
  apply String.eqb_neq in H1, H2, H3, H4.
  by rewrite H1, H2, H3, H4.
Qed.

(** C7: a client clock that compares as causally behind the server clock
    makes [reconcile] answer [ignore] / [stale_update]; the collections are
    returned as they were and no data to persist is produced. *)
Theorem reconcile_stale_ignored st tx cu cc dev :
  compare cc (vectorClock_of tx) = less →
  reconcile hash st tx cu cc dev =
    (st, {| action := "ignore"; reason := Some "stale_update"; data := None |}).
Proof. intros H. rewrite reconcile_unfold, H. reflexivity. Qed.

(** C8: equal clocks and a client content hash equal to the stored checksum
    make [reconcile] answer [ignore] / [redundant_update], and the conflict
    collection is left as it was. *)
Theorem reconcile_redundant_ignored st tx cu cc dev :
  compare cc (vectorClock_of tx) = equal →
  tx !! "syncMetadata.checksum" = Some (VStr (hash cu)) →
  reconcile hash st tx cu cc dev =
    (st, {| action := "ignore"; reason := Some "redundant_update"; data := None |})
  ∧ conflicts (reconcile hash st tx cu cc dev).1 = conflicts st.
Proof.
  intros H Hsum.
  assert (reconcile hash st tx cu cc dev =
    (st, {| action := "ignore"; reason := Some "redundant_update"; data := None |})) as E.
  { rewrite reconcile_unfold, H. unfold reconcile_relation. simpl.
    by rewrite bool_decide_eq_true_2. }
  by rewrite E.
Qed.

(** The counters of a merged clock are the pointwise maxima. *)
Lemma counter_merge (a b : clock) k :
  counter (merge a b) k = Nat.max (counter a k) (counter b k).
Proof.
  unfold counter, merge. rewrite lookup_union_with.
  destruct (a !! k), (b !! k); simpl; lia.
Qed.

(** [increment] adds one to the named actor and leaves the others. *)
Lemma counter_increment (c : clock) actor k :
  counter (increment c actor) k =
  if decide (k = actor) then S (counter c k) else counter c k.
Proof.
  unfold increment. case_decide as E.
  - subst. unfold counter at 1. by rewrite lookup_insert_eq.
  - unfold counter at 1. rewrite lookup_insert_ne by done. reflexivity.
Qed.

(** C2: when the client clock strictly dominates the server clock,
    [reconcile] answers [update]; the data to persist is the client payload
    with [vectorClock] set to the merge of both clocks (pointwise maximum)
    after the ["server"] counter has been incremented by one, and with
    [syncMetadata.checksum] set to the content hash of the client payload.
    The collections are returned as they were. *)
Theorem reconcile_update_clock st tx cu cc dev :
  compare cc (vectorClock_of tx) = greater →
  let sc := vectorClock_of tx in
  let final := increment (merge sc cc) "server" in
  let d : doc := <["syncMetadata.checksum" := VStr (hash cu)]>
                   (<["vectorClock" := VClock final]> cu) in
  reconcile hash st tx cu cc dev =
    (st, {| action := "update"; reason := None; data := Some d |})
  ∧ d !! "vectorClock" = Some (VClock final)
  ∧ d !! "syncMetadata.checksum" = Some (VStr (hash cu))
  ∧ (∀ path, path ≠ "vectorClock" → path ≠ "syncMetadata.checksum" →
       d !! path = cu !! path)
  ∧ (∀ actor, counter (merge sc cc) actor = Nat.max (counter sc actor) (counter cc actor))
  ∧ counter final "server" = S (Nat.max (counter sc "server") (counter cc "server"))
  ∧ (∀ actor, actor ≠ "server" →
       counter final actor = Nat.max (counter sc actor) (counter cc actor)).
Proof.
  intros H sc final d. split_and!.
  - rewrite reconcile_unfold, H. reflexivity.
  - subst d. rewrite lookup_insert_ne by done. by rewrite lookup_insert_eq.
  - subst d. by rewrite lookup_insert_eq.
  - intros path H1 H2. subst d. by rewrite !lookup_insert_ne.
  - intros actor. apply counter_merge.
  - subst final. rewrite counter_increment, counter_merge.
    by rewrite decide_True.
  - intros actor Hne. subst final. rewrite counter_increment, counter_merge.
    by rewrite decide_False.
Qed.

(** C1: when the clocks are concurrent, or equal while the client content
    hash differs from the stored checksum, [reconcile] appends one
    ConflictEntry holding the whole server document, the whole client
    payload, both vector clocks and the client hash, and answers [conflict]
    with data that sets the sync status to [conflict] and the conflict
    counter to its old value plus one: a record that counts [n] conflicts
    gets [n + 1], and a record without a counter gets 1.  The data names
    no other path, so persisting it leaves every other field of the record
    as it was, and the transactions collection is not touched. *)
Theorem reconcile_conflict_recorded st tx cu cc dev :
  compare cc (vectorClock_of tx) = concurrent
  ∨ (compare cc (vectorClock_of tx) = equal
     ∧ tx !! "syncMetadata.checksum" ≠ Some (VStr (hash cu))) →
  let entry :=
    {| transactionId := tx !! "_id";
       userId := tx !! "user";
       serverState := tx;
       clientState := cu;
       vectorClocks_server := vectorClock_of tx;
       vectorClocks_client := cc;
       checksum := hash cu;
       status := "open";
       resolutionStrategy := None;
       resolvedAt := None |} in
  let d : doc :=
    <["syncMetadata.conflictsCount" :=
        VNum (num_or_0 (tx !! "syncMetadata.conflictsCount") + 1)]>
      {[ "syncMetadata.syncStatus" := VStr "conflict" ]} in
  reconcile hash st tx cu cc dev =
    ({| transactions := transactions st; conflicts := conflicts st ++ [entry] |},
     {| action := "conflict"; reason := None; data := Some d |})
  ∧ d !! "syncMetadata.syncStatus" = Some (VStr "conflict")
  ∧ d !! "syncMetadata.conflictsCount" =
      Some (VNum (num_or_0 (tx !! "syncMetadata.conflictsCount") + 1))
  ∧ (∀ n, tx !! "syncMetadata.conflictsCount" = Some (VNum n) →
       d !! "syncMetadata.conflictsCount" = Some (VNum (n + 1)))
  ∧ (tx !! "syncMetadata.conflictsCount" = None
     ∨ tx !! "syncMetadata.conflictsCount" = Some VNull
     ∨ tx !! "syncMetadata.conflictsCount" = Some VNaN →
       d !! "syncMetadata.conflictsCount" = Some (VNum 1))
  ∧ (∀ path, path ≠ "syncMetadata.syncStatus" → path ≠ "syncMetadata.conflictsCount" →
       d !! path = None ∧ doc_set d tx !! path = tx !! path).
Proof.
  intros H entry d. split_and!.
  - rewrite reconcile_unfold. destruct H as [H | [H Hsum]]; rewrite H.
    + reflexivity.
    + unfold reconcile_relation. simpl. by rewrite bool_decide_eq_false_2.
  - subst d. rewrite lookup_insert_ne by done. by rewrite lookup_singleton_eq.
  - subst d. by rewrite lookup_insert_eq.
  - intros n Hn. subst d. by rewrite lookup_insert_eq, Hn.
  - intros Hn. subst d. rewrite lookup_insert_eq.
    by destruct Hn as [-> | [-> | ->]].
  - intros path H1 H2.
    assert (d !! path = None) as E.
    { subst d. rewrite lookup_insert_ne by done. by rewrite lookup_singleton_ne. }
    split; [exact E |]. unfold doc_set. by rewrite lookup_union_r.
Qed.

(** The answer of [reconcile] is a function of the server document, the
    client payload and the client clock alone. *)
Lemma reconcile_result_independent st st' tx cu cc dev dev' :
  (reconcile hash st tx cu cc dev).2 = (reconcile hash st' tx cu cc dev').2.
Proof.
  rewrite !reconcile_unfold. unfold reconcile_relation.
  repeat (case_match; try reflexivity).
Qed.

(** C6 (amended): the answer of [reconcile] is determined by the server
    document, the client payload and the client clock: two calls with these
    inputs return the same answer, whatever the stored conflicts and the
    device.  A call that answers [conflict] appends a ConflictEntry without
    looking for an existing one, so repeating the identical call leaves two
    identical entries. *)
Theorem reconcile_repeat_appends st st' tx cu cc dev dev' :
  (reconcile hash st tx cu cc dev).2 = (reconcile hash st' tx cu cc dev').2
  ∧ (action (reconcile hash st tx cu cc dev).2 = "conflict" →
     let st1 := (reconcile hash st tx cu cc dev).1 in
     ∃ entry, conflicts st1 = conflicts st ++ [entry]
            ∧ conflicts (reconcile hash st1 tx cu cc dev).1
              = conflicts st ++ [entry; entry]).
Proof.
  split; [apply reconcile_result_independent |].
  cbv zeta. rewrite !reconcile_unfold. unfold reconcile_relation.
  repeat (case_match; simpl; try discriminate); intros _;
    (eexists; split; [reflexivity |]; by rewrite <- app_assoc).
Qed.

End ReconcileFacts.

(** Scenario of C7: server clock [{server: 2}], client clock [{server: 1}]. *)
Lemma reconcile_stale_ignored_witness :
  VectorClock.compare Scenario.clockBehind (ConsensusEngine.vectorClock_of Scenario.tx0)
    = VectorClock.less
  ∧ ConsensusEngine.reconcile Scenario.hash0 Scenario.st0 Scenario.tx0 Scenario.clientEdit
      Scenario.clockBehind "phone"
    = (Scenario.st0,
       {| ConsensusEngine.action := "ignore";
          ConsensusEngine.reason := Some "stale_update";
          ConsensusEngine.data := None |}).
Proof.
  split; [vm_compute; reflexivity |].
  apply reconcile_stale_ignored. vm_compute. reflexivity.
Defined.

(** Scenario of C8: server clock [{server: 2}], client clock [{server: 2}],
    same content hash. *)
Lemma reconcile_redundant_ignored_witness :
  ConsensusEngine.reconcile Scenario.hash0 Scenario.st0 Scenario.tx0 Scenario.clientResend
      Scenario.clockEqual "phone"
    = (Scenario.st0,
       {| ConsensusEngine.action := "ignore";
          ConsensusEngine.reason := Some "redundant_update";
          ConsensusEngine.data := None |})
  ∧ ConsensusEngine.conflicts
      (ConsensusEngine.reconcile Scenario.hash0 Scenario.st0 Scenario.tx0
         Scenario.clientResend Scenario.clockEqual "phone").1 = [].
Proof.
  apply (reconcile_redundant_ignored Scenario.hash0 Scenario.st0 Scenario.tx0
           Scenario.clientResend Scenario.clockEqual "phone");
    vm_compute; reflexivity.
Defined.

(** Scenario of C2: server clock [{server: 2}], client clock
    [{server: 3, C: 1}]: merged [{server: 3, C: 1}], persisted
    [{server: 4, C: 1}]. *)
Lemma reconcile_update_clock_witness :
  VectorClock.compare Scenario.clockAhead {[ "server" := 2%nat ]} = VectorClock.greater
  ∧ VectorClock.merge {[ "server" := 2%nat ]} Scenario.clockAhead
    = <["C" := 1%nat]> {[ "server" := 3%nat ]}
  ∧ VectorClock.increment (VectorClock.merge {[ "server" := 2%nat ]} Scenario.clockAhead) "server"
    = <["C" := 1%nat]> {[ "server" := 4%nat ]}
  ∧ ConsensusEngine.reconcile Scenario.hash0 Scenario.st0 Scenario.tx0 Scenario.clientEdit
      Scenario.clockAhead "phone"
    = (Scenario.st0,
       {| ConsensusEngine.action := "update";
          ConsensusEngine.reason := None;
          ConsensusEngine.data :=
            Some (<["syncMetadata.checksum" := VStr "amount-700"]>
                    (<["vectorClock" := VClock (<["C" := 1%nat]> {[ "server" := 4%nat ]})]>
                       Scenario.clientEdit)) |}).
Proof.
  split_and!; [vm_compute; reflexivity .. |].
  pose proof (reconcile_update_clock Scenario.hash0 Scenario.st0 Scenario.tx0
                Scenario.clientEdit Scenario.clockAhead "phone") as H.
  destruct H as [H _]; [vm_compute; reflexivity |].
  rewrite H. vm_compute. reflexivity.
Defined.

(** Scenario of C1: server clock [{server: 2}], client clock
    [{server: 1, C: 1}], on a record that already counts two conflicts: one
    conflict is created, the record is not touched, and the counter goes
    from 2 to 3. *)
Lemma reconcile_conflict_recorded_witness :
  VectorClock.compare Scenario.clockConcurrent (ConsensusEngine.vectorClock_of Scenario.txTwice)
    = VectorClock.concurrent
  ∧ Scenario.txTwice !! "syncMetadata.conflictsCount" = Some (VNum 2)
  ∧ ∃ entry,
      ConsensusEngine.reconcile Scenario.hash0 Scenario.st0 Scenario.txTwice
        Scenario.clientEdit Scenario.clockConcurrent "phone"
      = ({| ConsensusEngine.transactions := ConsensusEngine.transactions Scenario.st0;
            ConsensusEngine.conflicts := [entry] |},
         {| ConsensusEngine.action := "conflict";
            ConsensusEngine.reason := None;
            ConsensusEngine.data :=
              Some (<["syncMetadata.conflictsCount" := VNum 3]>
                      {[ "syncMetadata.syncStatus" := VStr "conflict" ]}) |})
      ∧ ConsensusEngine.serverState entry = Scenario.txTwice
      ∧ ConsensusEngine.clientState entry = Scenario.clientEdit.
Proof.
  split; [vm_compute; reflexivity |].
  split; [vm_compute; reflexivity |].
  eexists. split.
  - apply (reconcile_conflict_recorded Scenario.hash0 Scenario.st0 Scenario.txTwice
             Scenario.clientEdit Scenario.clockConcurrent "phone").
    left. vm_compute. reflexivity.
  - split; reflexivity.
Defined.

(** C6, as stated, fails: two identical calls on concurrent clocks leave
    two identical ConflictEntries. *)
Lemma reconcile_duplicate_entry :
  let st1 := (ConsensusEngine.reconcile Scenario.hash0 Scenario.st0 Scenario.tx0
                Scenario.clientEdit Scenario.clockConcurrent "phone").1 in
  let st2 := (ConsensusEngine.reconcile Scenario.hash0 st1 Scenario.tx0
                Scenario.clientEdit Scenario.clockConcurrent "phone").1 in
  length (ConsensusEngine.conflicts st1) = 1%nat
  ∧ length (ConsensusEngine.conflicts st2) = 2%nat
  ∧ ConsensusEngine.conflicts st2 !! 0%nat = ConsensusEngine.conflicts st2 !! 1%nat
  ∧ is_Some (ConsensusEngine.conflicts st2 !! 1%nat).
Proof.
  split_and!; try (vm_compute; reflexivity).
  eexists. reflexivity.
Qed.

(** The same two calls through the theorem: the second entry repeats the
    first. *)
Lemma reconcile_repeat_appends_witness :
  let st1 := (ConsensusEngine.reconcile Scenario.hash0 Scenario.st0 Scenario.tx0
                Scenario.clientEdit Scenario.clockConcurrent "phone").1 in
  ∃ entry,
    ConsensusEngine.conflicts st1 = [entry]
    ∧ ConsensusEngine.conflicts
        (ConsensusEngine.reconcile Scenario.hash0 st1 Scenario.tx0
           Scenario.clientEdit Scenario.clockConcurrent "phone").1 = [entry; entry].
Proof.
  pose proof (reconcile_repeat_appends Scenario.hash0 Scenario.st0 Scenario.st0
                Scenario.tx0 Scenario.clientEdit Scenario.clockConcurrent
                "phone" "phone") as [_ H].
  destruct H as (entry & H1 & H2); [vm_compute; reflexivity |].
  exists entry. split; [exact H1 | exact H2].
Defined.

(** ** Conflict resolution *)

Section ResolveFacts.
Import VectorClock ConsensusEngine.

(** C5 (amended): [resolveConflict] fails with the not-found error when the
    referenced conflict does not exist, and then the transactions and the
    conflicts are returned as they were. *)
Theorem resolveConflict_missing saves now st id strategy rd :
  conflicts st !! id = None →
  resolveConflict saves now st id strategy rd
  = (st, inl (Error "Conflict record not found")).
Proof. intros H. unfold resolveConflict. by rewrite H. Qed.

(** An unknown strategy fails as well and changes nothing. *)
Lemma resolveConflict_invalid_strategy saves now st id strategy rd c :
  conflicts st !! id = Some c →
  strategy ≠ "client_wins" → strategy ≠ "server_wins" → strategy ≠ "merge" →
  resolveConflict saves now st id strategy rd
  = (st, inl (Error "Invalid resolution strategy")).
Proof.
  intros H H1 H2 H3. unfold resolveConflict. rewrite H.
  apply String.eqb_neq in H1, H2, H3. by rewrite H1, H2, H3.
Qed.

End ResolveFacts.

(** Resolving conflict 0 of a store that holds no conflict. *)
Lemma resolveConflict_missing_witness :
  ConsensusEngine.resolveConflict Scenario.acceptAll 2000 Scenario.st0 0 "client_wins" ∅
  = (Scenario.st0, inl (ConsensusEngine.Error "Conflict record not found")).
Proof. apply resolveConflict_missing. reflexivity. Defined.

(** C5, as stated, fails for a conflict that is already resolved: the call
    succeeds, bumps the server counter of the record from 3 to 4 and
    rewrites the resolution time of the ConflictEntry. *)
Lemma resolveConflict_resolved_again :
  let r := ConsensusEngine.resolveConflict Scenario.acceptAll 2000 Scenario.stResolved 0
             "client_wins" ∅ in
  ConsensusEngine.status <$> ConsensusEngine.conflicts Scenario.stResolved !! 0%nat
    = Some "resolved"
  ∧ (if r.2 is inr _ then True else False)
  ∧ ConsensusEngine.vectorClock_of
      <$> ConsensusEngine.transactions Scenario.stResolved !! "t1"
    = Some {[ "server" := 3%nat ]}
  ∧ ConsensusEngine.vectorClock_of <$> ConsensusEngine.transactions r.1 !! "t1"
    = Some {[ "server" := 4%nat ]}
  ∧ ConsensusEngine.resolvedAt <$> ConsensusEngine.conflicts Scenario.stResolved !! 0%nat
    = Some (Some 1000)
  ∧ ConsensusEngine.resolvedAt <$> ConsensusEngine.conflicts r.1 !! 0%nat
    = Some (Some 2000).
Proof. split_and!; vm_compute; done. Qed.

(** ** Binary64 arithmetic *)

(** The amounts of the ledger are binary64 numbers; the facts below are
    read off the specification of the primitive operations
    ([FloatAxioms], [SpecFloat]). *)

Section Binary64Facts.
Import Binary64 Number.


Lemma digits2_pos_bounds (p : positive) :
  2 ^ (Zpos (digits2_pos p) - 1) ≤ Zpos p < 2 ^ Zpos (digits2_pos p).
Proof.
  induction p as [p IH | p IH |]; simpl digits2_pos.
  - rewrite Pos2Z.inj_succ.
    replace (Z.succ (Z.pos (digits2_pos p)) - 1) with (Z.succ (Z.pos (digits2_pos p) - 1)) by lia.
    rewrite !Z.pow_succ_r by lia. lia.
  - rewrite Pos2Z.inj_succ.
    replace (Z.succ (Z.pos (digits2_pos p)) - 1) with (Z.succ (Z.pos (digits2_pos p) - 1)) by lia.
    rewrite !Z.pow_succ_r by lia. lia.
  - simpl. lia.
Qed.

Lemma digits2_pos_unique (p : positive) (n : Z) :
  2 ^ (n - 1) ≤ Zpos p < 2 ^ n → Zpos (digits2_pos p) = n.
Proof.
  intros [H1 H2]. pose proof (digits2_pos_bounds p) as [H3 H4].
  set (d := Zpos (digits2_pos p)) in *.
  assert (0 < d) by (subst d; lia).
  destruct (Z.lt_trichotomy d n) as [Hlt | [Heq | Hgt]]; [| done |].
  - assert (2 ^ d ≤ 2 ^ (n - 1)) by (apply Z.pow_le_mono_r; lia). lia.
  - assert (n ≤ 0 ∨ 0 < n) as [Hn | Hn] by lia.
    + assert (2 ^ n ≤ 2 ^ 0) by (destruct (Z.lt_trichotomy n 0) as [?|[->|?]];
        [rewrite Z.pow_neg_r by lia; simpl; lia | simpl; lia | lia]).
      simpl in *. lia.
    + assert (2 ^ n ≤ 2 ^ (d - 1)) by (apply Z.pow_le_mono_r; lia). lia.
Qed.

Lemma iter_xO (m d : positive) : Zpos (Pos.iter xO m d) = Zpos m * 2 ^ Zpos d.
Proof.
  induction d as [| d IH] using Pos.peano_ind.
  - simpl. lia.
  - rewrite Pos.iter_succ, Pos2Z.inj_succ, Z.pow_succ_r by lia.
    rewrite Pos2Z.inj_xO, IH. lia.
Qed.

Lemma shl_align_le (mx : positive) (ex ez : Z) :
  ez ≤ ex →
  Zpos (fst (shl_align mx ex ez)) = Zpos mx * 2 ^ (ex - ez)
  ∧ snd (shl_align mx ex ez) = ez.
Proof.
  intros H. unfold shl_align.
  destruct (ez - ex) as [| p | p] eqn:E; try lia.
  - assert (ex = ez) as -> by lia. rewrite Z.sub_diag. simpl. lia.
  - simpl. rewrite iter_xO. split; [| done]. f_equal. f_equal. lia.
Qed.

Lemma shr_1_m (r : shr_record) : 0 ≤ shr_m r → shr_m (shr_1 r) = shr_m r / 2.
Proof.
  destruct r as [m r s]. cbn [shr_m]. intros H.
  destruct m as [| [p | p |] | p]; cbn [shr_1 shr_m]; try lia.
  - reflexivity.
  - apply (Z.div_unique _ 2 _ 1); lia.
  - apply (Z.div_unique _ 2 _ 0); lia.
  - reflexivity.
Qed.

Lemma pow2_double (p : positive) : 2 ^ Zpos p~0 = 2 ^ Zpos p * 2 ^ Zpos p.
Proof. rewrite <- Z.pow_add_r by lia. f_equal. lia. Qed.

Lemma pow2_double_succ (p : positive) : 2 ^ Zpos p~1 = 2 * (2 ^ Zpos p * 2 ^ Zpos p).
Proof.
  rewrite <- Z.pow_add_r by lia. rewrite <- Z.pow_succ_r by lia. f_equal. lia.
Qed.

Lemma iter_shr_1_m (p : positive) (r : shr_record) :
  0 ≤ shr_m r → shr_m (iter_pos shr_1 p r) = shr_m r / 2 ^ Zpos p.
Proof.
  revert r. induction p as [p IH | p IH |]; intros r Hr; simpl iter_pos.
  - assert (0 ≤ shr_m (shr_1 r)) as H1.
    { rewrite shr_1_m by done. apply Z.div_pos; lia. }
    assert (0 ≤ shr_m (iter_pos shr_1 p (shr_1 r))) as H2.
    { rewrite IH by done. apply Z.div_pos; lia. }
    rewrite IH by done. rewrite IH by done. rewrite shr_1_m by done.
    rewrite !Z.div_div by lia. by rewrite pow2_double_succ.
  - assert (0 ≤ shr_m (iter_pos shr_1 p r)) as H2.
    { rewrite IH by done. apply Z.div_pos; lia. }
    rewrite IH by done. rewrite IH by done.
    rewrite !Z.div_div by lia. by rewrite pow2_double.
  - rewrite shr_1_m by done. f_equal.
Qed.

Lemma fexp64 (e : Z) : fexp prec emax e = Z.max (e - 53) (-1074).
Proof. reflexivity. Qed.

Lemma bounded_canonical (m : positive) (e : Z) :
  bounded prec emax m e = true →
  e = Z.max (Zpos (digits2_pos m) + e - 53) (-1074) ∧ e ≤ 971.
Proof.
  unfold bounded, canonical_mantissa. rewrite fexp64.
  intros [H1 H2]%andb_prop. apply Z.eqb_eq in H1. apply Z.leb_le in H2.
  change (emax - prec) with 971 in H2. lia.
Qed.

Lemma canonical_order (ma : positive) (ea : Z) (m : positive) (e : Z) :
  ea = Z.max (Zpos (digits2_pos ma) + ea - 53) (-1074) →
  Zpos m < 2 ^ 53 → -1074 ≤ e →
  ea < e ∨ (e ≤ ea ∧ Zpos ma * 2 ^ (ea - e) ≤ Zpos m) →
  lexle ma ea m e.
Proof.
  intros Hc Hm He [Hlt | [Hle Hv]]; [by left |].
  destruct (Z.eq_dec ea e) as [-> | Hne].
  - right. split; [done |]. rewrite Z.sub_diag in Hv. simpl in Hv. lia.
  - exfalso.
    assert (Zpos (digits2_pos ma) = 53) as Hd by lia.
    pose proof (digits2_pos_bounds ma) as [Hlo _]. rewrite Hd in Hlo.
    assert (2 ^ 1 ≤ 2 ^ (ea - e)) by (apply Z.pow_le_mono_r; lia).
    change (2 ^ 1) with 2 in *. change (2 ^ (53 - 1)) with 4503599627370496 in Hlo.
    change (2 ^ 53) with 9007199254740992 in Hm. nia.
Qed.

Lemma shl_align_gt (mx : positive) (ex ez : Z) : ex < ez → shl_align mx ex ez = (mx, ex).
Proof.
  intros H. unfold shl_align. destruct (ez - ex) eqn:E; try done. lia.
Qed.

Lemma round_nearest_even_range (mx : Z) (l : location) :
  mx ≤ round_nearest_even mx l ≤ mx + 1.
Proof.
  unfold round_nearest_even. destruct l as [| []]; try lia. destruct (Z.even mx); lia.
Qed.

Lemma shr_record_of_loc_m (m : Z) (l : location) : shr_m (shr_record_of_loc m l) = m.
Proof. by destruct l as [| []]. Qed.

Lemma shr_fexp_spec (m e : Z) (l : location) :
  0 ≤ m →
  let e1 := Z.max e (fexp prec emax (Zdigits2 m + e)) in
  e1 = snd (shr_fexp prec emax m e l)
  ∧ shr_m (fst (shr_fexp prec emax m e l)) = m / 2 ^ (e1 - e).
Proof.
  intros Hm e1. subst e1. unfold shr_fexp, shr.
  set (f := fexp prec emax (Zdigits2 m + e)).
  destruct (f - e) as [| p | p] eqn:E; cbn [fst snd].
  - replace (Z.max e f) with e by lia. rewrite Z.sub_diag, Z.div_1_r.
    by rewrite shr_record_of_loc_m.
  - replace (Z.max e f) with (e + Z.pos p) by lia. split; [done |].
    rewrite iter_shr_1_m by (by rewrite shr_record_of_loc_m).
    rewrite shr_record_of_loc_m. f_equal. f_equal. lia.
  - replace (Z.max e f) with e by lia. rewrite Z.sub_diag, Z.div_1_r.
    by rewrite shr_record_of_loc_m.
Qed.

Lemma Zdigits2_pos (p : positive) : Zdigits2 (Zpos p) = Zpos (digits2_pos p).
Proof. reflexivity. Qed.

(** Rounding a positive value to binary64 never goes below a binary64
    number that the value is not below. *)
Lemma binary_round_aux_atLeast (mz : positive) (ez : Z) (l : location)
    (ma : positive) (ea : Z) :
  bounded prec emax ma ea = true →
  -1074 ≤ ez →
  let e1 := Z.max ez (fexp prec emax (Zpos (digits2_pos mz) + ez)) in
  ea < e1 ∨ (e1 ≤ ea ∧ Zpos ma * 2 ^ (ea - e1) ≤ Zpos mz / 2 ^ (e1 - ez)) →
  atLeast ma ea (binary_round_aux prec emax false (Zpos mz) ez l).
Proof.
  intros Ha Hez e1 Hge.
  apply bounded_canonical in Ha as [Hca Hea].
  unfold binary_round_aux.
  pose proof (shr_fexp_spec (Zpos mz) ez l ltac:(lia)) as [He1 Hq].
  rewrite Zdigits2_pos in He1, Hq. fold e1 in He1, Hq.
  destruct (shr_fexp prec emax (Zpos mz) ez l) as [mrs' e'] eqn:E1.
  cbn [fst snd] in He1, Hq. subst e'.
  set (q := shr_m mrs') in *.
  pose proof (digits2_pos_bounds mz) as [Hlo Hhi].
  set (d := Zpos (digits2_pos mz)) in *.
  assert (0 < d) as Hd by (subst d; lia).
  (* the bounds of the shifted mantissa *)
  assert (0 < q ∧ q < 2 ^ 53) as [Hq0 Hq53].
  { assert (e1 = Z.max ez (Z.max (d + ez - 53) (-1074))) as Ee1 by reflexivity.
    destruct (Z.le_gt_cases (d + ez - 53) ez) as [Hsmall | Hbig].
    - assert (e1 = ez) as Ee by lia.
      rewrite Ee, Z.sub_diag, Z.div_1_r in Hq. rewrite Hq. split; [lia |].
      assert (2 ^ d ≤ 2 ^ 53) by (apply Z.pow_le_mono_r; lia). lia.
    - assert (e1 = d + ez - 53) as Ee by lia.
      rewrite Ee in Hq. replace (d + ez - 53 - ez) with (d - 53) in Hq by lia.
      assert (2 ^ (d - 1) = 2 ^ 52 * 2 ^ (d - 53)) as Hp1.
      { rewrite <- Z.pow_add_r by lia. f_equal. lia. }
      assert (2 ^ d = 2 ^ 53 * 2 ^ (d - 53)) as Hp2.
      { rewrite <- Z.pow_add_r by lia. f_equal. lia. }
      assert (0 < 2 ^ (d - 53)) as Hpos by (apply Z.pow_pos_nonneg; lia).
      rewrite Hq. split.
      + apply Z.lt_le_trans with (2 ^ 52); [reflexivity |].
        apply Z.div_le_lower_bound; [done |]. lia.
      + apply Z.div_lt_upper_bound; [done |]. lia. }
  pose proof (round_nearest_even_range q (loc_of_shr_record mrs')) as Hr.
  set (q' := round_nearest_even q (loc_of_shr_record mrs')) in *.
  pose proof (shr_fexp_spec q' e1 loc_Exact ltac:(lia)) as [He2 Hq2].
  destruct (shr_fexp prec emax q' e1 loc_Exact) as [mrs'' e''] eqn:E2.
  cbn [fst snd] in He2, Hq2. subst e''.
  assert (-1074 ≤ e1) as He1lo by (subst e1; lia).
  clearbody e1.
  destruct q' as [| q'p | q'p] eqn:Eq'; try lia.
  rewrite Zdigits2_pos, fexp64 in Hq2. rewrite Zdigits2_pos, fexp64.
  pose proof (digits2_pos_bounds q'p) as [Hlo' Hhi'].
  set (d' := Zpos (digits2_pos q'p)) in *.
  destruct (Z.eq_dec (Zpos q'p) (2 ^ 53)) as [Etop | Hntop].
  - (* the mantissa was rounded up to a power of two *)
    assert (d' = 54) as Ed'.
    { apply digits2_pos_unique. rewrite Etop. split; [reflexivity | reflexivity]. }
    rewrite Ed' in Hq2 |- *.
    replace (Z.max e1 (Z.max (54 + e1 - 53) (-1074))) with (e1 + 1) in Hq2 |- * by lia.
    replace (e1 + 1 - e1) with 1 in Hq2 by lia.
    rewrite Etop in Hq2. change (2 ^ 53 / 2 ^ 1) with (Zpos 4503599627370496) in Hq2.
    rewrite Hq2.
    destruct (e1 + 1 <=? emax - prec); [| done].
    simpl. left.
    destruct Hge as [Hlt | [Hle Hv]]; [lia |].
    destruct (Z.eq_dec ea e1) as [-> | Hne]; [lia |]. exfalso.
    assert (Zpos (digits2_pos ma) = 53) as Hda by lia.
    pose proof (digits2_pos_bounds ma) as [Hlo2 _]. rewrite Hda in Hlo2.
    assert (2 ^ 1 ≤ 2 ^ (ea - e1)) by (apply Z.pow_le_mono_r; lia).
    change (2 ^ 1) with 2 in *. change (2 ^ (53 - 1)) with 4503599627370496 in Hlo2.
    change (2 ^ 53) with 9007199254740992 in *. nia.
  - assert (Zpos q'p < 2 ^ 53) as Hlt53 by lia.
    assert (d' ≤ 53) as Hd'.
    { destruct (Z.le_gt_cases d' 53) as [? | Hgt]; [done |]. exfalso.
      assert (2 ^ 53 ≤ 2 ^ (d' - 1)) by (apply Z.pow_le_mono_r; lia). lia. }
    replace (Z.max e1 (Z.max (d' + e1 - 53) (-1074))) with e1 in Hq2 |- * by lia.
    rewrite Z.sub_diag, Z.div_1_r in Hq2. rewrite Hq2.
    destruct (e1 <=? emax - prec); [| done].
    simpl. apply canonical_order; try done.
    destruct Hge as [Hlt | [Hle Hv]]; [by left | right].
    split; [done |]. lia.
Qed.

Lemma binary_round_atLeast (M : positive) (e : Z) (ma : positive) (ea : Z) :
  bounded prec emax ma ea = true → -1074 ≤ e ≤ ea →
  Zpos ma * 2 ^ (ea - e) ≤ Zpos M →
  atLeast ma ea (binary_round prec emax false M e).
Proof.
  intros Ha [He Hea] Hv. unfold binary_round.
  pose proof (digits2_pos_bounds M) as [Hlo Hhi].
  set (d := Zpos (digits2_pos M)) in *.
  assert (fexp prec emax (d + e) = Z.max (d + e - 53) (-1074)) as Ef by apply fexp64.
  set (e' := fexp prec emax (d + e)) in *.
  destruct (Z.le_gt_cases e' e) as [Hle | Hgt].
  - pose proof (shl_align_le M e e' Hle) as [Hm Hz].
    destruct (shl_align M e e') as [mz ez]. cbn [fst snd] in Hm, Hz. subst ez.
    assert (0 < 2 ^ (e - e')) as Hpos by (apply Z.pow_pos_nonneg; lia).
    assert (Zpos (digits2_pos mz) = d + (e - e')) as Hdz.
    { apply digits2_pos_unique. rewrite Hm.
      replace (d + (e - e') - 1) with (d - 1 + (e - e')) by lia.
      rewrite !Z.pow_add_r by lia. split; nia. }
    apply binary_round_aux_atLeast; [done | lia |].
    rewrite Hdz, fexp64.
    replace (Z.max e' (Z.max (d + (e - e') + e' - 53) (-1074))) with e' by lia.
    right. split; [lia |]. rewrite Z.sub_diag, Z.div_1_r, Hm.
    replace (ea - e') with (ea - e + (e - e')) by lia.
    rewrite Z.pow_add_r by lia. nia.
  - rewrite shl_align_gt by done.
    apply binary_round_aux_atLeast; [done | lia |].
    fold d. fold e'. replace (Z.max e e') with e' by lia.
    destruct (Z.lt_ge_cases ea e') as [Hlt | Hge]; [by left | right].
    split; [done |].
    assert (0 < 2 ^ (e' - e)) as Hpos by (apply Z.pow_pos_nonneg; lia).
    apply Z.div_le_lower_bound; [done |].
    replace (ea - e) with (e' - e + (ea - e')) in Hv by lia.
    rewrite Z.pow_add_r in Hv by lia. lia.
Qed.

(** The sum of two positive binary64 numbers is not below the first. *)
Lemma SFadd_atLeast (ma : positive) (ea : Z) (mc : positive) (ec : Z) :
  bounded prec emax ma ea = true → bounded prec emax mc ec = true →
  atLeast ma ea (SF64add (S754_finite false ma ea) (S754_finite false mc ec)).
Proof.
  intros Ha Hc. unfold SF64add, SFadd. cbn [cond_Zopp].
  pose proof (bounded_canonical _ _ Ha) as [Hca _].
  pose proof (bounded_canonical _ _ Hc) as [Hcc _].
  set (ez := Z.min ea ec).
  pose proof (shl_align_le ma ea ez ltac:(lia)) as [Hm _].
  cbn [Z.add binary_normalize].
  apply binary_round_atLeast; [done | lia |].
  rewrite Pos2Z.inj_add, Hm. lia.
Qed.

(** *** The order of binary64 numbers *)

Lemma SFleb_key (a b : spec_float) :
  SFleb a b = true ↔ isNumber a ∧ isNumber b ∧ keyle (key a) (key b).
Proof.
  unfold SFleb, isNumber, keyle.
  destruct a as [sa | sa | | sa ma ea], b as [sb | sb | | sb mb eb];
    try destruct sa; try destruct sb; cbn [SFcompare key fst snd];
    try (split; [intros _; split_and!; (done || lia) | done]);
    try (split; [discriminate | intros (? & ? & ?); (done || lia)]).
  - change (Pos.compare_cont Eq ma mb) with (Pos.compare ma mb).
    destruct (Z.compare_spec ea eb); destruct (Pos.compare_spec ma mb); simpl;
      (split; [try discriminate; intros _; split_and!; (done || lia)
              | try done; intros (? & ? & ?); lia]).
  - change (Pos.compare_cont Eq ma mb) with (Pos.compare ma mb).
    destruct (Z.compare_spec ea eb); destruct (Pos.compare_spec ma mb); simpl;
      (split; [try discriminate; intros _; split_and!; (done || lia)
              | try done; intros (? & ? & ?); lia]).
Qed.

Lemma SFleb_trans (a b c : spec_float) :
  SFleb a b = true → SFleb b c = true → SFleb a c = true.
Proof.
  rewrite !SFleb_key. unfold keyle. intros (? & ? & ?) (? & ? & ?). split_and!; try done.
  lia.
Qed.

(** *** JavaScript numbers *)

Lemma Prim2SF_zero : Prim2SF 0 = S754_zero false.
Proof. reflexivity. Qed.

Lemma opp_involutive (x : float) : (- - x)%float = x.
Proof.
  apply Prim2SF_inj. rewrite !opp_spec. by destruct (Prim2SF x) as [[] | [] | | [] ? ?].
Qed.

Lemma sub_add_opp (x y : float) : (x - y)%float = (x + - y)%float.
Proof.
  apply Prim2SF_inj. rewrite sub_spec, add_spec, opp_spec.
  unfold SF64sub, SF64add, SFsub, SFadd.
  destruct (Prim2SF x) as [[] | [] | | sx mx ex], (Prim2SF y) as [[] | [] | | sy my ey];
    try reflexivity.
  cbn [SFopp]. f_equal. destruct sy; cbn [cond_Zopp negb]; lia.
Qed.

Lemma SFeqb_refl_finite s m e : SFeqb (S754_finite s m e) (S754_finite s m e) = true.
Proof.
  unfold SFeqb. cbn [SFcompare]. rewrite Z.compare_refl.
  change (Pos.compare_cont Eq m m) with (Pos.compare m m). rewrite Pos.compare_refl.
  by destruct s.
Qed.

Lemma truthy_spec (x : float) :
  truthy x = match Prim2SF x with
             | S754_zero _ | S754_nan => false
             | _ => true
             end.
Proof.
  unfold truthy. rewrite !eqb_spec, Prim2SF_zero.
  destruct (Prim2SF x) as [[] | [] | | s m e]; try reflexivity.
  rewrite SFeqb_refl_finite. by destruct s.
Qed.

Lemma positive_spec (x : float) :
  (0 <? x)%float = match Prim2SF x with
                   | S754_finite false _ _ | S754_infinity false => true
                   | _ => false
                   end.
Proof.
  rewrite ltb_spec, Prim2SF_zero. by destruct (Prim2SF x) as [[] | [] | | [] ? ?].
Qed.

Lemma nonneg_spec (x : float) :
  (0 <=? x)%float = match Prim2SF x with
                    | S754_finite false _ _ | S754_infinity false | S754_zero _ => true
                    | _ => false
                    end.
Proof.
  rewrite leb_spec, Prim2SF_zero. by destruct (Prim2SF x) as [[] | [] | | [] ? ?].
Qed.

(** What negation does to the tests [applyDelta] makes on a change. *)
Lemma opp_tests (c : float) :
  truthy (- c) = truthy c
  ∧ ((0 <? c)%float = true → (0 <? - c)%float = false ∧ truthy c = true ∧ abs c = c
                              ∧ abs (- c) = c)
  ∧ (truthy c = true → (0 <? c)%float = false →
       (0 <? - c)%float = true ∧ abs c = (- c)%float ∧ abs (- c) = (- c)%float).
Proof.
  rewrite !truthy_spec, !positive_spec, !opp_spec.
  split_and!.
  - by destruct (Prim2SF c) as [[] | [] | | [] ? ?].
  - intros H. split_and!.
    + by destruct (Prim2SF c) as [[] | [] | | [] ? ?].
    + by destruct (Prim2SF c) as [[] | [] | | [] ? ?].
    + apply Prim2SF_inj. rewrite abs_spec.
      by destruct (Prim2SF c) as [[] | [] | | [] ? ?].
    + apply Prim2SF_inj. rewrite abs_spec, opp_spec.
      by destruct (Prim2SF c) as [[] | [] | | [] ? ?].
  - intros H1 H2. split_and!.
    + by destruct (Prim2SF c) as [[] | [] | | [] ? ?].
    + apply Prim2SF_inj. rewrite abs_spec, opp_spec.
      by destruct (Prim2SF c) as [[] | [] | | [] ? ?].
    + apply Prim2SF_inj. rewrite abs_spec, !opp_spec.
      by destruct (Prim2SF c) as [[] | [] | | [] ? ?].
Qed.

Lemma leb_trans (x y z : float) :
  (x <=? y)%float = true → (y <=? z)%float = true → (x <=? z)%float = true.
Proof. rewrite !leb_spec. apply SFleb_trans. Qed.

(** Adding a positive number to a number that is not negative gives a
    positive number that is not smaller. *)
Lemma add_nonneg_pos (x c : float) :
  (0 <=? x)%float = true → (0 <? c)%float = true →
  (x <=? x + c)%float = true ∧ (0 <? x + c)%float = true.
Proof.
  rewrite nonneg_spec, !positive_spec, leb_spec, add_spec.
  pose proof (Prim2SF_valid x) as Hvx. pose proof (Prim2SF_valid c) as Hvc.
  destruct (Prim2SF x) as [[] | [] | | [] mx ex], (Prim2SF c) as [[] | [] | | [] mc ec];
    try discriminate; intros _ _; try (split; reflexivity).
  pose proof (SFadd_atLeast mx ex mc ec Hvx Hvc) as H.
  destruct (SF64add _ _) as [s | [] | | [] m e]; try (by destruct H).
  split; [| reflexivity]. apply SFleb_key. cbn [atLeast] in H.
  unfold isNumber, keyle, lexle in *. cbn [key fst snd].
  split_and!; try discriminate. lia.
Qed.

Lemma or0_nonneg (x : float) :
  (0 <=? x)%float = true → (x <=? or0 x)%float = true ∧ (0 <=? or0 x)%float = true.
Proof.
  unfold or0. rewrite truthy_spec, !nonneg_spec.
  destruct (Prim2SF x) as [[] | [] | | [] m e] eqn:E; try discriminate; intros _;
    rewrite ?nonneg_spec, ?leb_spec, ?E, ?Prim2SF_zero; try done.
  split; [| done]. apply SFleb_key. unfold isNumber, keyle. cbn [key fst snd].
  split_and!; try done. lia.
Qed.

(** The step [(total || 0) + p] with [p] positive. *)
Lemma total_grows (x p : float) :
  (0 <=? x)%float = true → (0 <? p)%float = true →
  (x <=? or0 x + p)%float = true ∧ (0 <=? or0 x + p)%float = true.
Proof.
  intros Hx Hp. destruct (or0_nonneg x Hx) as [H1 H2].
  destruct (add_nonneg_pos (or0 x) p H2 Hp) as [H3 H4].
  split; [by eapply leb_trans |].
  rewrite nonneg_spec. rewrite positive_spec in H4.
  by destruct (Prim2SF (or0 x + p)) as [[] | [] | | [] ? ?].
Qed.

Lemma leb_refl_nonneg (x : float) : (0 <=? x)%float = true → (x <=? x)%float = true.
Proof.
  rewrite nonneg_spec, leb_spec.
  destruct (Prim2SF x) as [[] | [] | | [] m e]; try discriminate; intros _; try reflexivity.
  apply SFleb_key. unfold isNumber, keyle. cbn [key fst snd]. split_and!; try done. lia.
Qed.

(** A negative change is truthy and not positive; a truthy change that is
    not positive is negative; the absolute value of either is positive. *)
Lemma negative_tests (c : float) :
  ((c <? 0)%float = true → truthy c = true ∧ (0 <? c)%float = false)
  ∧ (truthy c = true → (0 <? c)%float = false →
       (c <? 0)%float = true ∧ (0 <? abs c)%float = true)
  ∧ ((0 <? c)%float = true → (0 <? abs c)%float = true).
Proof.
  rewrite truthy_spec, !positive_spec, ltb_spec, abs_spec, Prim2SF_zero.
  destruct (Prim2SF c) as [[] | [] | | [] m e]; split_and!; try done.
Qed.

End Binary64Facts.

(** ** Folding deltas *)

Section ApplyFacts.
Import Ledger EnhancedAuditLogger ReplayEngine Number.

(** The three running totals after one delta: a change that is zero or
    NaN leaves them; otherwise the balance (or 0 when it is falsy) gets the
    change added, and the change is booked on income or on expenses
    according to its sign alone. *)
Lemma updateBalance_totals s d :
  let c := balanceChange (financialImpact d) in
  totalBalance (updateBalance s d)
    = (if truthy c then (or0 (totalBalance s) + c)%float else totalBalance s)
  ∧ totalIncome (updateBalance s d)
    = (if truthy c && (0 <? c)%float then (or0 (totalIncome s) + c)%float
       else totalIncome s)
  ∧ totalExpenses (updateBalance s d)
    = (if truthy c && negb (0 <? c)%float then (or0 (totalExpenses s) + abs c)%float
       else totalExpenses s).
Proof.
  intros c. unfold updateBalance. fold c.
  destruct (truthy c), (0 <? c)%float; done.
Qed.

(** What each block of [applyDelta] leaves alone. *)
Lemma updateBalance_keeps s d :
  accounts (updateBalance s d) = accounts s
  ∧ currency (updateBalance s d) = currency s
  ∧ transactions (updateBalance s d) = transactions s
  ∧ budgets (updateBalance s d) = budgets s
  ∧ goals (updateBalance s d) = goals s.
Proof. unfold updateBalance. repeat case_match; done. Qed.

Lemma updateCategoryBreakdown_keeps s d :
  accounts (updateCategoryBreakdown s d) = accounts s
  ∧ currency (updateCategoryBreakdown s d) = currency s
  ∧ transactions (updateCategoryBreakdown s d) = transactions s
  ∧ budgets (updateCategoryBreakdown s d) = budgets s
  ∧ goals (updateCategoryBreakdown s d) = goals s.
Proof. done. Qed.

Lemma updateTransactionCount_keeps s d :
  accounts (updateTransactionCount s d) = accounts s
  ∧ currency (updateTransactionCount s d) = currency s
  ∧ transactions (updateTransactionCount s d) = transactions s
  ∧ budgets (updateTransactionCount s d) = budgets s
  ∧ goals (updateTransactionCount s d) = goals s.
Proof. unfold updateTransactionCount. repeat case_match; done. Qed.

Lemma updateBudgetInState_keeps s d :
  accounts (updateBudgetInState s d) = accounts s
  ∧ currency (updateBudgetInState s d) = currency s
  ∧ transactions (updateBudgetInState s d) = transactions s
  ∧ goals (updateBudgetInState s d) = goals s.
Proof. unfold updateBudgetInState. repeat case_match; done. Qed.

Lemma updateGoalInState_keeps s d :
  accounts (updateGoalInState s d) = accounts s
  ∧ currency (updateGoalInState s d) = currency s
  ∧ transactions (updateGoalInState s d) = transactions s
  ∧ budgets (updateGoalInState s d) = budgets s.
Proof. unfold updateGoalInState. repeat case_match; done. Qed.

Lemma updateBudgetInState_rest s d :
  totalBalance (updateBudgetInState s d) = totalBalance s
  ∧ totalIncome (updateBudgetInState s d) = totalIncome s
  ∧ totalExpenses (updateBudgetInState s d) = totalExpenses s
  ∧ categoryBreakdown (updateBudgetInState s d) = categoryBreakdown s
  ∧ transactionCount (updateBudgetInState s d) = transactionCount s.
Proof. unfold updateBudgetInState. repeat case_match; done. Qed.

Lemma updateGoalInState_rest s d :
  totalBalance (updateGoalInState s d) = totalBalance s
  ∧ totalIncome (updateGoalInState s d) = totalIncome s
  ∧ totalExpenses (updateGoalInState s d) = totalExpenses s
  ∧ categoryBreakdown (updateGoalInState s d) = categoryBreakdown s
  ∧ transactionCount (updateGoalInState s d) = transactionCount s.
Proof. unfold updateGoalInState. repeat case_match; done. Qed.

(** The budget and the goal block leave the totals, the breakdown and the
    counter alone. *)
Lemma applyDelta_rest s d :
  let s3 := updateTransactionCount (updateCategoryBreakdown (updateBalance s d) d) d in
  totalBalance (applyDelta s d) = totalBalance s3
  ∧ totalIncome (applyDelta s d) = totalIncome s3
  ∧ totalExpenses (applyDelta s d) = totalExpenses s3
  ∧ categoryBreakdown (applyDelta s d) = categoryBreakdown s3
  ∧ transactionCount (applyDelta s d) = transactionCount s3.
Proof.
  intros s3. unfold applyDelta. cbv zeta. fold s3. clearbody s3.
  destruct (String.eqb (entityType d) "budget"), (String.eqb (entityType d) "goal");
    repeat match goal with
           | |- context [updateGoalInState ?x d] =>
               destruct (updateGoalInState_rest x d) as (-> & -> & -> & -> & ->)
           | |- context [updateBudgetInState ?x d] =>
               destruct (updateBudgetInState_rest x d) as (-> & -> & -> & -> & ->)
           end; done.
Qed.

(** The later blocks of [applyDelta] leave the totals alone. *)
Lemma applyDelta_after_balance s d :
  totalBalance (applyDelta s d) = totalBalance (updateBalance s d)
  ∧ totalIncome (applyDelta s d) = totalIncome (updateBalance s d)
  ∧ totalExpenses (applyDelta s d) = totalExpenses (updateBalance s d).
Proof.
  destruct (applyDelta_rest s d) as (-> & -> & -> & _).
  unfold updateTransactionCount. repeat case_match; done.
Qed.

Lemma applyDelta_totals s d :
  let c := balanceChange (financialImpact d) in
  totalBalance (applyDelta s d)
    = (if truthy c then (or0 (totalBalance s) + c)%float else totalBalance s)
  ∧ totalIncome (applyDelta s d)
    = (if truthy c && (0 <? c)%float then (or0 (totalIncome s) + c)%float
       else totalIncome s)
  ∧ totalExpenses (applyDelta s d)
    = (if truthy c && negb (0 <? c)%float then (or0 (totalExpenses s) + abs c)%float
       else totalExpenses s).
Proof.
  intros c.
  destruct (applyDelta_after_balance s d) as (-> & -> & ->).
  apply updateBalance_totals.
Qed.

(** Totals of income and of expenses that are not negative stay so, and
    do not decrease, under one delta. *)
Lemma applyDelta_grows s d :
  (0 <=? totalIncome s)%float = true → (0 <=? totalExpenses s)%float = true →
  ((totalIncome s <=? totalIncome (applyDelta s d))%float = true
   ∧ (0 <=? totalIncome (applyDelta s d))%float = true)
  ∧ ((totalExpenses s <=? totalExpenses (applyDelta s d))%float = true
     ∧ (0 <=? totalExpenses (applyDelta s d))%float = true).
Proof.
  intros Hi He. destruct (applyDelta_totals s d) as (_ & -> & ->).
  set (c := balanceChange (financialImpact d)).
  destruct (truthy c) eqn:Et; simpl.
  - destruct (0 <? c)%float eqn:Ep; simpl.
    + split; [by apply total_grows | split; [by apply leb_refl_nonneg | done]].
    + destruct (negative_tests c) as (_ & Hn & _).
      destruct (Hn Et Ep) as [_ Habs].
      split; [split; [by apply leb_refl_nonneg | done] | by apply total_grows].
  - split; (split; [by apply leb_refl_nonneg | done]).
Qed.

(** Income and expenses that are not negative never decrease along a
    replay. *)
Lemma applyDeltas_monotone (ds : list StateDelta) s :
  (0 <=? totalIncome s)%float = true → (0 <=? totalExpenses s)%float = true →
  ((totalIncome s <=? totalIncome (applyDeltas s ds))%float = true
   ∧ (0 <=? totalIncome (applyDeltas s ds))%float = true)
  ∧ ((totalExpenses s <=? totalExpenses (applyDeltas s ds))%float = true
     ∧ (0 <=? totalExpenses (applyDeltas s ds))%float = true).
Proof.
  revert s. induction ds as [| d ds IH]; intros s Hi He.
  - simpl. split; (split; [by apply leb_refl_nonneg | done]).
  - destruct (applyDelta_grows s d Hi He) as [[Hi1 Hi2] [He1 He2]].
    destruct (IH (applyDelta s d) Hi2 He2) as [[Hi3 Hi4] [He3 He4]].
    change (applyDeltas s (d :: ds)) with (applyDeltas (applyDelta s d) ds).
    split; (split; [by eapply leb_trans | done]).
Qed.

(** C10 (amended): [applyDelta] books a delta on income or on expenses by
    the sign of its [balanceChange] only (whatever the entity type and the
    operation): a positive change is added to [totalIncome], the absolute
    value of a negative change to [totalExpenses]; hence totals that are not
    negative never decrease under a replay.  Deleting an expense that was
    created before carries a positive change, so after the create/delete
    pair both totals have the amount added and are not below their values
    before the creation; [totalBalance] has the amount subtracted and then
    added in binary64 arithmetic. *)
Theorem applyDelta_books_by_sign :
  (∀ s d, (0 <? balanceChange (financialImpact d))%float = true →
     totalIncome (applyDelta s d)
       = (or0 (totalIncome s) + balanceChange (financialImpact d))%float
     ∧ totalExpenses (applyDelta s d) = totalExpenses s)
  ∧ (∀ s d, (balanceChange (financialImpact d) <? 0)%float = true →
     totalExpenses (applyDelta s d)
       = (or0 (totalExpenses s) + abs (balanceChange (financialImpact d)))%float
     ∧ totalIncome (applyDelta s d) = totalIncome s)
  ∧ (∀ s (ds : list StateDelta),
     (0 <=? totalIncome s)%float = true → (0 <=? totalExpenses s)%float = true →
     (totalIncome s <=? totalIncome (applyDeltas s ds))%float = true
     ∧ (totalExpenses s <=? totalExpenses (applyDeltas s ds))%float = true)
  ∧ (∀ s id e, es_type e ≠ "income" → (0 <? es_amount e)%float = true →
     let created := loggedDelta "expense" id "create" None (Some e) [] in
     let deleted := loggedDelta "expense" id "delete" (Some e) None [] in
     let s' := applyDelta (applyDelta s created) deleted in
     (0 <? balanceChange (financialImpact deleted))%float = true
     ∧ totalIncome s' = (or0 (totalIncome s) + es_amount e)%float
     ∧ totalExpenses s' = (or0 (totalExpenses s) + es_amount e)%float
     ∧ totalBalance s'
       = (or0 (or0 (totalBalance s) + - es_amount e) + es_amount e)%float
     ∧ ((0 <=? totalIncome s)%float = true →
          (totalIncome s <=? totalIncome s')%float = true)
     ∧ ((0 <=? totalExpenses s)%float = true →
          (totalExpenses s <=? totalExpenses s')%float = true)).
Proof.
  split_and!.
  - intros s d H. destruct (applyDelta_totals s d) as (_ & -> & ->).
    destruct (opp_tests (balanceChange (financialImpact d))) as (_ & Hp & _).
    destruct (Hp H) as (_ & -> & _). by rewrite H.
  - intros s d H. destruct (applyDelta_totals s d) as (_ & -> & ->).
    destruct (negative_tests (balanceChange (financialImpact d))) as (Hn & _).
    destruct (Hn H) as [-> ->]. done.
  - intros s ds Hi He.
    destruct (applyDeltas_monotone ds s Hi He) as [[? _] [? _]]. done.
  - intros s id e Hty Hpos created deleted s'.
    assert (balanceChange (financialImpact created) = (- es_amount e)%float) as Hc.
    { simpl. unfold signedAmount. apply String.eqb_neq in Hty. by rewrite Hty. }
    assert (balanceChange (financialImpact deleted) = es_amount e) as Hd.
    { simpl. apply String.eqb_neq in Hty. by rewrite Hty. }
    destruct (opp_tests (es_amount e)) as (Ht & Hp & _).
    destruct (Hp Hpos) as (Hneg & Htr & _ & Habs).
    assert (totalIncome s' = (or0 (totalIncome s) + es_amount e)%float
            ∧ totalExpenses s' = (or0 (totalExpenses s) + es_amount e)%float
            ∧ totalBalance s'
              = (or0 (or0 (totalBalance s) + - es_amount e) + es_amount e)%float)
      as (Ei & Ee & Eb).
    { subst s'.
      destruct (applyDelta_totals (applyDelta s created) deleted) as (-> & -> & ->).
      destruct (applyDelta_totals s created) as (-> & -> & ->).
      rewrite Hc, Hd, Ht, Htr, Hpos, Hneg, Habs. done. }
    split_and!; try done.
    + by rewrite Hd.
    + intros Hi. rewrite Ei. by apply total_grows.
    + intros He. rewrite Ee. by apply total_grows.
Qed.

End ApplyFacts.

(** ** A delta followed by its reverse *)

Section ReverseFacts.
Import Ledger EnhancedAuditLogger ReplayEngine Number.

Lemma bumpEntry_adjust k c op l l' :
  bumpEntry k c op l = Some l' → l' = adjustEntry k c (countStep op) l.
Proof.
  revert l'. induction l as [| e l IH]; intros l' H; simpl in *; [discriminate |].
  destruct (String.eqb (category e) k); [by inversion H |].
  destruct (bumpEntry k c op l) as [r |]; simpl in H; [| discriminate].
  inversion H. by rewrite (IH r).
Qed.

Lemma bumpEntry_present k c op l :
  k ∈ map category l → is_Some (bumpEntry k c op l).
Proof.
  induction l as [| e l IH]; simpl; intros H; [by apply elem_of_nil in H |].
  destruct (String.eqb_spec (category e) k) as [E | E]; [by eexists |].
  apply elem_of_cons in H as [H | H]; [congruence |].
  destruct (IH H) as [r ->]. by eexists.
Qed.

Lemma touchCategory_present k c op l :
  k ∈ map category l → touchCategory c op l k = adjustEntry k c (countStep op) l.
Proof.
  intros H. unfold touchCategory.
  destruct (bumpEntry_present k c op l H) as [r Hr]. rewrite Hr.
  by apply bumpEntry_adjust in Hr.
Qed.

Lemma adjustEntry_names k a b l :
  map category (adjustEntry k a b l) = map category l.
Proof.
  induction l as [| e l IH]; simpl; [done |].
  destruct (String.eqb (category e) k); simpl; [done | by rewrite IH].
Qed.

(** An entry of another category is left as it is, where it is. *)
Lemma adjustEntry_other k a b l (i : nat) e :
  l !! i = Some e → category e ≠ k → adjustEntry k a b l !! i = Some e.
Proof.
  revert i. induction l as [| x l IH]; intros i Hi Hk; [done |].
  simpl. destruct (String.eqb_spec (category x) k) as [E | E].
  - destruct i; simpl in *; [| done]. inversion Hi; subst. done.
  - destruct i; simpl in *; [done |]. by apply IH.
Qed.

(** On names and counts, [adjustEntry] is [adjustCount]. *)
Lemma countsOf_adjustEntry k a b l :
  countsOf (adjustEntry k a b l) = adjustCount k b (countsOf l).
Proof.
  unfold countsOf. induction l as [| e l IH]; simpl; [done |].
  destruct (String.eqb (category e) k); simpl; [done | by rewrite IH].
Qed.

Lemma adjustCount_comm j k b b' l :
  adjustCount j b (adjustCount k b' l) = adjustCount k b' (adjustCount j b l).
Proof.
  induction l as [| e l IH]; simpl; [done |].
  destruct (String.eqb (fst e) k) eqn:Ek, (String.eqb (fst e) j) eqn:Ej;
    simpl; rewrite ?Ek, ?Ej; simpl.
  - f_equal. f_equal. lia.
  - done.
  - done.
  - by rewrite IH.
Qed.

Lemma adjustCount_inverse k b l : adjustCount k (- b) (adjustCount k b l) = l.
Proof.
  induction l as [| e l IH]; simpl; [done |].
  destruct (String.eqb (fst e) k) eqn:Ek; simpl; rewrite Ek.
  - destruct e; simpl. f_equal. f_equal. lia.
  - by rewrite IH.
Qed.

Lemma fold_touch_present c op ks l :
  (∀ k, k ∈ ks → k ∈ map category l) →
  fold_left (touchCategory c op) ks l
  = fold_left (λ acc k, adjustEntry k c (countStep op) acc) ks l.
Proof.
  revert l. induction ks as [| k ks IH]; intros l H; simpl; [done |].
  rewrite touchCategory_present by (apply H; left).
  apply IH. intros k' Hk'. rewrite adjustEntry_names. apply H. by right.
Qed.

Lemma fold_adjust_names a b ks l :
  map category (fold_left (λ acc k, adjustEntry k a b acc) ks l) = map category l.
Proof.
  revert l. induction ks as [| k ks IH]; intros l; simpl; [done |].
  by rewrite IH, adjustEntry_names.
Qed.

Lemma fold_adjust_other a b ks l (i : nat) e :
  l !! i = Some e → category e ∉ ks →
  fold_left (λ acc k, adjustEntry k a b acc) ks l !! i = Some e.
Proof.
  revert l. induction ks as [| k ks IH]; intros l Hi Hk; simpl; [done |].
  apply IH.
  - apply adjustEntry_other; [done |]. intros E. apply Hk. rewrite E. by left.
  - intros H. apply Hk. by right.
Qed.

Lemma countsOf_fold a b ks l :
  countsOf (fold_left (λ acc k, adjustEntry k a b acc) ks l)
  = fold_left (λ acc k, adjustCount k b acc) ks (countsOf l).
Proof.
  revert l. induction ks as [| k ks IH]; intros l; simpl; [done |].
  by rewrite IH, countsOf_adjustEntry.
Qed.

Lemma fold_count_comm j b b' ks l :
  adjustCount j b' (fold_left (λ acc k, adjustCount k b acc) ks l)
  = fold_left (λ acc k, adjustCount k b acc) ks (adjustCount j b' l).
Proof.
  revert l. induction ks as [| k ks IH]; intros l; simpl; [done |].
  by rewrite IH, adjustCount_comm.
Qed.

Lemma fold_count_inverse b ks l :
  fold_left (λ acc k, adjustCount k (- b) acc) ks
    (fold_left (λ acc k, adjustCount k b acc) ks l) = l.
Proof.
  revert l. induction ks as [| k ks IH]; intros l; simpl; [done |].
  rewrite fold_count_comm, adjustCount_inverse. apply IH.
Qed.

Lemma countStep_reverse d :
  countStep (operation (getReverseDelta d)) = - countStep (operation d).
Proof.
  unfold countStep. cbn [operation getReverseDelta].
  destruct (String.eqb_spec (operation d) "create") as [E | E]; [done |].
  destruct (String.eqb_spec (operation d) "delete") as [E' | E']; done.
Qed.

(** What [applyDelta] does to the category breakdown and to the counter. *)
Lemma applyDelta_breakdown s d :
  categoryBreakdown (applyDelta s d)
  = fold_left (touchCategory (balanceChange (financialImpact d)) (operation d))
      (affectedCategories (financialImpact d)) (categoryBreakdown s).
Proof.
  destruct (applyDelta_rest s d) as (_ & _ & _ & -> & _).
  assert (categoryBreakdown (updateBalance s d) = categoryBreakdown s) as E.
  { unfold updateBalance. repeat case_match; done. }
  unfold updateTransactionCount, updateCategoryBreakdown. rewrite E.
  repeat case_match; done.
Qed.

Lemma applyDelta_count s d :
  transactionCount (applyDelta s d)
  = if String.eqb (operation d) "create" then transactionCount s + 1
    else if String.eqb (operation d) "delete" then Z.max 0 (transactionCount s - 1)
    else transactionCount s.
Proof.
  destruct (applyDelta_rest s d) as (_ & _ & _ & _ & ->).
  assert (transactionCount (updateBalance s d) = transactionCount s) as E.
  { unfold updateBalance. repeat case_match; done. }
  unfold updateTransactionCount, updateCategoryBreakdown.
  repeat case_match; simpl; by rewrite E.
Qed.

(** The budgets and the goals after [applyDelta]. *)
Lemma applyDelta_budgets s d :
  budgets (applyDelta s d)
  = if String.eqb (entityType d) "budget"
    then budgets (updateBudgetInState s d) else budgets s.
Proof.
  unfold applyDelta.
  set (s3 := updateTransactionCount (updateCategoryBreakdown (updateBalance s d) d) d).
  assert (budgets s3 = budgets s) as E3.
  { subst s3.
    destruct (updateTransactionCount_keeps (updateCategoryBreakdown (updateBalance s d) d) d)
      as (_ & _ & _ & -> & _).
    destruct (updateCategoryBreakdown_keeps (updateBalance s d) d) as (_ & _ & _ & -> & _).
    by destruct (updateBalance_keeps s d) as (_ & _ & _ & -> & _). }
  assert (budgets (updateBudgetInState s3 d) = budgets (updateBudgetInState s d)) as Eb.
  { unfold updateBudgetInState. rewrite E3. repeat case_match; simpl; by rewrite ?E3. }
  destruct (String.eqb (entityType d) "budget"), (String.eqb (entityType d) "goal");
    rewrite ?(proj2 (proj2 (proj2 (updateGoalInState_keeps _ d)))); done.
Qed.

Lemma applyDelta_goals s d :
  goals (applyDelta s d)
  = if String.eqb (entityType d) "goal"
    then goals (updateGoalInState s d) else goals s.
Proof.
  unfold applyDelta.
  set (s3 := updateTransactionCount (updateCategoryBreakdown (updateBalance s d) d) d).
  assert (goals s3 = goals s) as E3.
  { subst s3.
    destruct (updateTransactionCount_keeps (updateCategoryBreakdown (updateBalance s d) d) d)
      as (_ & _ & _ & _ & ->).
    destruct (updateCategoryBreakdown_keeps (updateBalance s d) d) as (_ & _ & _ & _ & ->).
    by destruct (updateBalance_keeps s d) as (_ & _ & _ & _ & ->). }
  set (s4 := if String.eqb (entityType d) "budget" then updateBudgetInState s3 d else s3).
  assert (goals s4 = goals s) as E4.
  { subst s4. destruct (String.eqb (entityType d) "budget"); [| done].
    by destruct (updateBudgetInState_keeps s3 d) as (_ & _ & _ & ->). }
  destruct (String.eqb (entityType d) "goal"); [| done].
  unfold updateGoalInState. rewrite E4. repeat case_match; simpl; by rewrite ?E4.
Qed.

(** The accounts, the currency and the attached transactions are never
    touched. *)
Lemma applyDelta_keeps s d :
  accounts (applyDelta s d) = accounts s
  ∧ currency (applyDelta s d) = currency s
  ∧ transactions (applyDelta s d) = transactions s.
Proof.
  unfold applyDelta.
  set (s3 := updateTransactionCount (updateCategoryBreakdown (updateBalance s d) d) d).
  assert (accounts s3 = accounts s ∧ currency s3 = currency s
          ∧ transactions s3 = transactions s) as (E1 & E2 & E3).
  { subst s3.
    destruct (updateTransactionCount_keeps (updateCategoryBreakdown (updateBalance s d) d) d)
      as (-> & -> & -> & _).
    destruct (updateCategoryBreakdown_keeps (updateBalance s d) d) as (-> & -> & -> & _).
    by destruct (updateBalance_keeps s d) as (-> & -> & -> & _). }
  destruct (String.eqb (entityType d) "budget"), (String.eqb (entityType d) "goal");
    repeat match goal with
           | |- context [updateGoalInState ?x d] =>
               destruct (updateGoalInState_keeps x d) as (-> & -> & -> & _)
           | |- context [updateBudgetInState ?x d] =>
               destruct (updateBudgetInState_keeps x d) as (-> & -> & -> & _)
           end; done.
Qed.

(** *** Searching an entry by its id *)

Lemma findIndex_None {A} (p : A → bool) (l : list A) :
  findIndex p l = None ↔ ∀ x, x ∈ l → p x = false.
Proof.
  induction l as [| a l IH]; simpl.
  - split; [intros _ x Hx; by apply elem_of_nil in Hx | done].
  - destruct (p a) eqn:E.
    + split; [discriminate |]. intros H. specialize (H a ltac:(left)). congruence.
    + destruct (findIndex p l) as [i |]; simpl.
      * split; [discriminate |]. intros H.
        assert (Some i = None); [| done]. apply IH. intros x Hx. apply H. by right.
      * split; [| done]. intros _ x Hx. apply elem_of_cons in Hx as [-> | Hx]; [done |].
        by apply IH.
Qed.

Lemma findIndex_Some_lt {A} (p : A → bool) (l : list A) i :
  findIndex p l = Some i → (i < length l)%nat.
Proof.
  revert i. induction l as [| a l IH]; intros i; simpl; [discriminate |].
  destruct (p a); [intros [= <-]; lia |].
  destruct (findIndex p l) as [j |]; simpl; [| discriminate].
  intros [= <-]. specialize (IH j eq_refl). lia.
Qed.

Lemma findIndex_snoc {A} (p : A → bool) (l : list A) x :
  findIndex p (l ++ [x])
  = match findIndex p l with
    | Some i => Some i
    | None => if p x then Some (length l) else None
    end.
Proof.
  induction l as [| a l IH]; simpl; [by destruct (p x) |].
  destruct (p a); [done |]. rewrite IH.
  destruct (findIndex p l); simpl; [done |]. by destruct (p x).
Qed.

Lemma delete_snoc_lt {A} (l : list A) x i :
  (i < length l)%nat → delete i (l ++ [x]) = delete i l ++ [x].
Proof.
  revert i. induction l as [| a l IH]; intros i Hi; simpl in *; [lia |].
  destruct i; [done |]. simpl. f_equal. apply IH. lia.
Qed.

(** A budget created and then deleted by its id. *)
Lemma budget_created_deleted s d d' a :
  operation d = "create" → afterState d = Some a →
  operation d' = "delete" → entityId d' = entityId d →
  budgets (updateBudgetInState (updateBudgetInState s d) d')
  = match findIndex (λ b, String.eqb (budgetId b) (entityId d)) (budgets s) with
    | None => budgets s
    | Some i => delete i (budgets s) ++ [budgetOf (entityId d) a]
    end.
Proof.
  intros Hop Ha Hop' Hid.
  assert (updateBudgetInState s d
          = set_budgets s (budgets s ++ [budgetOf (entityId d) a])) as E1.
  { unfold updateBudgetInState. by rewrite Hop, Ha. }
  rewrite E1. unfold updateBudgetInState. rewrite Hop', Hid. simpl.
  rewrite findIndex_snoc. simpl. rewrite String.eqb_refl.
  destruct (findIndex _ (budgets s)) as [i |] eqn:Ei; simpl.
  - destruct (afterState d'); simpl;
      apply delete_snoc_lt; by eapply findIndex_Some_lt.
  - destruct (afterState d'); simpl;
      rewrite (delete_middle (budgets s) []); by rewrite app_nil_r.
Qed.

Lemma goal_created_deleted s d d' a :
  operation d = "create" → afterState d = Some a →
  operation d' = "delete" → entityId d' = entityId d →
  goals (updateGoalInState (updateGoalInState s d) d')
  = match findIndex (λ g, String.eqb (goalId g) (entityId d)) (goals s) with
    | None => goals s
    | Some i => delete i (goals s) ++ [goalOf (entityId d) a]
    end.
Proof.
  intros Hop Ha Hop' Hid.
  assert (updateGoalInState s d
          = set_goals s (goals s ++ [goalOf (entityId d) a])) as E1.
  { unfold updateGoalInState. by rewrite Hop, Ha. }
  rewrite E1. unfold updateGoalInState. rewrite Hop', Hid. simpl.
  rewrite findIndex_snoc. simpl. rewrite String.eqb_refl.
  destruct (findIndex _ (goals s)) as [i |] eqn:Ei; simpl.
  - destruct (afterState d'); simpl;
      apply delete_snoc_lt; by eapply findIndex_Some_lt.
  - destruct (afterState d'); simpl;
      rewrite (delete_middle (goals s) []); by rewrite app_nil_r.
Qed.

(** The budgets (the goals) after an update depend on the budgets (the
    goals) before only. *)
Lemma updateBudgetInState_budgets s1 s2 d :
  budgets s1 = budgets s2 →
  budgets (updateBudgetInState s1 d) = budgets (updateBudgetInState s2 d).
Proof.
  intros E. unfold updateBudgetInState. rewrite E. repeat case_match; simpl; by rewrite ?E.
Qed.

Lemma updateGoalInState_goals s1 s2 d :
  goals s1 = goals s2 →
  goals (updateGoalInState s1 d) = goals (updateGoalInState s2 d).
Proof.
  intros E. unfold updateGoalInState. rewrite E. repeat case_match; simpl; by rewrite ?E.
Qed.

(** A create under a new id, then its reverse. *)
Lemma budgets_round_trip s d :
  operation d = "create" →
  (∀ b, b ∈ budgets s → budgetId b ≠ entityId d) →
  budgets (updateBudgetInState (updateBudgetInState s d) (getReverseDelta d)) = budgets s.
Proof.
  intros Hop Hnew.
  assert (findIndex (λ b, String.eqb (budgetId b) (entityId d)) (budgets s) = None) as E.
  { apply findIndex_None. intros b Hb. apply String.eqb_neq. by apply Hnew. }
  assert (operation (getReverseDelta d) = "delete") as Hop'.
  { cbn [operation getReverseDelta]. by rewrite Hop. }
  destruct (afterState d) as [a |] eqn:Ea.
  - rewrite (budget_created_deleted s d (getReverseDelta d) a) by done. by rewrite E.
  - assert (updateBudgetInState s d = s) as ->.
    { unfold updateBudgetInState. by rewrite Hop, Ea, E. }
    unfold updateBudgetInState. rewrite Hop'. cbn [entityId getReverseDelta].
    rewrite E. by destruct (afterState (getReverseDelta d)).
Qed.

Lemma goals_round_trip s d :
  operation d = "create" →
  (∀ g, g ∈ goals s → goalId g ≠ entityId d) →
  goals (updateGoalInState (updateGoalInState s d) (getReverseDelta d)) = goals s.
Proof.
  intros Hop Hnew.
  assert (findIndex (λ g, String.eqb (goalId g) (entityId d)) (goals s) = None) as E.
  { apply findIndex_None. intros g Hg. apply String.eqb_neq. by apply Hnew. }
  assert (operation (getReverseDelta d) = "delete") as Hop'.
  { cbn [operation getReverseDelta]. by rewrite Hop. }
  destruct (afterState d) as [a |] eqn:Ea.
  - rewrite (goal_created_deleted s d (getReverseDelta d) a) by done. by rewrite E.
  - assert (updateGoalInState s d = s) as ->.
    { unfold updateGoalInState. by rewrite Hop, Ea, E. }
    unfold updateGoalInState. rewrite Hop'. cbn [entityId getReverseDelta].
    rewrite E. by destruct (afterState (getReverseDelta d)).
Qed.

(** C4 (amended): applying a delta and then its reverse delta does not give
    the state back in general.  What it gives: a change that is zero or NaN
    leaves the three totals; otherwise [totalBalance] has the change added
    and then subtracted in binary64 arithmetic, and [totalIncome] and
    [totalExpenses] both end with the absolute value of the change added.
    [transactionCount] comes back when the counter was not negative and the
    delta is not a delete applied at counter 0.  When every affected
    category already had an entry, the breakdown keeps its entries with
    their names and transaction counts, and the entries of the other
    categories whole.  The budgets (the goals) come back when the delta is
    not about a budget (a goal), or creates one under an id the state does
    not hold.  The accounts, the currency and the attached transactions are
    never touched. *)
Theorem reverse_delta_round_trip s d :
  let s' := applyDelta (applyDelta s d) (getReverseDelta d) in
  let c := balanceChange (financialImpact d) in
  (truthy c = false →
     totalBalance s' = totalBalance s ∧ totalIncome s' = totalIncome s
     ∧ totalExpenses s' = totalExpenses s)
  ∧ (truthy c = true →
     totalBalance s' = (or0 (or0 (totalBalance s) + c) + - c)%float
     ∧ totalIncome s' = (or0 (totalIncome s) + abs c)%float
     ∧ totalExpenses s' = (or0 (totalExpenses s) + abs c)%float)
  ∧ (operation d ≠ "delete" → 0 ≤ transactionCount s →
       transactionCount s' = transactionCount s)
  ∧ (operation d = "delete" → 1 ≤ transactionCount s →
       transactionCount s' = transactionCount s)
  ∧ ((∀ k, k ∈ affectedCategories (financialImpact d) →
            k ∈ map category (categoryBreakdown s)) →
       countsOf (categoryBreakdown s') = countsOf (categoryBreakdown s)
       ∧ ∀ (i : nat) e, categoryBreakdown s !! i = Some e →
                        category e ∉ affectedCategories (financialImpact d) →
                        categoryBreakdown s' !! i = Some e)
  ∧ (entityType d ≠ "budget"
     ∨ (operation d = "create" ∧ ∀ b, b ∈ budgets s → budgetId b ≠ entityId d) →
       budgets s' = budgets s)
  ∧ (entityType d ≠ "goal"
     ∨ (operation d = "create" ∧ ∀ g, g ∈ goals s → goalId g ≠ entityId d) →
       goals s' = goals s)
  ∧ accounts s' = accounts s ∧ currency s' = currency s
  ∧ transactions s' = transactions s.
Proof.
  intros s' c. subst s'.
  destruct (applyDelta_totals (applyDelta s d) (getReverseDelta d)) as (Hb & Hi & He).
  destruct (applyDelta_totals s d) as (Hb' & Hi' & He').
  cbn [financialImpact getReverseDelta balanceChange] in Hb, Hi, He.
  fold c in Hb, Hi, He, Hb', Hi', He'.
  destruct (opp_tests c) as (Ht & Hpos & Hneg).
  rewrite Ht in Hb, Hi, He.
  split_and!.
  - intros Hc. rewrite Hc in Hb, Hi, He, Hb', Hi', He'. simpl in Hi, He, Hi', He'.
    by rewrite Hb, Hi, He, Hb', Hi', He'.
  - intros Hc. rewrite Hc in Hb, Hi, He, Hb', Hi', He'. simpl in Hi, He, Hi', He'.
    destruct (0 <? c)%float eqn:Ep.
    + destruct (Hpos eq_refl) as (Hn & _ & Ha & Ha'). rewrite Hn in Hi, He.
      simpl in Hi, He. rewrite Hb, Hi, He, Hb', Hi', He', Ha, Ha'. done.
    + destruct (Hneg Hc eq_refl) as (Hn & Ha & Ha'). rewrite Hn in Hi, He.
      simpl in Hi, He. rewrite Hb, Hi, He, Hb', Hi', He', Ha. done.
  - intros Hop Hn. rewrite !applyDelta_count. cbn [operation getReverseDelta].
    destruct (String.eqb_spec (operation d) "create") as [E | E]; [simpl; lia |].
    destruct (String.eqb_spec (operation d) "delete") as [E' | E']; done.
  - intros Hop Hn. rewrite !applyDelta_count. cbn [operation getReverseDelta].
    rewrite Hop. simpl. lia.
  - intros Hall. rewrite !applyDelta_breakdown.
    cbn [financialImpact getReverseDelta balanceChange affectedCategories].
    rewrite (fold_touch_present _ _ _ (categoryBreakdown s)) by exact Hall.
    rewrite fold_touch_present
      by (intros k Hk; rewrite fold_adjust_names; by apply Hall).
    split.
    + rewrite !countsOf_fold, countStep_reverse. apply fold_count_inverse.
    + intros i e Hi0 Hk. apply fold_adjust_other; [| done].
      by apply fold_adjust_other.
  - intros H. rewrite !applyDelta_budgets. cbn [entityType getReverseDelta].
    destruct (String.eqb_spec (entityType d) "budget") as [E | E]; [| done].
    destruct H as [H | [Hop Hnew]]; [done |].
    rewrite (updateBudgetInState_budgets _ (updateBudgetInState s d)).
    + by apply budgets_round_trip.
    + rewrite applyDelta_budgets. by rewrite (proj2 (String.eqb_eq _ _) E).
  - intros H. rewrite !applyDelta_goals. cbn [entityType getReverseDelta].
    destruct (String.eqb_spec (entityType d) "goal") as [E | E]; [| done].
    destruct H as [H | [Hop Hnew]]; [done |].
    rewrite (updateGoalInState_goals _ (updateGoalInState s d)).
    + by apply goals_round_trip.
    + rewrite applyDelta_goals. by rewrite (proj2 (String.eqb_eq _ _) E).
  - destruct (applyDelta_keeps (applyDelta s d) (getReverseDelta d)) as (-> & _).
    by destruct (applyDelta_keeps s d) as (-> & _).
  - destruct (applyDelta_keeps (applyDelta s d) (getReverseDelta d)) as (_ & -> & _).
    by destruct (applyDelta_keeps s d) as (_ & -> & _).
  - destruct (applyDelta_keeps (applyDelta s d) (getReverseDelta d)) as (_ & _ & ->).
    by destruct (applyDelta_keeps s d) as (_ & _ & ->).
Qed.

End ReverseFacts.

(** Scenario: a 500 expense created and then deleted on the zeroed state. *)
Lemma applyDelta_books_by_sign_witness :
  let s' := ReplayEngine.applyDelta
              (ReplayEngine.applyDelta ReplayEngine.emptyState Scenario.created500)
              Scenario.deleted500 in
  (0 <? Ledger.balanceChange (Ledger.financialImpact Scenario.deleted500))%float = true
  ∧ Ledger.totalIncome s' = 500%float
  ∧ Ledger.totalExpenses s' = 500%float
  ∧ Ledger.totalBalance s' = 0%float
  ∧ (Ledger.totalIncome ReplayEngine.emptyState <=? Ledger.totalIncome s')%float = true
  ∧ (Ledger.totalExpenses ReplayEngine.emptyState <=? Ledger.totalExpenses s')%float = true.
Proof.
  destruct applyDelta_books_by_sign as (_ & _ & _ & H).
  destruct (H ReplayEngine.emptyState "e1" Scenario.expense500)
    as (Hd & Ei & Ee & Eb & Hi & He).
  - vm_compute. discriminate.
  - vm_compute. reflexivity.
  - split_and!.
    + exact Hd.
    + exact Ei.
    + exact Ee.
    + exact Eb.
    + apply Hi. vm_compute. reflexivity.
    + apply He. vm_compute. reflexivity.
Defined.

(** C10, as stated, fails on binary64 numbers.  An expense of 19.99
    created and then deleted on a balance of 1.01 leaves the balance at
    1.0100000000000016; an expense of 1 created and then deleted on an
    income total of 2^53 leaves that total where it was, not above. *)
Lemma create_delete_balance_drifts :
  let s := ReplayEngine.applyDelta ReplayEngine.emptyState
             (Scenario.created "i1" Scenario.income101) in
  let s' := ReplayEngine.applyDelta
              (ReplayEngine.applyDelta s (Scenario.created "e1" Scenario.expense1999))
              (Scenario.deleted "e1" Scenario.expense1999) in
  let b := ReplayEngine.applyDelta ReplayEngine.emptyState
             (Scenario.created "i2" Scenario.incomeHuge) in
  let b' := ReplayEngine.applyDelta
              (ReplayEngine.applyDelta b (Scenario.created "e2" Scenario.expense1))
              (Scenario.deleted "e2" Scenario.expense1) in
  Ledger.totalBalance s = 1.01%float
  ∧ Ledger.totalBalance s' = 1.0100000000000016%float
  ∧ (Ledger.totalBalance s' =? Ledger.totalBalance s)%float = false
  ∧ Ledger.totalBalance s' ≠ Ledger.totalBalance s
  ∧ Ledger.totalIncome b = 9007199254740992%float
  ∧ Ledger.totalIncome b' = 9007199254740992%float
  ∧ (Ledger.totalIncome b <? Ledger.totalIncome b')%float = false.
Proof.
  split_and!; try (vm_compute; reflexivity).
  intros H. apply (f_equal (λ x, (x =? 1.01)%float)) in H. vm_compute in H. discriminate.
Qed.

(** C4, as stated, fails.  Creating a 500 expense on the zeroed state and
    applying the reverse delta leaves 500 on both [totalIncome] and
    [totalExpenses] and an emptied entry in the category breakdown; an
    income of 0.2 added to a balance of 0.1 and reversed leaves
    0.10000000000000003; deleting the first of two budgets and reversing
    puts it back behind the second. *)
Lemma reverse_delta_leaves_traces :
  let s' := ReplayEngine.applyDelta
              (ReplayEngine.applyDelta ReplayEngine.emptyState Scenario.created500)
              (Ledger.getReverseDelta Scenario.created500) in
  let t := ReplayEngine.applyDelta ReplayEngine.emptyState
             (Scenario.created "i1" Scenario.income01) in
  let t' := ReplayEngine.applyDelta
              (ReplayEngine.applyDelta t (Scenario.created "i2" Scenario.income02))
              (Ledger.getReverseDelta (Scenario.created "i2" Scenario.income02)) in
  let u' := ReplayEngine.applyDelta
              (ReplayEngine.applyDelta Cases.twoBudgets Cases.budgetDelete)
              (Ledger.getReverseDelta Cases.budgetDelete) in
  s' ≠ ReplayEngine.emptyState
  ∧ Ledger.totalBalance s' = 0%float
  ∧ Ledger.transactionCount s' = 0
  ∧ Ledger.totalIncome s' = 500%float
  ∧ Ledger.totalExpenses s' = 500%float
  ∧ Ledger.categoryBreakdown s'
    = [ {| Ledger.category := "food"; Ledger.amount := 0%float;
           Ledger.cat_transactionCount := 0 |} ]
  ∧ Ledger.totalBalance t = 0.1%float
  ∧ Ledger.totalBalance t' = 0.10000000000000003%float
  ∧ t' ≠ t
  ∧ Ledger.budgetId <$> Ledger.budgets Cases.twoBudgets = ["b1"; "b2"]
  ∧ Ledger.budgetId <$> Ledger.budgets u' = ["b2"; "b1"]
  ∧ u' ≠ Cases.twoBudgets.
Proof.
  split_and!; try (vm_compute; reflexivity).
  - intros H. apply (f_equal (λ x, length (Ledger.categoryBreakdown x))) in H.
    vm_compute in H. discriminate.
  - intros H. apply (f_equal (λ x, (Ledger.totalBalance x =? 0.1)%float)) in H.
    vm_compute in H. discriminate.
  - intros H. apply (f_equal (λ x, Ledger.budgetId <$> Ledger.budgets x)) in H.
    vm_compute in H. discriminate.
Qed.

(** A second 500 expense on a state that already has the category,
    then reversed. *)
Lemma reverse_delta_round_trip_witness :
  let s := ReplayEngine.applyDelta ReplayEngine.emptyState Scenario.created500 in
  let s' := ReplayEngine.applyDelta
              (ReplayEngine.applyDelta s Scenario.created500)
              (Ledger.getReverseDelta Scenario.created500) in
  Ledger.totalBalance s' = Ledger.totalBalance s
  ∧ Ledger.transactionCount s' = Ledger.transactionCount s
  ∧ ReplayEngine.countsOf (Ledger.categoryBreakdown s')
    = ReplayEngine.countsOf (Ledger.categoryBreakdown s)
  ∧ Ledger.budgets s' = Ledger.budgets s
  ∧ Ledger.totalExpenses s' = 1000%float
  ∧ Ledger.totalIncome s' = 500%float.
Proof.
  intros s s'.
  destruct (reverse_delta_round_trip s Scenario.created500)
    as (_ & Ht & Hn & _ & Hc & Hb & _).
  destruct Ht as (Eb & Ei & Ee); [vm_compute; reflexivity |].
  subst s'. split_and!.
  - rewrite Eb. vm_compute. reflexivity.
  - apply Hn; [vm_compute; discriminate | vm_compute; discriminate].
  - apply Hc. intros k Hk.
    apply list_elem_of_singleton in Hk as ->. apply list_elem_of_singleton. done.
  - apply Hb. left. vm_compute. discriminate.
  - rewrite Ee. vm_compute. reflexivity.
  - rewrite Ei. vm_compute. reflexivity.
Defined.


(** ** Sorting and filtering a collection *)

Section SortFacts.
Import Ledger.

Context {A : Type} (key : A → Z).

Lemma elem_of_insert_by x y (l : list A) :
  y ∈ insert_by key x l ↔ y = x ∨ y ∈ l.
Proof.
  induction l as [| a l IH]; simpl.
  - rewrite list_elem_of_singleton. rewrite elem_of_nil. tauto.
  - destruct (key x <=? key a).
    + rewrite elem_of_cons. tauto.
    + rewrite !elem_of_cons, IH. tauto.
Qed.

Lemma elem_of_sort_by y (l : list A) : y ∈ sort_by key l ↔ y ∈ l.
Proof.
  induction l as [| a l IH]; simpl; [done |].
  rewrite elem_of_insert_by, elem_of_cons, IH. tauto.
Qed.

(** An element not above anything in the second part is inserted in the
    first part. *)
Lemma insert_by_app_l x (l1 l2 : list A) :
  (∀ b, b ∈ l2 → key x ≤ key b) →
  insert_by key x (l1 ++ l2) = insert_by key x l1 ++ l2.
Proof.
  intros H. induction l1 as [| a l1 IH]; simpl.
  - destruct l2 as [| b l2]; simpl; [done |].
    destruct (Z.leb_spec (key x) (key b)) as [_ | Hlt]; [done |].
    specialize (H b ltac:(left)). lia.
  - destruct (key x <=? key a); [done | by rewrite IH].
Qed.




(** The first element of a sorted list has the least key. *)
Lemma head_sort_by_least x (l : list A) :
  head (sort_by key l) = Some x → ∀ y, y ∈ l → key x ≤ key y.
Proof.
  revert x. induction l as [| a l IH]; intros x Hx y Hy; [by apply elem_of_nil in Hy |].
  simpl in Hx.
  destruct (sort_by key l) as [| h t] eqn:E; simpl in Hx.
  - inversion Hx; subst. apply elem_of_cons in Hy as [-> | Hy]; [lia |].
    apply elem_of_sort_by in Hy. rewrite E in Hy. by apply elem_of_nil in Hy.
  - specialize (IH h eq_refl).
    destruct (Z.leb_spec (key a) (key h)) as [Hle | Hgt]; simpl in Hx;
      inversion Hx; subst; apply elem_of_cons in Hy as [-> | Hy];
      try lia; specialize (IH y Hy); lia.
Qed.

End SortFacts.

(** ** Replay *)

Section ReplayFacts.
Import Ledger ReplayEngine Writers SnapshotGenerator History.




(** [findClosestSnapshot] returns a stored snapshot of the user, dated at
    or before the target, and none of those is later. *)
Lemma findClosestSnapshot_Some db userId target sn :
  findClosestSnapshot db userId target = Some sn →
  sn ∈ snapshots db ∧ snap_user sn = userId ∧ snapshotDate sn ≤ target
  ∧ ∀ sn', sn' ∈ snapshots db → snap_user sn' = userId → snapshotDate sn' ≤ target →
           snapshotDate sn' ≤ snapshotDate sn.
Proof.
  unfold findClosestSnapshot, sort_by_desc. intros H.
  pose proof (head_Some_elem_of _ _ H) as Hin.
  apply elem_of_sort_by, list_elem_of_filter in Hin as [[Hu Hd] Hin].
  split_and!; auto.
  intros sn' Hin' Hu' Hd'.
  pose proof (head_sort_by_least _ _ _ H sn') as Hleast. simpl in Hleast.
  assert (- snapshotDate sn ≤ - snapshotDate sn'); [| lia].
  apply Hleast. apply list_elem_of_filter. auto.
Qed.

Lemma findClosestSnapshot_None db userId target :
  findClosestSnapshot db userId target = None →
  ∀ sn, sn ∈ snapshots db → snap_user sn = userId → target < snapshotDate sn.
Proof.
  unfold findClosestSnapshot, sort_by_desc. intros H sn Hin Hu.
  destruct (decide (snapshotDate sn ≤ target)) as [Hle | Hgt]; [| lia].
  assert (sn ∈ sort_by (λ x, - snapshotDate x)
            (filter (λ sn, snap_user sn = userId ∧ snapshotDate sn ≤ target) (snapshots db)))
    as Hs.
  { apply elem_of_sort_by, list_elem_of_filter. auto. }
  destruct (sort_by _ _); [by apply elem_of_nil in Hs | discriminate].
Qed.





(** *** Faithfulness is kept by the writers *)







(** The three totals of a replay do not depend on its options. *)
Lemma replayToDate_totals_options db userId target options :
  totalBalance (rstate (replayToDate db userId target options))
    = totalBalance (rstate (replayToDate db userId target bareOptions))
  ∧ totalIncome (rstate (replayToDate db userId target options))
    = totalIncome (rstate (replayToDate db userId target bareOptions))
  ∧ totalExpenses (rstate (replayToDate db userId target options))
    = totalExpenses (rstate (replayToDate db userId target bareOptions)).
Proof.
  unfold ReplayEngine.replayToDate.
  destruct (findClosestSnapshot db userId target), (includeTransactions options); done.
Qed.

End ReplayFacts.




(** ** Sampling the evolution *)

Section EvolutionFacts.
Import Ledger ReplayEngine.

Variable localTZA : Z → bool → Z.
Variable addMonth : Z → Z.

Local Abbreviation getStateEvolution := (ReplayEngine.getStateEvolution localTZA addMonth).
Local Abbreviation evolutionLoop := (ReplayEngine.evolutionLoop localTZA addMonth).
Local Abbreviation addDays := (ReplayEngine.addDays localTZA).
Local Abbreviation fixedOffset := (ReplayEngine.fixedOffset localTZA).

(** While the offset of the host does not change, [n] days later on the
    local calendar is [n] times 24 hours later. *)
Lemma addDays_fixed off lo hi n t :
  fixedOffset off lo hi → lo ≤ t ≤ hi → lo ≤ t + n * day ≤ hi →
  addDays n t = t + n * day.
Proof.
  intros Hfix Ht Hn. unfold ReplayEngine.addDays, utc, localTime.
  rewrite (Hfix t true) by done.
  rewrite (Hfix (t + off + n * day) false) by lia. lia.
Qed.

Lemma evolutionLoop_step fuel db userId current endDate interval n acc :
  (interval = "daily" ∧ n = 1) ∨ (interval = "weekly" ∧ n = 7) →
  current ≤ endDate →
  evolutionLoop (S fuel) db userId current endDate interval acc
  = evolutionLoop fuel db userId (addDays n current) endDate interval
      (acc ++ [sampleOf current (replayToDate db userId current bareOptions)]).
Proof.
  intros Hint H. cbn [ReplayEngine.evolutionLoop].
  destruct (Z.leb_spec current endDate); [| lia].
  destruct Hint as [[-> ->] | [-> ->]]; reflexivity.
Qed.

Lemma evolutionLoop_stop fuel db userId current endDate interval acc :
  endDate < current →
  evolutionLoop (S fuel) db userId current endDate interval acc = Some acc.
Proof.
  intros H. cbn [ReplayEngine.evolutionLoop].
  destruct (Z.leb_spec current endDate); [lia | reflexivity].
Qed.

(** C9 (amended): on a host whose time zone keeps one offset from the
    start date to four days later, [getStateEvolution] with interval
    [daily] and an end date three days (72 hours) after the start date
    returns (given fuel for its five loop tests) exactly four samples,
    dated at the start and one, two and three days later; the balance,
    income and expenses of each sample are those of [replayToDate] at the
    date of the sample, whatever the options of that call. *)
Theorem getStateEvolution_three_days db userId startDate off (n : nat) :
  fixedOffset off startDate (startDate + 4 * day) →
  let sample d := sampleOf d (replayToDate db userId d bareOptions) in
  getStateEvolution (5 + n) db userId startDate (startDate + 3 * day) "daily"
  = Some [ sample startDate; sample (startDate + day);
           sample (startDate + 2 * day); sample (startDate + 3 * day) ]
  ∧ ∀ d options,
      sample_date (sample d) = d
      ∧ sample_balance (sample d) = totalBalance (rstate (replayToDate db userId d options))
      ∧ income (sample d) = totalIncome (rstate (replayToDate db userId d options))
      ∧ sample_expenses (sample d)
        = totalExpenses (rstate (replayToDate db userId d options)).
Proof.
  intros Hfix sample. split.
  - unfold ReplayEngine.getStateEvolution. cbn [Nat.add].
    assert (0 < day) as Hday by reflexivity.
    assert (∀ t, startDate ≤ t ≤ startDate + 3 * day → addDays 1 t = t + day) as Hstep.
    { intros t Ht. rewrite (addDays_fixed off startDate (startDate + 4 * day)); try done; lia. }
    rewrite (evolutionLoop_step _ _ _ _ _ _ 1) by (by left || lia).
    rewrite Hstep by lia.
    rewrite (evolutionLoop_step _ _ _ _ _ _ 1) by (by left || lia).
    rewrite Hstep by lia.
    rewrite (evolutionLoop_step _ _ _ _ _ _ 1) by (by left || lia).
    rewrite Hstep by lia.
    rewrite (evolutionLoop_step _ _ _ _ _ _ 1) by (by left || lia).
    rewrite Hstep by lia.
    rewrite evolutionLoop_stop by lia.
    replace (startDate + day + day) with (startDate + 2 * day) by lia.
    replace (startDate + 2 * day + day) with (startDate + 3 * day) by lia.
    reflexivity.
  - intros d options.
    destruct (replayToDate_totals_options db userId d options) as (-> & -> & ->).
    done.
Qed.

End EvolutionFacts.

(** Three days from noon of 31 October 2026 on a host in India. *)
Lemma getStateEvolution_three_days_witness :
  length <$> ReplayEngine.getStateEvolution Scenario.kolkata Scenario.month30 5 Scenario.db3
               "u1" Scenario.halloweenNoon
               (Scenario.halloweenNoon + 3 * ReplayEngine.day) "daily"
  = Some 4%nat.
Proof.
  pose proof (getStateEvolution_three_days Scenario.kolkata Scenario.month30 Scenario.db3
                "u1" Scenario.halloweenNoon 19800000 0) as [H _].
  - intros t isUTC _. reflexivity.
  - simpl Nat.add in H. rewrite H. reflexivity.
Defined.

(** C9, as stated, fails on a host whose clocks change.  In New York the
    night from 31 October to 1 November 2026 lasts 25 hours: from noon of
    31 October with the end 72 hours later, the samples are dated at the
    start and 25 and 49 hours later, and the next local noon, 73 hours
    after the start, is past the end: three samples. *)
Lemma getStateEvolution_clock_change :
  map ReplayEngine.sample_date
    <$> ReplayEngine.getStateEvolution Scenario.newYork Scenario.month30 10 Scenario.db3
          "u1" Scenario.halloweenNoon
          (Scenario.halloweenNoon + 3 * ReplayEngine.day) "daily"
  = Some [ Scenario.halloweenNoon;
           Scenario.halloweenNoon + 25 * Scenario.hour;
           Scenario.halloweenNoon + 49 * Scenario.hour ]
  ∧ length <$> ReplayEngine.getStateEvolution Scenario.newYork Scenario.month30 10
                 Scenario.db3 "u1" Scenario.halloweenNoon
                 (Scenario.halloweenNoon + 3 * ReplayEngine.day) "daily"
    = Some 3%nat.
Proof. split; vm_compute; reflexivity. Qed.

(** * Further properties of the code *)

(** ** reconcile: what it stores *)

Section ReconcileFrame.
Import VectorClock ConsensusEngine.

Variable hash : doc → string.

(** X1: [reconcile] never touches the transactions and never changes or
    drops a stored conflict; it answers [ignore], [update] or [conflict],
    appends exactly one entry when it answers [conflict] and returns the
    collections as they were otherwise. *)
Theorem reconcile_store_frame st tx cu cc dev :
  let r := reconcile hash st tx cu cc dev in
  transactions r.1 = transactions st
  ∧ conflicts st `prefix_of` conflicts r.1
  ∧ (action r.2 = "ignore" ∨ action r.2 = "update" ∨ action r.2 = "conflict")
  ∧ (action r.2 = "conflict" → length (conflicts r.1) = S (length (conflicts st)))
  ∧ (action r.2 ≠ "conflict" → r.1 = st).
Proof.
  cbv zeta. rewrite reconcile_unfold. unfold reconcile_relation.
  repeat case_match; simpl; split_and!; auto; try done;
    try (by eexists); try (intros _; rewrite length_app; simpl; lia).
Qed.

(** X2: the defensive branch is taken exactly by a relation label outside
    [smaller], [greater], [concurrent] and [equal] (a comparator answering
    [less], say): such a label is ignored as [unknown_relation] and nothing
    is stored. *)
Theorem reconcile_relation_fallback r st tx cu sc cc :
  ((reconcile_relation hash r st tx cu sc cc).2 = ignore "unknown_relation"
   ↔ r ≠ "smaller" ∧ r ≠ "greater" ∧ r ≠ "concurrent" ∧ r ≠ "equal")
  ∧ ((reconcile_relation hash r st tx cu sc cc).2 = ignore "unknown_relation" →
     (reconcile_relation hash r st tx cu sc cc).1 = st).
Proof.
  unfold reconcile_relation.
  destruct (String.eqb_spec r "smaller") as [-> | H1]; simpl.
  { split; [split; [discriminate | intros (? & _); done] | done]. }
  destruct (String.eqb_spec r "greater") as [-> | H2]; simpl.
  { split; [split; [discriminate | intros (_ & ? & _); done] | done]. }
  destruct (String.eqb_spec r "concurrent") as [-> | H3]; simpl.
  { split; [split; [discriminate | intros (_ & _ & ? & _); done] | discriminate]. }
  destruct (String.eqb_spec r "equal") as [-> | H4]; simpl.
  { case_match; simpl;
      (split; [split; [discriminate | intros (_ & _ & _ & ?); done] | done]). }
  split; [split; [done | done] | done].
Qed.

End ReconcileFrame.

(** ** resolveConflict: failures and effects *)

Section ResolveEffects.
Import VectorClock ConsensusEngine Resolution.

(** [resolveConflict] in terms of its two halves. *)
Lemma resolveConflict_unfold saves now st id strategy rd :
  resolveConflict saves now st id strategy rd =
  match conflicts st !! id with
  | None => (st, inl (Error "Conflict record not found"))
  | Some c =>
    match finalDataOf strategy c rd with
    | None => (st, inl (Error "Invalid resolution strategy"))
    | Some fd =>
      match populate st c with
      | None => (st, inl TypeError)
      | Some (tid, tx) =>
        match saveTransaction saves (resolvedRecord fd tx) with
        | Some e => (st, inl e)
        | None =>
          match saveConflict saves (mark_resolved c strategy now) with
          | Some e =>
            ({| transactions := <[tid := resolvedRecord fd tx]> (transactions st);
                conflicts := conflicts st |},
             inl e)
          | None =>
            ({| transactions := <[tid := resolvedRecord fd tx]> (transactions st);
                conflicts := <[id := mark_resolved c strategy now]> (conflicts st) |},
             inr (resolvedRecord fd tx))
          end
        end
      end
    end
  end.
Proof. reflexivity. Qed.


Lemma populate_Some st c tid tx :
  populate st c = Some (tid, tx) →
  transactionId c = Some (VStr tid) ∧ transactions st !! tid = Some tx.
Proof.
  unfold populate. destruct (transactionId c) as [[] |]; try discriminate.
  destruct (transactions st !! s) eqn:E; simpl; [| discriminate].
  intros [= <- <-]. done.
Qed.


(** The counter a resolution writes. *)
Lemma resolvedRecord_count fd tx :
  resolvedRecord fd tx !! "syncMetadata.conflictsCount"
  = Some (decremented ((fd ∪ tx) !! "syncMetadata.conflictsCount")).
Proof.
  unfold resolvedRecord, doc_set. rewrite lookup_insert_ne by done.
  rewrite lookup_insert_eq. by rewrite lookup_insert_ne.
Qed.

(** X4: a successful [resolveConflict] rewrites one transaction and one
    conflict only: the record returned is the one stored under the id the
    conflict refers to, the conflict is marked resolved with the strategy
    and the time of the call, and every other transaction and every other
    conflict is as before; the record is [synced].  Its conflict counter is
    the counter the record has once the chosen state is applied, less one
    and not below 0; when the record has no counter then, the counter
    written is NaN. *)
Theorem resolveConflict_effects saves now st id strategy rd tx' :
  (resolveConflict saves now st id strategy rd).2 = inr tx' →
  let st' := (resolveConflict saves now st id strategy rd).1 in
  ∃ c tid stored fd,
    conflicts st !! id = Some c
    ∧ transactionId c = Some (VStr tid)
    ∧ transactions st !! tid = Some stored
    ∧ finalDataOf strategy c rd = Some fd
    ∧ transactions st' !! tid = Some tx'
    ∧ (∀ t, t ≠ tid → transactions st' !! t = transactions st !! t)
    ∧ conflicts st' !! id = Some (mark_resolved c strategy now)
    ∧ (∀ j, j ≠ id → conflicts st' !! j = conflicts st !! j)
    ∧ length (conflicts st') = length (conflicts st)
    ∧ tx' !! "syncMetadata.syncStatus" = Some (VStr "synced")
    ∧ (∀ n, (fd ∪ stored) !! "syncMetadata.conflictsCount" = Some (VNum n) →
         tx' !! "syncMetadata.conflictsCount" = Some (VNum (Z.max 0 (n - 1))))
    ∧ ((fd ∪ stored) !! "syncMetadata.conflictsCount" = None →
         tx' !! "syncMetadata.conflictsCount" = Some VNaN)
    ∧ (tx' !! "syncMetadata.conflictsCount" = Some VNaN
       ∨ ∃ n, tx' !! "syncMetadata.conflictsCount" = Some (VNum n) ∧ 0 ≤ n).
Proof.
  cbv zeta. rewrite resolveConflict_unfold.
  destruct (conflicts st !! id) as [c |] eqn:Ec; simpl; [| discriminate].
  destruct (finalDataOf strategy c rd) as [fd |] eqn:Ef; simpl; [| discriminate].
  destruct (populate st c) as [[tid tx] |] eqn:Ep; simpl; [| discriminate].
  destruct (saveTransaction saves (resolvedRecord fd tx)); simpl; [discriminate |].
  destruct (saveConflict saves (mark_resolved c strategy now)); simpl; [discriminate |].
  intros [= <-]. exists c, tid, tx, fd.
  destruct (populate_Some _ _ _ _ Ep) as [Hid Hst].
  split_and!; auto.
  - by rewrite lookup_insert_eq.
  - intros t Ht. by rewrite lookup_insert_ne.
  - apply list_lookup_insert_eq. by eapply lookup_lt_Some.
  - intros j Hj. by rewrite list_lookup_insert_ne.
  - apply length_insert.
  - unfold resolvedRecord. rewrite lookup_insert_ne by done.
    rewrite lookup_insert_ne by done. by rewrite lookup_insert_eq.
  - intros n Hn. by rewrite resolvedRecord_count, Hn.
  - intros Hn. by rewrite resolvedRecord_count, Hn.
  - rewrite resolvedRecord_count.
    destruct ((fd ∪ tx) !! "syncMetadata.conflictsCount") as [[] |]; simpl;
      try (by left); right; eexists; (split; [reflexivity | lia]).
Qed.

(** The record a resolution writes, path by path. *)
Lemma resolvedRecord_lookup fd tx path :
  ¬ reservedPath path → resolvedRecord fd tx !! path = (fd ∪ tx) !! path.
Proof.
  intros H. unfold reservedPath in H. unfold resolvedRecord, doc_set.
  rewrite !lookup_insert_ne; [done | | |]; intros <-; tauto.
Qed.

(** X5: apart from the sync status, the conflict counter and the vector
    clock, the record that a resolution writes takes each path from the
    state the strategy selects and keeps its own value where that state has
    none: the client state for [client_wins], the server state for
    [server_wins], and for [merge] the caller's overrides first, then the
    server state.  The server counter of the clock that results is one more
    than before.  That record is the one returned when the database
    accepts the two writes. *)
Theorem resolveConflict_precedence saves now st id strategy rd c tid tx :
  conflicts st !! id = Some c →
  populate st c = Some (tid, tx) →
  strategy = "client_wins" ∨ strategy = "server_wins" ∨ strategy = "merge" →
  ∃ tx' fd,
    (saveTransaction saves tx' = None →
     saveConflict saves (mark_resolved c strategy now) = None →
     (resolveConflict saves now st id strategy rd).2 = inr tx')
    ∧ finalDataOf strategy c rd = Some fd
    ∧ (∀ path, ¬ reservedPath path →
         tx' !! path =
           if String.eqb strategy "client_wins" then (clientState c ∪ tx) !! path
           else if String.eqb strategy "server_wins" then (serverState c ∪ tx) !! path
           else (rd ∪ (serverState c ∪ tx)) !! path)
    ∧ counter (vectorClock_of tx') "server"
      = S (counter (vectorClock_of (fd ∪ tx)) "server")
    ∧ (∀ actor, actor ≠ "server" →
         counter (vectorClock_of tx') actor = counter (vectorClock_of (fd ∪ tx)) actor).
Proof.
  intros Hc Hp Hs. rewrite resolveConflict_unfold, Hc.
  assert (∃ fd, finalDataOf strategy c rd = Some fd) as [fd Hfd].
  { destruct Hs as [-> | [-> | ->]]; by eexists. }
  rewrite Hfd, Hp. simpl. exists (resolvedRecord fd tx), fd.
  assert (vectorClock_of (resolvedRecord fd tx)
          = <["server" := S (counter (vectorClock_of (fd ∪ tx)) "server")]>
              (vectorClock_of (fd ∪ tx))) as Hvc.
  { unfold resolvedRecord, vectorClock_of at 1. rewrite lookup_insert_eq.
    unfold vectorClock_of, doc_set. rewrite !lookup_insert_ne by done.
    by rewrite Nat.add_1_r. }
  split_and!; auto.
  - intros -> ->. done.
  - intros path Hpath. rewrite resolvedRecord_lookup by done.
    destruct Hs as [-> | [-> | ->]]; simpl in *; inversion Hfd; subst; try done.
    by rewrite (assoc_L (∪)).
  - rewrite Hvc. unfold counter at 1. by rewrite lookup_insert_eq.
  - intros actor Ha. rewrite Hvc. unfold counter at 1.
    by rewrite lookup_insert_ne.
Qed.

End ResolveEffects.

(** ** From a recorded conflict to its resolution *)

Section ReconcileResolve.
Import VectorClock ConsensusEngine Resolution.

Variable hash : doc → string.

(** The store after a call that answered [conflict]. *)
Lemma reconcile_conflict_store st tx cu cc dev :
  action (reconcile hash st tx cu cc dev).2 = "conflict" →
  (reconcile hash st tx cu cc dev).1
  = SyncConflict_create st (tx !! "_id") (tx !! "user") tx cu (vectorClock_of tx) cc (hash cu).
Proof.
  rewrite reconcile_unfold. unfold reconcile_relation.
  repeat (case_match; simpl; try discriminate); done.
Qed.

(** X6: the conflict that [reconcile] records for a stored transaction is
    [open], sits at the position given by the number of conflicts stored
    before, and can be resolved: on a database that accepts the two writes
    [resolveConflict] on it succeeds and marks it [resolved], and the
    record it writes and returns takes its paths (the sync status, the
    conflict counter and the clock apart) from the client payload given to
    [reconcile] for [client_wins], from the server document given to
    [reconcile] for [server_wins], and from the overrides and then that
    server document for [merge]. *)
Theorem reconcile_then_resolve saves now st tx cu cc dev tid stored strategy rd :
  action (reconcile hash st tx cu cc dev).2 = "conflict" →
  tx !! "_id" = Some (VStr tid) →
  transactions st !! tid = Some stored →
  strategy = "client_wins" ∨ strategy = "server_wins" ∨ strategy = "merge" →
  let st1 := (reconcile hash st tx cu cc dev).1 in
  let id := length (conflicts st) in
  status <$> conflicts st1 !! id = Some "open"
  ∧ ∃ tx',
      ((∀ d, saveTransaction saves d = None) → (∀ c, saveConflict saves c = None) →
       (resolveConflict saves now st1 id strategy rd).2 = inr tx'
       ∧ status <$> conflicts (resolveConflict saves now st1 id strategy rd).1 !! id
         = Some "resolved"
       ∧ transactions (resolveConflict saves now st1 id strategy rd).1 !! tid = Some tx')
      ∧ ∀ path, ¬ reservedPath path →
          tx' !! path =
            if String.eqb strategy "client_wins" then (cu ∪ stored) !! path
            else if String.eqb strategy "server_wins" then (tx ∪ stored) !! path
            else (rd ∪ (tx ∪ stored)) !! path.
Proof.
  intros Hact Hid Hstored Hs st1 id. subst st1 id.
  rewrite (reconcile_conflict_store _ _ _ _ _ Hact).
  unfold SyncConflict_create. simpl.
  set (entry := {| transactionId := tx !! "_id"; userId := tx !! "user";
                   serverState := tx; clientState := cu;
                   vectorClocks_server := vectorClock_of tx;
                   vectorClocks_client := cc; checksum := hash cu;
                   status := "open"; resolutionStrategy := None;
                   resolvedAt := None |}).
  assert ((conflicts st ++ [entry]) !! length (conflicts st) = Some entry) as Hentry.
  { by rewrite list_lookup_middle. }
  split; [by rewrite Hentry |].
  rewrite resolveConflict_unfold. simpl. rewrite Hentry.
  assert (∃ fd, finalDataOf strategy entry rd = Some fd) as [fd Hfd].
  { destruct Hs as [-> | [-> | ->]]; by eexists. }
  rewrite Hfd.
  assert (populate {| transactions := transactions st;
                      conflicts := conflicts st ++ [entry] |} entry
          = Some (tid, stored)) as Hp.
  { unfold populate. simpl. rewrite Hid. simpl. by rewrite Hstored. }
  rewrite Hp. exists (resolvedRecord fd stored). split.
  - intros H1 H2. rewrite H1, H2. simpl. split_and!.
    + reflexivity.
    + rewrite list_lookup_insert_eq; [done |]. rewrite length_app. simpl. lia.
    + by rewrite lookup_insert_eq.
  - intros path Hpath. rewrite resolvedRecord_lookup by done.
    destruct Hs as [-> | [-> | ->]]; simpl in *; inversion Hfd; subst; try done.
    by rewrite (assoc_L (∪)).
Qed.

End ReconcileResolve.


(** Resolving the conflict of the scenario in favour of the client, and
    the same on a record that has lost its counter. *)
Lemma resolveConflict_effects_witness :
  length (ConsensusEngine.conflicts
            (ConsensusEngine.resolveConflict Scenario.acceptAll 2000 Scenario.stResolved 0
               "client_wins" ∅).1)
  = 1%nat.
Proof.
  destruct (resolveConflict_effects Scenario.acceptAll 2000 Scenario.stResolved 0
              "client_wins" ∅
              (Resolution.resolvedRecord Scenario.clientEdit Scenario.txResolved)
              eq_refl)
    as (c & tid & stored & fd & _ & _ & _ & _ & _ & _ & _ & _ & Hlen & _).
  exact Hlen.
Defined.

Lemma resolveConflict_precedence_witness :
  ∃ tx',
    (ConsensusEngine.resolveConflict Scenario.acceptAll 2000 Scenario.stResolved 0 "merge"
       {[ "category" := VStr "travel" ]}).2 = inr tx'
    ∧ tx' !! "category" = Some (VStr "travel")
    ∧ tx' !! "amount" = Some (VNum 500).
Proof.
  destruct (resolveConflict_precedence Scenario.acceptAll 2000 Scenario.stResolved 0 "merge"
              {[ "category" := VStr "travel" ]} Scenario.resolvedConflict "t1"
              Scenario.txResolved eq_refl eq_refl)
    as (tx' & fd & H1 & _ & H2 & _); [by right; right |].
  exists tx'. split; [by apply H1 |]. split.
  - rewrite H2; [vm_compute; reflexivity |].
    unfold Resolution.reservedPath. intros [? | [? | ?]]; discriminate.
  - rewrite H2; [vm_compute; reflexivity |].
    unfold Resolution.reservedPath. intros [? | [? | ?]]; discriminate.
Defined.

(** The concurrent edit of the scenario, recorded and then resolved in
    favour of the client: the amount becomes the client's 700. *)
Lemma reconcile_then_resolve_witness :
  let st1 := (ConsensusEngine.reconcile Scenario.hash0 Scenario.st0 Scenario.tx0
                Scenario.clientEdit Scenario.clockConcurrent "phone").1 in
  ∃ tx', (ConsensusEngine.resolveConflict Scenario.acceptAll 2000 st1 0 "client_wins" ∅).2
         = inr tx'
         ∧ tx' !! "amount" = Some (VNum 700).
Proof.
  destruct (reconcile_then_resolve Scenario.hash0 Scenario.acceptAll 2000 Scenario.st0
              Scenario.tx0 Scenario.clientEdit Scenario.clockConcurrent "phone" "t1"
              Scenario.tx0 "client_wins" ∅)
    as (_ & tx' & H1 & H2);
    [vm_compute; reflexivity | reflexivity | reflexivity | by left |].
  exists tx'. split; [by apply H1 |].
  rewrite H2; [vm_compute; reflexivity |].
  unfold Resolution.reservedPath. intros [? | [? | ?]]; discriminate.
Defined.

(** ** Invariants of the fold *)

Section FoldInvariants.
Import Ledger ReplayEngine.

Lemma applyDeltas_cons s (d : StateDelta) ds :
  applyDeltas s (d :: ds) = applyDeltas (applyDelta s d) ds.
Proof. reflexivity. Qed.

(** X7: neither [totalIncome] nor [totalExpenses] is negative (or NaN) in
    a state reconstructed from scratch, and totals that are not negative
    stay so under any fold of deltas.  [totalBalance] is kept separately
    and rounds separately: after an income of 2^53, an expense of 1 and an
    income of 1 it is 2^53, while [totalIncome - totalExpenses] is
    2^53 - 1. *)
Theorem replay_totals_nonnegative :
  (∀ s (ds : list StateDelta),
     (0 <=? totalIncome s)%float = true → (0 <=? totalExpenses s)%float = true →
     (0 <=? totalIncome (applyDeltas s ds))%float = true
     ∧ (0 <=? totalExpenses (applyDeltas s ds))%float = true)
  ∧ (∀ db userId target,
       let s := reconstructFromScratch db userId target in
       (0 <=? totalIncome s)%float = true ∧ (0 <=? totalExpenses s)%float = true)
  ∧ (let s := applyDelta
                (applyDelta
                   (applyDelta emptyState (Scenario.created "i1" Scenario.incomeHuge))
                   (Scenario.created "e1" Scenario.expense1))
                (Scenario.created "i2" (Scenario.entry "income" 1 "salary")) in
     totalBalance s = 9007199254740992%float
     ∧ (totalIncome s - totalExpenses s)%float = 9007199254740991%float).
Proof.
  split_and!.
  - intros s ds Hi He.
    by destruct (applyDeltas_monotone ds s Hi He) as [[_ ?] [_ ?]].
  - intros db userId target s. subst s. unfold ReplayEngine.reconstructFromScratch.
    by destruct (applyDeltas_monotone (deltasUpTo db userId target) emptyState
                   eq_refl eq_refl) as [[_ ?] [_ ?]].
  - split; vm_compute; reflexivity.
Qed.

(** X8: the totals depend on the order in which deltas are folded, since
    binary64 addition is not associative: three incomes stamped with the
    same millisecond, one of 2^53 and two of 1, give a total income (and a
    balance) of 2^53 when the large one is folded first and of 2^53 + 2
    when it is folded last. *)
Theorem applyDeltas_order_matters :
  let stamped d := {| user := "u1"; timestamp := 100; body := d |} in
  let huge := stamped (Scenario.created "i1" Scenario.incomeHuge) in
  let one := stamped (Scenario.created "i2" (Scenario.entry "income" 1 "salary")) in
  [huge; one; one] ≡ₚ [one; one; huge]
  ∧ totalIncome (applyDeltas emptyState [huge; one; one]) = 9007199254740992%float
  ∧ totalIncome (applyDeltas emptyState [one; one; huge]) = 9007199254740994%float
  ∧ totalBalance (applyDeltas emptyState [huge; one; one]) = 9007199254740992%float
  ∧ totalBalance (applyDeltas emptyState [one; one; huge]) = 9007199254740994%float.
Proof.
  intros stamped huge one. split_and!; try (vm_compute; reflexivity).
  change [huge; one; one] with ([huge] ++ [one; one]).
  change [one; one; huge] with ([one; one] ++ [huge]).
  apply Permutation_app_comm.
Qed.

(** The number of deltas of a list that create something. *)
Local Abbreviation creations :=
  (λ ds : list StateDelta, length (filter (λ d : StateDelta, operation d = "create") ds)).

Lemma applyDeltas_count_bounds (ds : list StateDelta) s :
  0 ≤ transactionCount s →
  0 ≤ transactionCount (applyDeltas s ds)
  ∧ transactionCount (applyDeltas s ds) ≤ transactionCount s + Z.of_nat (creations ds).
Proof.
  revert s. induction ds as [| d ds IH]; intros s Hs; [simpl; lia |].
  rewrite applyDeltas_cons.
  pose proof (applyDelta_count s d) as Hc.
  destruct (String.eqb_spec (operation d) "create") as [E | E].
  - rewrite filter_cons_True by done. simpl length.
    destruct (IH (applyDelta s d)) as [H1 H2]; lia.
  - rewrite filter_cons_False by done.
    destruct (String.eqb (operation d) "delete");
      destruct (IH (applyDelta s d)) as [H1 H2]; lia.
Qed.

(** X9: the transaction counter never becomes negative under a fold, and a
    state reconstructed from scratch counts at most as many transactions
    as create deltas were folded. *)
Theorem transactionCount_bounds :
  (∀ s d, 0 ≤ transactionCount s → 0 ≤ transactionCount (applyDelta s d))
  ∧ (∀ db userId target,
       0 ≤ transactionCount (reconstructFromScratch db userId target)
       ∧ transactionCount (reconstructFromScratch db userId target)
         ≤ Z.of_nat (creations (deltasUpTo db userId target))).
Proof.
  split.
  - intros s d Hs. rewrite applyDelta_count. repeat case_match; lia.
  - intros db userId target. unfold ReplayEngine.reconstructFromScratch.
    destruct (applyDeltas_count_bounds (deltasUpTo db userId target) emptyState) as [H1 H2];
      simpl in *; lia.
Qed.

(** X10: [applyDelta] never touches the accounts, the currency or the
    attached transactions; it leaves the budgets alone unless the delta is
    about a budget, the goals alone unless it is about a goal, and the
    category breakdown alone when the delta affects no category. *)
Theorem applyDelta_frame s d :
  accounts (applyDelta s d) = accounts s
  ∧ currency (applyDelta s d) = currency s
  ∧ transactions (applyDelta s d) = transactions s
  ∧ (entityType d ≠ "budget" → budgets (applyDelta s d) = budgets s)
  ∧ (entityType d ≠ "goal" → goals (applyDelta s d) = goals s)
  ∧ (affectedCategories (financialImpact d) = [] →
       categoryBreakdown (applyDelta s d) = categoryBreakdown s).
Proof.
  destruct (applyDelta_keeps s d) as (Ha & Hc & Ht).
  split_and!; auto.
  - intros H. apply String.eqb_neq in H. by rewrite applyDelta_budgets, H.
  - intros H. apply String.eqb_neq in H. by rewrite applyDelta_goals, H.
  - intros H. rewrite applyDelta_breakdown, H. reflexivity.
Qed.

End FoldInvariants.

(** ** Budgets and goals inside the state *)

Section BudgetFacts.
Import Ledger ReplayEngine.

(** The fields a budget or goal entry derives from the others. *)
Local Abbreviation budgetOk :=
  (λ b : BudgetEntry, remaining b = (limit b - spent b)%float).
Local Abbreviation goalOk :=
  (λ g : GoalEntry, progress g = (currentAmount g / targetAmount g * 100)%float).

Lemma updateBudgetInState_ok s d :
  Forall budgetOk (budgets s) → Forall budgetOk (budgets (updateBudgetInState s d)).
Proof.
  intros H. unfold updateBudgetInState.
  repeat case_match; simpl; auto;
    first [ apply Forall_app; split; [done | by constructor]
          | by apply Forall_insert
          | by apply Forall_delete ].
Qed.

Lemma updateGoalInState_ok s d :
  Forall goalOk (goals s) → Forall goalOk (goals (updateGoalInState s d)).
Proof.
  intros H. unfold ReplayEngine.updateGoalInState.
  repeat case_match; simpl; auto;
    first [ apply Forall_app; split; [done | by constructor]
          | by apply Forall_insert
          | by apply Forall_delete ].
Qed.

(** X11: every budget entry the fold writes has
    [remaining = limit - spent], and every goal entry has the progress
    computed from its current and target amounts,
    [current / target * 100]; both hold for all entries of a state
    reconstructed from scratch. *)
Theorem derived_fields_consistent :
  (∀ s d, Forall budgetOk (budgets s) → Forall budgetOk (budgets (applyDelta s d)))
  ∧ (∀ s d, Forall goalOk (goals s) → Forall goalOk (goals (applyDelta s d)))
  ∧ (∀ db userId target,
       Forall budgetOk (budgets (reconstructFromScratch db userId target))
       ∧ Forall goalOk (goals (reconstructFromScratch db userId target))).
Proof.
  assert (∀ s d, Forall budgetOk (budgets s) → Forall budgetOk (budgets (applyDelta s d)))
    as Hb.
  { intros s d H. rewrite applyDelta_budgets. case_match; [| done].
    by apply updateBudgetInState_ok. }
  assert (∀ s d, Forall goalOk (goals s) → Forall goalOk (goals (applyDelta s d))) as Hg.
  { intros s d H. rewrite applyDelta_goals. case_match; [| done].
    by apply updateGoalInState_ok. }
  split_and!; [exact Hb | exact Hg |].
  intros db userId target. unfold ReplayEngine.reconstructFromScratch.
  assert (∀ (ds : list StateDelta) s,
            Forall budgetOk (budgets s) ∧ Forall goalOk (goals s) →
            Forall budgetOk (budgets (applyDeltas s ds))
            ∧ Forall goalOk (goals (applyDeltas s ds))) as Hall.
  { induction ds as [| d ds IH]; intros s [H1 H2]; [done |].
    apply (IH (applyDelta s d)). split; [by apply Hb | by apply Hg]. }
  apply Hall. split; constructor.
Qed.

(** X12: an update or a delete naming a budget (a goal) that the state
    does not hold, like a create that carries no after-state, leaves the
    state exactly as it was. *)
Theorem update_of_missing_entry s d :
  operation d ≠ "create" ∨ afterState d = None →
  ((∀ b, b ∈ budgets s → budgetId b ≠ entityId d) → updateBudgetInState s d = s)
  ∧ ((∀ g, g ∈ goals s → goalId g ≠ entityId d) → updateGoalInState s d = s).
Proof.
  intros Hop. split.
  - intros Hmiss.
    assert (findIndex (λ b, String.eqb (budgetId b) (entityId d)) (budgets s) = None) as E.
    { apply findIndex_None. intros b Hb. apply String.eqb_neq. by apply Hmiss. }
    unfold updateBudgetInState. rewrite E.
    destruct Hop as [Hop | Hop].
    + apply String.eqb_neq in Hop. rewrite Hop. repeat case_match; done.
    + rewrite Hop. repeat case_match; done.
  - intros Hmiss.
    assert (findIndex (λ g, String.eqb (goalId g) (entityId d)) (goals s) = None) as E.
    { apply findIndex_None. intros g Hg. apply String.eqb_neq. by apply Hmiss. }
    unfold ReplayEngine.updateGoalInState. rewrite E.
    destruct Hop as [Hop | Hop].
    + apply String.eqb_neq in Hop. rewrite Hop. repeat case_match; done.
    + rewrite Hop. repeat case_match; done.
Qed.

(** X13: creating a budget and then deleting the budget of that id gives
    back the budget list when the id was new; when an entry of that id was
    already there, the create appends a second one and the delete removes
    the older entry, leaving the new one at the end. *)
Theorem budget_create_then_delete s d d' a :
  operation d = "create" → afterState d = Some a →
  operation d' = "delete" → entityId d' = entityId d →
  budgets (updateBudgetInState (updateBudgetInState s d) d')
  = match findIndex (λ b, String.eqb (budgetId b) (entityId d)) (budgets s) with
    | None => budgets s
    | Some i => delete i (budgets s) ++ [budgetOf (entityId d) a]
    end.
Proof. apply budget_created_deleted. Qed.

End BudgetFacts.

(** ** Sorted results *)

Section SortedFacts.
Import Ledger.

Context {A : Type} (key : A → Z).

Local Abbreviation ascending := (λ x y : A, key x ≤ key y).

Lemma insert_by_sorted x (l : list A) :
  StronglySorted ascending l → StronglySorted ascending (insert_by key x l).
Proof.
  induction l as [| a l IH]; intros Hs; simpl.
  - repeat constructor.
  - apply StronglySorted_inv in Hs as [Hs Ha].
    destruct (Z.leb_spec (key x) (key a)) as [Hle | Hgt].
    + constructor; [by constructor |].
      constructor; [done |]. eapply Forall_impl; [exact Ha |]. simpl. intros; lia.
    + constructor; [by apply IH |].
      apply Forall_forall. intros y Hy. apply elem_of_insert_by in Hy as [-> | Hy]; [lia |].
      rewrite Forall_forall in Ha. by apply Ha.
Qed.

Lemma sort_by_sorted (l : list A) : StronglySorted ascending (sort_by key l).
Proof.
  induction l as [| a l IH]; simpl; [constructor | by apply insert_by_sorted].
Qed.

Lemma length_insert_by x (l : list A) : length (insert_by key x l) = S (length l).
Proof.
  induction l as [| a l IH]; simpl; [done |].
  destruct (key x <=? key a); simpl; [done | by rewrite IH].
Qed.

Lemma length_sort_by (l : list A) : length (sort_by key l) = length l.
Proof.
  induction l as [| a l IH]; simpl; [done |]. by rewrite length_insert_by, IH.
Qed.

Lemma sorted_app_le (l1 l2 : list A) x y :
  StronglySorted ascending (l1 ++ l2) → x ∈ l1 → y ∈ l2 → key x ≤ key y.
Proof.
  induction l1 as [| a l1 IH]; intros Hs Hx Hy; [by apply elem_of_nil in Hx |].
  simpl in Hs. apply StronglySorted_inv in Hs as [Hs Ha].
  apply elem_of_cons in Hx as [-> | Hx]; [| by apply IH].
  rewrite Forall_forall in Ha. apply Ha. apply elem_of_app. by right.
Qed.

Lemma sorted_take n (l : list A) :
  StronglySorted ascending l → StronglySorted ascending (take n l).
Proof.
  revert n. induction l as [| a l IH]; intros n Hs; [by destruct n |].
  destruct n; simpl; [constructor |].
  apply StronglySorted_inv in Hs as [Hs Ha].
  constructor; [by apply IH | by apply Forall_take].
Qed.

Lemma sorted_weaken (R R' : A → A → Prop) (l : list A) :
  (∀ x y, R x y → R' x y) → StronglySorted R l → StronglySorted R' l.
Proof.
  intros Himp. induction 1 as [| a l Hs IH Ha]; constructor; [done |].
  eapply Forall_impl; [exact Ha | auto].
Qed.

End SortedFacts.

(** ** Queries of the replay engine *)

Section QueryFacts.
Import Ledger ReplayEngine Writers.

Variable localTZA : Z → bool → Z.
Variable addMonth : Z → Z.

Local Abbreviation getStateEvolution := (ReplayEngine.getStateEvolution localTZA addMonth).
Local Abbreviation evolutionLoop := (ReplayEngine.evolutionLoop localTZA addMonth).
Local Abbreviation addDays := (ReplayEngine.addDays localTZA).
Local Abbreviation fixedOffset := (ReplayEngine.fixedOffset localTZA).

(** X16: [findClosestSnapshot] answers with a stored snapshot of the user
    dated at or before the target such that no other such snapshot is
    later; it answers with none exactly when the user has no snapshot dated
    at or before the target. *)
Theorem findClosestSnapshot_latest db userId target :
  match findClosestSnapshot db userId target with
  | Some sn =>
    sn ∈ snapshots db ∧ snap_user sn = userId ∧ snapshotDate sn ≤ target
    ∧ ∀ sn', sn' ∈ snapshots db → snap_user sn' = userId → snapshotDate sn' ≤ target →
             snapshotDate sn' ≤ snapshotDate sn
  | None =>
    ∀ sn, sn ∈ snapshots db → snap_user sn = userId → target < snapshotDate sn
  end.
Proof.
  destruct (findClosestSnapshot db userId target) as [sn |] eqn:E.
  - by apply findClosestSnapshot_Some.
  - by apply findClosestSnapshot_None.
Qed.

(** X17: [getTransactionsUpTo] returns at most 100 expenses, all of the
    user and dated at or before the target, latest first; they are the
    latest ones (any expense of the user up to the target that is left out
    is dated no later than each one returned), and nothing is left out when
    at most 100 qualify. *)
Theorem getTransactionsUpTo_latest db userId target :
  let qualifies := λ e, exp_user e = userId ∧ date e ≤ target in
  let r := getTransactionsUpTo db userId target in
  (length r ≤ 100)%nat
  ∧ (∀ e, e ∈ r → e ∈ expenses db ∧ qualifies e)
  ∧ StronglySorted (λ x y, date y ≤ date x) r
  ∧ (∀ e e', e ∈ r → e' ∈ expenses db → qualifies e' → e' ∉ r → date e' ≤ date e)
  ∧ ((length (filter qualifies (expenses db)) ≤ 100)%nat →
       ∀ e, e ∈ expenses db → qualifies e → e ∈ r).
Proof using Type.
  clear localTZA addMonth.
  intros qualifies r. subst r. unfold getTransactionsUpTo, sort_by_desc.
  set (L := sort_by (λ x, - date x) (filter qualifies (expenses db))).
  assert (∀ e, e ∈ L ↔ e ∈ expenses db ∧ qualifies e) as HL.
  { intros e. subst L. rewrite elem_of_sort_by, list_elem_of_filter. tauto. }
  assert (StronglySorted (λ x y, - date x ≤ - date y) L) as Hs.
  { apply sort_by_sorted. }
  split_and!.
  - rewrite length_take. lia.
  - intros e He. apply HL. apply elem_of_take in He as (i & Hi & _).
    by eapply list_elem_of_lookup_2.
  - eapply (sorted_weaken (λ x y, - date x ≤ - date y)); [| by apply sorted_take].
    intros x y. lia.
  - intros e e' He He' Hq Hn.
    assert (e' ∈ L) as Hin by (by apply HL).
    rewrite <- (take_drop 100 L) in Hin, Hs.
    apply elem_of_app in Hin as [Hin | Hin]; [done |].
    pose proof (sorted_app_le (λ x, - date x) _ _ e e' Hs He Hin) as Hle.
    simpl in Hle. lia.
  - intros Hlen e He Hq. rewrite take_ge; [by apply HL |].
    subst L. by rewrite length_sort_by.
Qed.

(** *** The sampling loop in general *)

Lemma evolutionLoop_run db userId endDate interval k off lo hi :
  (interval = "daily" ∧ k = 1) ∨ (interval = "weekly" ∧ k = 7) →
  fixedOffset off lo hi →
  ∀ (n : nat) current acc fuel,
    lo ≤ current →
    current + (Z.of_nat n + 1) * (k * day) ≤ hi →
    current + Z.of_nat n * (k * day) ≤ endDate →
    endDate < current + (Z.of_nat n + 1) * (k * day) →
    (n + 2 ≤ fuel)%nat →
    evolutionLoop fuel db userId current endDate interval acc
    = Some (acc ++ map (λ i : nat,
                          sampleOf (current + Z.of_nat i * (k * day))
                            (replayToDate db userId (current + Z.of_nat i * (k * day))
                               bareOptions))
                       (seq 0 (S n))).
Proof.
  intros Hint Hfix.
  assert (0 < k * day) as Hstep.
  { destruct Hint as [[_ ->] | [_ ->]]; reflexivity. }
  induction n as [| n IH]; intros current acc fuel Hlo Hhi Hle Hlt Hfuel.
  - destruct fuel as [| [| fuel]]; [lia | lia |].
    rewrite (evolutionLoop_step _ _ _ _ _ _ _ _ k) by (done || lia).
    rewrite (addDays_fixed _ off lo hi) by (done || lia).
    rewrite evolutionLoop_stop by lia.
    simpl. by rewrite Z.add_0_r.
  - destruct fuel as [| fuel]; [lia |].
    rewrite (evolutionLoop_step _ _ _ _ _ _ _ _ k) by (done || lia).
    rewrite (addDays_fixed _ off lo hi) by (done || lia).
    rewrite IH by lia.
    rewrite <- app_assoc. f_equal. f_equal.
    change (seq 0 (S (S n))) with (0%nat :: seq 1 (S n)).
    rewrite <- seq_shift. cbn [map app]. rewrite map_map.
    change (Z.of_nat 0) with 0. rewrite Z.mul_0_l, Z.add_0_r. f_equal.
    apply map_ext. intros i.
    replace (current + k * day + Z.of_nat i * (k * day))
      with (current + Z.of_nat (S i) * (k * day)) by lia.
    reflexivity.
Qed.

(** X14: for the [daily] and the [weekly] interval (a step of 1 or of 7
    days), [getStateEvolution] returns no sample when the end precedes the
    start; otherwise, on a host whose time zone keeps one offset from the
    start to one step after the end, it returns (given fuel for its loop
    tests) one sample for the start and one for each whole step that fits
    up to the end, that is [(end - start) / step + 1] samples dated
    [start + i * step], a day being 86,400,000 ms. *)
Theorem evolution_sample_count db userId startDate endDate interval k off :
  (interval = "daily" ∧ k = 1) ∨ (interval = "weekly" ∧ k = 7) →
  (endDate < startDate →
     ∀ fuel, getStateEvolution (S fuel) db userId startDate endDate interval = Some [])
  ∧ (startDate ≤ endDate →
     fixedOffset off startDate (endDate + k * day) →
     let n := Z.to_nat ((endDate - startDate) / (k * day)) in
     ∀ fuel, (n + 2 ≤ fuel)%nat →
       getStateEvolution fuel db userId startDate endDate interval
       = Some (map (λ i : nat,
                      sampleOf (startDate + Z.of_nat i * (k * day))
                        (replayToDate db userId (startDate + Z.of_nat i * (k * day))
                           bareOptions))
                   (seq 0 (S n)))).
Proof.
  intros Hint.
  assert (0 < k * day) as Hstep.
  { destruct Hint as [[_ ->] | [_ ->]]; reflexivity. }
  split.
  - intros Hlt fuel. unfold ReplayEngine.getStateEvolution.
    by rewrite evolutionLoop_stop.
  - intros Hle Hfix n fuel Hfuel. unfold ReplayEngine.getStateEvolution.
    assert (0 ≤ (endDate - startDate) / (k * day)) as Hq by (apply Z.div_pos; lia).
    pose proof (Z.mul_div_le (endDate - startDate) (k * day) Hstep) as H1.
    pose proof (Z.mul_succ_div_gt (endDate - startDate) (k * day) Hstep) as H2.
    rewrite (evolutionLoop_run db userId endDate interval k off startDate
               (endDate + k * day) Hint Hfix n startDate [] fuel);
      [done | lia | subst n; rewrite Z2Nat.id by done; lia
      | subst n; rewrite Z2Nat.id by done; lia
      | subst n; rewrite Z2Nat.id by done; lia | done].
Qed.

(** X15: with an interval other than [daily], [weekly] and [monthly] the
    loop of [getStateEvolution] never advances: when the start is not
    after the end it does not finish, whatever the number of iterations
    allowed. *)
Theorem evolution_unknown_interval_runs_forever db userId startDate endDate interval :
  interval ≠ "daily" → interval ≠ "weekly" → interval ≠ "monthly" →
  startDate ≤ endDate →
  ∀ fuel, getStateEvolution fuel db userId startDate endDate interval = None.
Proof.
  intros H1 H2 H3 Hle fuel. unfold ReplayEngine.getStateEvolution.
  generalize (@nil Sample). induction fuel as [| fuel IH]; intros acc; [done |].
  cbn [ReplayEngine.evolutionLoop].
  destruct (Z.leb_spec startDate endDate); [| lia].
  apply String.eqb_neq in H1, H2, H3. rewrite H1, H2, H3. apply IH.
Qed.

(** *** Differences between two dates *)



(** *** Logging does not rewrite the past *)

(** X19: logging a delta for another user, or stamped after the target
    date, changes nothing in what [replayToDate] returns for the user at
    that date. *)
Theorem logStateChange_keeps_replay now db other ty eid op b a ch userId target options :
  other ≠ userId ∨ target < now →
  replayToDate (logStateChange now db other ty eid op b a ch) userId target options
  = replayToDate db userId target options.
Proof using Type.
  clear localTZA addMonth.
  intros H.
  assert (∀ P : StateDelta → Prop, ∀ Hdec : (∀ d, Decision (P d)),
            (∀ d, P d → user d = userId ∧ timestamp d ≤ target) →
            filter P (deltas (logStateChange now db other ty eid op b a ch))
            = filter P (deltas db)) as Hf.
  { intros P Hdec HP. unfold logStateChange. simpl. rewrite filter_app.
    rewrite (filter_cons_False _ _ []); [by rewrite app_nil_r |].
    intros Hd. apply HP in Hd. simpl in Hd. destruct H; [tauto | lia]. }
  unfold ReplayEngine.replayToDate, ReplayEngine.reconstructFromScratch,
    deltasUpTo, deltasBetween, findClosestSnapshot, getTransactionsUpTo.
  rewrite Hf by tauto.
  assert (snapshots (logStateChange now db other ty eid op b a ch) = snapshots db) as ->
    by done.
  assert (expenses (logStateChange now db other ty eid op b a ch) = expenses db) as ->
    by done.
  destruct (head _) as [sn |]; [| done].
  rewrite Hf; [done |]. intros d (? & ? & ?). tauto.
Qed.

End QueryFacts.

(** ** Deltas: reversal, impact, range query *)

Section DeltaFacts.
Import Ledger EnhancedAuditLogger ReplayEngine StateDeltaQueries.

(** Swapping the old and the new value of a change. *)
Local Abbreviation swapChange :=
  (λ f : ChangedField, {| field := field f; oldValue := newValue f; newValue := oldValue f |}).

Lemma swapChange_twice (l : list ChangedField) : map swapChange (map swapChange l) = l.
Proof.
  induction l as [| [f o n] l IH]; simpl; [done | by f_equal].
Qed.

Lemma reverse_operation_twice d :
  operation (getReverseDelta (getReverseDelta d))
  = if String.eqb (operation d) "create" then "create"
    else if String.eqb (operation d) "delete" then "delete" else "update".
Proof.
  cbn [operation getReverseDelta].
  destruct (String.eqb (operation d) "create"); [done |].
  destruct (String.eqb (operation d) "delete"); done.
Qed.

(** X20: reversing a delta twice gives the delta back exactly when its
    operation is [create], [delete] or [update]; for any other operation
    ([restore]) the double reverse is an [update]. *)
Theorem getReverseDelta_twice d :
  (getReverseDelta (getReverseDelta d) = d
   ↔ operation d = "create" ∨ operation d = "delete" ∨ operation d = "update")
  ∧ (operation d ≠ "create" → operation d ≠ "delete" →
     operation (getReverseDelta (getReverseDelta d)) = "update").
Proof.
  split.
  - split.
    + intros H. apply (f_equal operation) in H. rewrite reverse_operation_twice in H.
      destruct (String.eqb_spec (operation d) "create"); [by left |].
      destruct (String.eqb_spec (operation d) "delete"); [by right; left |].
      by right; right.
    + intros Hop.
      assert (operation (getReverseDelta (getReverseDelta d)) = operation d) as E.
      { rewrite reverse_operation_twice.
        destruct Hop as [-> | [-> | ->]]; reflexivity. }
      destruct d as [ty id op b a ch [c cats bs gs]].
      cbn [operation getReverseDelta] in E.
      unfold getReverseDelta. cbn -[String.eqb].
      rewrite E, swapChange_twice, opp_involutive. reflexivity.
  - intros H1 H2. rewrite reverse_operation_twice.
    apply String.eqb_neq in H1, H2. by rewrite H1, H2.
Qed.

(** X21: for an expense, an income or a transfer, the reverse of the
    delta logged for creating the entity is the delta logged for deleting
    it, and conversely (the recorded changes swapped): same entity, states
    exchanged, and the same financial impact as the audit logger computes
    for the opposite operation.  For any other entity type the two differ
    in one place: the logger records a balance change of 0, its reverse
    carries -0. *)
Theorem reverse_of_logged_delta ty id e ch :
  (ty = "expense" ∨ ty = "income" ∨ ty = "transfer" →
     getReverseDelta (loggedDelta ty id "create" None (Some e) ch)
     = loggedDelta ty id "delete" (Some e) None (map swapChange ch)
     ∧ getReverseDelta (loggedDelta ty id "delete" (Some e) None ch)
       = loggedDelta ty id "create" None (Some e) (map swapChange ch))
  ∧ (ty ≠ "expense" → ty ≠ "income" → ty ≠ "transfer" →
     ∀ op b a,
       balanceChange (financialImpact (loggedDelta ty id op b a ch)) = 0%float
       ∧ balanceChange (financialImpact (getReverseDelta (loggedDelta ty id op b a ch)))
         = (-0)%float).
Proof.
  split.
  - intros Hty.
    assert (String.eqb ty "expense" || String.eqb ty "income" || String.eqb ty "transfer"
            = true) as E.
    { destruct Hty as [-> | [-> | ->]]; reflexivity. }
    unfold getReverseDelta, loggedDelta, calculateFinancialImpact, affectedIds, opt_id,
      signedAmount.
    cbn -[String.eqb PrimFloat.opp]. rewrite E.
    destruct (String.eqb (es_type e) "income");
      destruct (es_budgetId e); destruct (es_goalId e); cbn -[PrimFloat.opp];
      rewrite ?opp_involutive; split; reflexivity.
  - intros H1 H2 H3 op b a. apply String.eqb_neq in H1, H2, H3.
    unfold getReverseDelta, loggedDelta, calculateFinancialImpact.
    cbn -[String.eqb]. rewrite H1, H2, H3. split; reflexivity.
Qed.

(** X22: for an entity that is no expense, income or transfer the audit
    logger computes no balance change and no category; for a transaction,
    deleting a state undoes the change of creating it, an update changes
    the balance by the change of creating the new state plus that of
    deleting the old one, and an operation other than create, delete and
    update has no financial impact. *)
Theorem financialImpact_rules :
  (∀ ty op b a, ty ≠ "expense" → ty ≠ "income" → ty ≠ "transfer" →
     balanceChange (calculateFinancialImpact ty op b a) = 0%float
     ∧ affectedCategories (calculateFinancialImpact ty op b a) = [])
  ∧ (∀ ty e, ty = "expense" ∨ ty = "income" ∨ ty = "transfer" →
       balanceChange (calculateFinancialImpact ty "delete" (Some e) None)
       = (- balanceChange (calculateFinancialImpact ty "create" None (Some e)))%float)
  ∧ (∀ ty b a,
       balanceChange (calculateFinancialImpact ty "update" (Some b) (Some a))
       = (balanceChange (calculateFinancialImpact ty "create" None (Some a))
          + balanceChange (calculateFinancialImpact ty "delete" (Some b) None))%float)
  ∧ (∀ ty op b a, op ≠ "create" → op ≠ "delete" → op ≠ "update" →
       balanceChange (calculateFinancialImpact ty op b a) = 0%float
       ∧ affectedCategories (calculateFinancialImpact ty op b a) = []).
Proof.
  split_and!.
  - intros ty op b a H1 H2 H3. apply String.eqb_neq in H1, H2, H3.
    unfold calculateFinancialImpact. by rewrite H1, H2, H3.
  - intros ty e Hty.
    assert (String.eqb ty "expense" || String.eqb ty "income" || String.eqb ty "transfer"
            = true) as E.
    { destruct Hty as [-> | [-> | ->]]; reflexivity. }
    unfold calculateFinancialImpact, signedAmount. cbn -[String.eqb PrimFloat.opp].
    rewrite E. destruct (String.eqb (es_type e) "income"); cbn -[PrimFloat.opp];
      by rewrite ?opp_involutive.
  - intros ty b a. unfold calculateFinancialImpact, signedAmount.
    cbn -[String.eqb PrimFloat.opp PrimFloat.add PrimFloat.sub].
    destruct (String.eqb ty "expense" || String.eqb ty "income" || String.eqb ty "transfer");
      [| reflexivity].
    destruct (String.eqb (es_type b) "income"), (String.eqb (es_type a) "income");
      destruct (String.eqb (es_category b) (es_category a));
      cbn -[PrimFloat.opp PrimFloat.add PrimFloat.sub];
      by rewrite sub_add_opp, ?opp_involutive.
  - intros ty op b a H1 H2 H3. apply String.eqb_neq in H1, H2, H3.
    unfold calculateFinancialImpact. rewrite H1, H2, H3.
    destruct (String.eqb ty "expense" || String.eqb ty "income" || String.eqb ty "transfer");
      destruct a, b; done.
Qed.

(** X23: [getDeltasBetween] returns, in ascending order of timestamp,
    exactly the user's deltas stamped from the start to the end, both
    included; asked from one millisecond after a date it returns the deltas
    that replay folds onto a snapshot of that date. *)
Theorem getDeltasBetween_window db userId startDate endDate :
  StronglySorted (λ x y : StateDelta, timestamp x ≤ timestamp y)
    (getDeltasBetween db userId startDate endDate)
  ∧ (∀ d, d ∈ getDeltasBetween db userId startDate endDate
          ↔ d ∈ deltas db ∧ user d = userId
            ∧ startDate ≤ timestamp d ∧ timestamp d ≤ endDate)
  ∧ getDeltasBetween db userId (startDate + 1) endDate
    = deltasBetween db userId startDate endDate.
Proof.
  unfold getDeltasBetween. split_and!.
  - apply sort_by_sorted.
  - intros d. rewrite elem_of_sort_by, list_elem_of_filter. tauto.
  - unfold deltasBetween. f_equal. apply list_filter_iff. intros d.
    split; intros (? & ? & ?); split_and!; auto; lia.
Qed.

End DeltaFacts.

(** ** The changed fields of a state change *)

Section ChangedFieldsFacts.
Import Ledger ChangedFields.

Variable stringify : option value → option string.

Local Abbreviation calculateChangedFields := (ChangedFields.calculateChangedFields stringify).

Lemma elem_of_uniq k seen keys : k ∈ uniq seen keys ↔ k ∈ keys ∧ k ∉ seen.
Proof.
  revert seen. induction keys as [| a keys IH]; intros seen; simpl.
  - rewrite elem_of_nil. tauto.
  - case_bool_decide as Ha.
    + rewrite IH, elem_of_cons. split; [tauto |].
      intros [[-> | Hk] Hn]; [done | tauto].
    + rewrite !elem_of_cons, IH, elem_of_cons. split.
      * intros [-> | [Hk Hn]]; [tauto |]. tauto.
      * intros [[-> | Hk] Hn]; [by left |].
        destruct (decide (k = a)) as [-> | Hne]; [by left | right; tauto].
Qed.

Lemma NoDup_uniq seen keys : NoDup (uniq seen keys).
Proof.
  revert seen. induction keys as [| a keys IH]; intros seen; simpl; [constructor |].
  case_bool_decide; [apply IH |].
  constructor; [| apply IH].
  rewrite elem_of_uniq, elem_of_cons. tauto.
Qed.

(** What the loop body contributes for one key. *)
Local Abbreviation changeOf :=
  (λ (b a : obj) (key : string),
     if internalKey key then []
     else if bool_decide (stringify (get b key) ≠ stringify (get a key))
          then [ {| field := key; oldValue := get b key; newValue := get a key |} ]
          else []).

Lemma elem_of_changes b a keys c :
  c ∈ flat_map (changeOf b a) keys
  ↔ field c ∈ keys ∧ internalKey (field c) = false
    ∧ oldValue c = get b (field c) ∧ newValue c = get a (field c)
    ∧ stringify (oldValue c) ≠ stringify (newValue c).
Proof.
  rewrite list_elem_of_In, in_flat_map. split.
  - intros (k & Hk & Hc). apply list_elem_of_In in Hk, Hc.
    destruct (internalKey k) eqn:Ei; [by apply elem_of_nil in Hc |].
    case_bool_decide as Hd; [| by apply elem_of_nil in Hc].
    apply list_elem_of_singleton in Hc as ->. simpl. auto.
  - intros (Hk & Hi & Ho & Hn & Hd). exists (field c).
    split; [by apply list_elem_of_In |]. apply list_elem_of_In.
    rewrite Hi. rewrite <- Ho, <- Hn. rewrite bool_decide_eq_true_2 by done.
    destruct c; simpl in *. subst. by apply list_elem_of_singleton.
Qed.

Lemma NoDup_changes b a keys :
  NoDup keys → NoDup (map field (flat_map (changeOf b a) keys)).
Proof.
  induction keys as [| k keys IH]; intros Hnd; simpl; [constructor |].
  apply NoDup_cons in Hnd as [Hk Hnd]. rewrite map_app.
  assert (k ∉ map field (flat_map (changeOf b a) keys)) as Hfresh.
  { intros Hin. apply list_elem_of_fmap in Hin as (c & -> & Hc).
    apply elem_of_changes in Hc as (Hc & _). done. }
  destruct (internalKey k); simpl; [by apply IH |].
  case_bool_decide; simpl; [| by apply IH].
  constructor; [done | by apply IH].
Qed.

(** X24: [calculateChangedFields] reports nothing when either state is
    missing or when both states are the same object; otherwise it reports
    exactly the keys of either state that are not internal (no leading
    underscore) and whose values serialise differently, each once, with
    the old and the new value read from the two states. *)
Theorem calculateChangedFields_spec :
  (∀ s, calculateChangedFields None s = [] ∧ calculateChangedFields s None = [])
  ∧ (∀ b, calculateChangedFields (Some b) (Some b) = [])
  ∧ (∀ b a c,
       c ∈ calculateChangedFields (Some b) (Some a)
       ↔ (field c ∈ map fst b ∨ field c ∈ map fst a)
         ∧ String.prefix "_" (field c) = false
         ∧ oldValue c = get b (field c) ∧ newValue c = get a (field c)
         ∧ stringify (oldValue c) ≠ stringify (newValue c))
  ∧ (∀ b a, NoDup (map field (calculateChangedFields (Some b) (Some a)))).
Proof.
  split_and!.
  - intros s. split; [done | by destruct s].
  - intros b. unfold ChangedFields.calculateChangedFields.
    induction (allKeys b b) as [| k keys IH]; simpl; [done |].
    rewrite IH. destruct (internalKey k); [done |].
    by rewrite bool_decide_eq_false_2 by (intros H; by apply H).
  - intros b a c. unfold ChangedFields.calculateChangedFields.
    rewrite (elem_of_changes b a). unfold allKeys.
    rewrite elem_of_uniq, elem_of_app.
    assert (internalKey (field c) = false ↔ String.prefix "_" (field c) = false) as ->.
    { unfold internalKey. destruct (String.prefix "_" (field c)) eqn:Ep; simpl; [done |].
      destruct (String.eqb_spec (field c) "__v") as [E | E]; [| done].
      rewrite E in Ep. discriminate. }
    split.
    + intros ([H _] & ?). tauto.
    + intros (H & ?). split; [| tauto]. split; [done |]. by intros Hn%elem_of_nil.
  - intros b a. apply NoDup_changes, NoDup_uniq.
Qed.

End ChangedFieldsFacts.

(** ** The snapshot generator *)

Section GeneratorFacts.
Import Ledger ReplayEngine Writers SnapshotGenerator.



(** A snapshot the retention rules let go at time [now]. *)
Local Abbreviation expired :=
  (λ (now : Z) (sn : AuditSnapshot),
     (snapshotType sn = "daily" ∧ snapshotDate sn < now - daysMs 30)
     ∨ (snapshotType sn = "weekly" ∧ snapshotDate sn < now - daysMs 90)
     ∨ (snapshotType sn = "monthly" ∧ snapshotDate sn < now - daysMs 365)).

Lemma elem_of_cleanup now db sn :
  sn ∈ snapshots (cleanupOldSnapshots now db) ↔ sn ∈ snapshots db ∧ ¬ expired now sn.
Proof using Type.
  clear. unfold cleanupOldSnapshots, deleteMany. simpl.
  rewrite !list_elem_of_filter. tauto.
Qed.

Lemma filter_all {A} (P : A → Prop) `{!∀ x, Decision (P x)} (l : list A) :
  (∀ x, x ∈ l → P x) → filter P l = l.
Proof.
  induction l as [| a l IH]; intros Hall; [done |].
  rewrite filter_cons_True by (apply Hall; left).
  rewrite IH; [done |]. intros x Hx. apply Hall. by right.
Qed.

(** X25: [cleanupOldSnapshots] touches only the snapshots: it removes the
    daily ones older than 30 days, the weekly ones older than 90 days and
    the monthly ones older than 365 days, and keeps every other snapshot;
    so an on-demand snapshot is never removed, nor any snapshot of the
    last 30 days, and cleaning twice at the same time removes nothing
    more. *)
Theorem cleanup_retention now db :
  deltas (cleanupOldSnapshots now db) = deltas db
  ∧ expenses (cleanupOldSnapshots now db) = expenses db
  ∧ (∀ sn, sn ∈ snapshots (cleanupOldSnapshots now db)
           ↔ sn ∈ snapshots db ∧ ¬ expired now sn)
  ∧ (∀ sn, sn ∈ snapshots db → snapshotType sn = "on-demand" →
           sn ∈ snapshots (cleanupOldSnapshots now db))
  ∧ (∀ sn, sn ∈ snapshots db → now - daysMs 30 ≤ snapshotDate sn →
           sn ∈ snapshots (cleanupOldSnapshots now db))
  ∧ cleanupOldSnapshots now (cleanupOldSnapshots now db) = cleanupOldSnapshots now db.
Proof using Type.
  clear.
  split_and!; try done.
  - apply elem_of_cleanup.
  - intros sn Hin Hty. apply elem_of_cleanup. split; [done |].
    rewrite Hty. intros [[? _] | [[? _] | [? _]]]; discriminate.
  - intros sn Hin Hdate. apply elem_of_cleanup. split; [done |].
    unfold daysMs in *. intros [[_ ?] | [[_ ?] | [_ ?]]]; lia.
  - assert (∀ sn, sn ∈ snapshots (cleanupOldSnapshots now db) → ¬ expired now sn) as Hkept.
    { intros sn Hin. by apply elem_of_cleanup in Hin as [_ ?]. }
    unfold cleanupOldSnapshots at 1. f_equal.
    unfold deleteMany at 1 2 3.
    rewrite (filter_all _ (snapshots (cleanupOldSnapshots now db)));
      [| intros sn Hin; specialize (Hkept sn Hin); tauto].
    rewrite (filter_all _ (snapshots (cleanupOldSnapshots now db)));
      [| intros sn Hin; specialize (Hkept sn Hin); tauto].
    rewrite (filter_all _ (snapshots (cleanupOldSnapshots now db)));
      [| intros sn Hin; specialize (Hkept sn Hin); tauto].
    reflexivity.
Qed.


(** The test [generateUserSnapshot] makes before it stores anything. *)
Local Abbreviation hasDailySince :=
  (λ (today : Z) (userId : string) (db : Collections),
     Exists (λ sn, snap_user sn = userId ∧ today ≤ snapshotDate sn
                   ∧ snapshotType sn = "daily") (snapshots db)).

Lemma generateUserSnapshot_skip replayedAt today storedAt db userId :
  hasDailySince today userId db →
  generateUserSnapshot replayedAt today storedAt db userId = db.
Proof. intros H. unfold generateUserSnapshot. by rewrite bool_decide_eq_true_2. Qed.

Lemma generateUserSnapshot_store replayedAt today storedAt db userId :
  ¬ hasDailySince today userId db →
  generateUserSnapshot replayedAt today storedAt db userId
  = createSnapshot storedAt db userId
      (rstate (replayToDate db userId replayedAt bareOptions)) "daily".
Proof. intros H. unfold generateUserSnapshot. by rewrite bool_decide_eq_false_2. Qed.

(** X27: [generateUserSnapshot] leaves the deltas and the expenses alone
    and adds at most one snapshot; once it has run with a snapshot date not
    before the midnight it checks from, running it again for the same user
    and the same day adds nothing. *)
Theorem generateUserSnapshot_once_a_day replayedAt replayedAt' today storedAt storedAt'
    db userId :
  today ≤ storedAt →
  let db1 := generateUserSnapshot replayedAt today storedAt db userId in
  deltas db1 = deltas db
  ∧ expenses db1 = expenses db
  ∧ (∃ added, snapshots db1 = snapshots db ++ added ∧ (length added ≤ 1)%nat)
  ∧ generateUserSnapshot replayedAt' today storedAt' db1 userId = db1.
Proof.
  intros Hle db1. subst db1.
  destruct (decide (hasDailySince today userId db)) as [Hex | Hex].
  - rewrite (generateUserSnapshot_skip replayedAt) by done.
    split_and!; try done.
    + exists []. split; [by rewrite app_nil_r | simpl; lia].
    + by apply generateUserSnapshot_skip.
  - rewrite (generateUserSnapshot_store replayedAt) by done.
    split_and!; try done.
    + eexists [_]. split; [reflexivity | simpl; lia].
    + apply generateUserSnapshot_skip.
      unfold createSnapshot. simpl. apply Exists_app. right.
      constructor. simpl. done.
Qed.

End GeneratorFacts.

(** ** The further properties on the data of the scenarios *)


(** Updating a budget that the zeroed state does not hold. *)
Lemma update_of_missing_entry_witness :
  ReplayEngine.updateBudgetInState ReplayEngine.emptyState Cases.budgetUpdate
  = ReplayEngine.emptyState.
Proof.
  destruct (update_of_missing_entry ReplayEngine.emptyState Cases.budgetUpdate)
    as [H _]; [left; discriminate |].
  apply H. intros b Hb. by apply elem_of_nil in Hb.
Defined.

(** Creating and deleting budget [b1] on the zeroed state. *)
Lemma budget_create_then_delete_witness :
  Ledger.budgets
    (ReplayEngine.updateBudgetInState
       (ReplayEngine.updateBudgetInState ReplayEngine.emptyState Cases.budgetCreate)
       Cases.budgetDelete)
  = [].
Proof.
  apply (budget_create_then_delete ReplayEngine.emptyState Cases.budgetCreate
           Cases.budgetDelete Cases.budgetState); reflexivity.
Defined.

(** Three days and five milliseconds on a host in India, sampled daily:
    four samples. *)
Lemma evolution_sample_count_witness :
  length <$> ReplayEngine.getStateEvolution Scenario.kolkata Scenario.month30 10 Scenario.db3
               "u1" 0 (3 * ReplayEngine.day + 5) "daily"
  = Some 4%nat.
Proof.
  destruct (evolution_sample_count Scenario.kolkata Scenario.month30 Scenario.db3 "u1"
              0 (3 * ReplayEngine.day + 5) "daily" 1 19800000) as [_ H];
    [by left |].
  rewrite H; [vm_compute; reflexivity | vm_compute; discriminate
             | intros t isUTC _; reflexivity | vm_compute; lia].
Defined.

(** An interval the loop does not know. *)
Lemma evolution_unknown_interval_witness :
  ReplayEngine.getStateEvolution Scenario.kolkata Scenario.month30 1000 Scenario.db3
    "u1" 0 1 "hourly" = None.
Proof.
  apply evolution_unknown_interval_runs_forever; [discriminate .. | lia].
Defined.


(** A delta of another user does not show in the replay of user [u1]. *)
Lemma logStateChange_keeps_replay_witness :
  ReplayEngine.replayToDate
    (Writers.logStateChange 350 Scenario.db3 "u2" "expense" "e9" "create" None
       (Some Scenario.expense500) [])
    "u1" 400 ReplayEngine.bareOptions
  = ReplayEngine.replayToDate Scenario.db3 "u1" 400 ReplayEngine.bareOptions.
Proof.
  apply logStateChange_keeps_replay. left. discriminate.
Defined.


(** Two runs of the nightly generator on the same day. *)
Lemma generateUserSnapshot_once_a_day_witness :
  SnapshotGenerator.generateUserSnapshot 250 0 250
    (SnapshotGenerator.generateUserSnapshot 200 0 200 Scenario.db1 "u1") "u1"
  = SnapshotGenerator.generateUserSnapshot 200 0 200 Scenario.db1 "u1".
Proof.
  destruct (generateUserSnapshot_once_a_day 200 250 0 200 250 Scenario.db1 "u1")
    as (_ & _ & _ & H); [lia | exact H].
Defined.

(** ** A logged change shows in the next replay *)

Section LogThenReplay.
Import Ledger ReplayEngine Writers.


(** An element not below any other is sorted last. *)
Lemma sort_by_snoc {A} (key : A → Z) (l : list A) x :
  (∀ y, y ∈ l → key y ≤ key x) → sort_by key (l ++ [x]) = sort_by key l ++ [x].
Proof.
  induction l as [| a l IH]; intros H; [done |].
  simpl. rewrite IH by (intros y Hy; apply H; by right).
  apply insert_by_app_l. intros b Hb. apply list_elem_of_singleton in Hb as ->.
  apply H. by left.
Qed.

(** X29: when no delta of the user is stamped later than the moment a
    change is logged, the state reconstructed at that moment after the
    logging is the state reconstructed before it with the logged delta
    applied last; in particular the balance has the balance change that the
    audit logger computed added to it (in binary64 arithmetic), and stays
    as it is when that change is zero or NaN. *)
Theorem logStateChange_then_replay now db userId ty eid op b a ch :
  (∀ d, d ∈ deltas db → user d = userId → timestamp d ≤ now) →
  let logged := EnhancedAuditLogger.loggedDelta ty eid op b a ch in
  let before := reconstructFromScratch db userId now in
  let after :=
    reconstructFromScratch (logStateChange now db userId ty eid op b a ch)
      userId now in
  let change := balanceChange (EnhancedAuditLogger.calculateFinancialImpact ty op b a) in
  after = applyDelta before logged
  ∧ totalBalance after
    = (if Number.truthy change then (Number.or0 (totalBalance before) + change)%float
       else totalBalance before).
Proof.
  intros Hpast logged before after change.
  assert (after = applyDelta before logged) as E.
  { subst after before. unfold ReplayEngine.reconstructFromScratch, deltasUpTo, logStateChange.
    simpl. rewrite filter_app.
    rewrite (filter_cons_True _ _ []) by (simpl; split; [done | lia]).
    rewrite filter_nil, sort_by_snoc.
    - unfold ReplayEngine.applyDeltas. by rewrite fold_left_app.
    - intros y Hy. apply list_elem_of_filter in Hy as [[_ Hy] _]. simpl. lia. }
  split; [exact E |]. rewrite E.
  by destruct (applyDelta_totals before logged) as (-> & _).
Qed.

End LogThenReplay.

(** A second expense of 500 logged at time 400 on the ledger of the
    scenario. *)
Lemma logStateChange_then_replay_witness :
  Ledger.totalBalance
    (ReplayEngine.reconstructFromScratch
       (Writers.logStateChange 400 Scenario.db3 "u1" "expense" "e2" "create" None
          (Some Scenario.expense500) [])
       "u1" 400)
  = (-500)%float.
Proof.
  destruct (logStateChange_then_replay 400 Scenario.db3 "u1" "expense" "e2"
              "create" None (Some Scenario.expense500) []) as [_ H].
  - intros d Hd _. unfold Scenario.db3, Scenario.db2, Scenario.db1 in Hd. simpl in Hd.
    apply elem_of_cons in Hd as [-> | Hd]; [simpl; lia |].
    apply list_elem_of_singleton in Hd as ->. simpl. lia.
  - rewrite H. vm_compute. reflexivity.
Defined.

(** ** Faithful snapshots as an invariant of the writers *)

Section FaithfulInvariant.
Import Ledger ReplayEngine Writers SnapshotGenerator.



End FaithfulInvariant.

